(** * migrador: WordPress to Liferay migration scripts

    A shallow embedding of the three migration scripts
    ([get_categories_wordpress.py], [create_folders.py], [create_news.py])
    and the properties of their pagination loops, folder-name handling,
    URL-mapping file and second-pass link rewriting.

    Python values are modelled as follows:
    - [str] is [string]; a character is a code point below 256;
    - [int] is [Z];
    - a JSON array is a [list], a JSON object with known keys a [Record];
    - a function that may raise returns an [outcome];
    - [while True] loops take a [fuel] argument and answer [Diverge] when
      it runs out; every theorem about a returned value shows that enough
      fuel exists. *)

From Stdlib Require Import ZArith Ascii List Lia.
From stdpp Require Import base decidable option list strings gmap pretty.

Local Open Scope Z_scope.

(** ** Exceptions and outcomes *)

(** The exception classes the scripts raise or catch.  [HTTPError],
    [ConnectionError] and [JSONDecodeError] (the one of [requests], raised
    by [response.json()]) are subclasses of
    [requests.exceptions.RequestException]; the others are plain
    [Exception]s ([AttributeError] and [TypeError] are what [.get] and
    an index by key raise on a JSON array). *)
Inductive exn : Type :=
| HTTPError (status : Z)
| ConnectionError
| JSONDecodeError
| ValueError (msg : string)
| KeyError (key : string)
| GenericException (msg : string)
| AttributeError
| TypeError.

Definition is_HTTPError (e : exn) : bool :=
  match e with HTTPError _ => true | _ => false end.

Definition is_RequestException (e : exn) : bool :=
  match e with
  | HTTPError _ | ConnectionError | JSONDecodeError => true
  | _ => false
  end.

Inductive outcome (A : Type) : Type :=
| Done (a : A)
| Raised (e : exn)
| Diverge.
Arguments Done {A} a.
Arguments Raised {A} e.
Arguments Diverge {A}.

(** ** Python string operations *)

Module PyStr.

Definition quote : ascii := "034"%char.

Fixpoint chars (s : string) : list ascii :=
  match s with
  | EmptyString => []
  | String c s' => c :: chars s'
  end.

Fixpoint contains_char (c : ascii) (s : string) : bool :=
  match s with
  | EmptyString => false
  | String a s' => if decide (a = c) then true else contains_char c s'
  end.

(** [s[:n]] *)
Fixpoint take (n : nat) (s : string) : string :=
  match n, s with
  | S n', String c s' => String c (take n' s')
  | _, _ => EmptyString
  end.

Fixpoint is_prefix (p s : string) : bool :=
  match p, s with
  | EmptyString, _ => true
  | String a p', String b s' => if decide (a = b) then is_prefix p' s' else false
  | String _ _, EmptyString => false
  end.

(** [s.startswith(p)] *)
Definition startswith (p s : string) : bool := is_prefix p s.

(** [s.endswith(p)] *)
Definition endswith (p s : string) : bool :=
  is_prefix (String.rev p) (String.rev s).

(** [s.replace(old, new)] for a non-empty [old]: a left-to-right scan
    replacing non-overlapping occurrences.  [skip] counts the characters
    of a matched occurrence that are still to be dropped. *)
Fixpoint replace_go (old new : string) (skip : nat) (s : string) : string :=
  match s with
  | EmptyString => EmptyString
  | String c s' =>
      match skip with
      | S k => replace_go old new k s'
      | O =>
          if is_prefix old s
          then new +:+ replace_go old new (String.length old - 1) s'
          else String c (replace_go old new 0 s')
      end
  end.

(** With an empty [old], Python inserts [new] before every character and
    at the end. *)
Fixpoint interleave (new s : string) : string :=
  match s with
  | EmptyString => new
  | String c s' => new +:+ String c (interleave new s')
  end.

Definition replace (old new s : string) : string :=
  match old with
  | EmptyString => interleave new s
  | String _ _ => replace_go old new 0 s
  end.

(** [c.lower()] on code points below 256: A-Z and the accented capitals
    U+00C0-U+00DE (except the multiplication sign U+00D7) move up by 32. *)
Definition lower_char (c : ascii) : ascii :=
  let n := nat_of_ascii c in
  if ((65 <=? n)%nat && (n <=? 90)%nat)
     || ((192 <=? n)%nat && (n <=? 222)%nat && negb (n =? 215)%nat)
  then ascii_of_nat (n + 32) else c.

Fixpoint lower (s : string) : string :=
  match s with
  | EmptyString => EmptyString
  | String c s' => String (lower_char c) (lower s')
  end.

(** [c.isspace()] on code points below 256. *)
Definition isspace_char (c : ascii) : bool :=
  let n := nat_of_ascii c in
  ((9 <=? n)%nat && (n <=? 13)%nat) || ((28 <=? n)%nat && (n <=? 32)%nat)
  || (n =? 133)%nat || (n =? 160)%nat.

Fixpoint lstrip (s : string) : string :=
  match s with
  | EmptyString => EmptyString
  | String c s' => if isspace_char c then lstrip s' else s
  end.

(** [s.strip()] *)
Definition strip (s : string) : string :=
  String.rev (lstrip (String.rev (lstrip s))).

End PyStr.

(** ** create_folders.py: folder-name sanitisation *)

Definition reserved_names : list string :=
  [ "null"; "con"; "prn"; "aux"; "nul"; "com1"; "com2"; "com3"; "com4"; "com5";
    "com6"; "com7"; "com8"; "com9"; "lpt1"; "lpt2"; "lpt3"; "lpt4"; "lpt5";
    "lpt6"; "lpt7"; "lpt8"; "lpt9" ].

(** The raw literal of the source: ten characters, namely less-than,
    greater-than, colon, double quote, slash, two backslashes, bar,
    question mark and star. *)
Definition invalid_chars : string :=
  "<>:" +:+ String PyStr.quote "/\\|?*".

(** The loop [for char in invalid_chars: title = title.replace(char, "")]. *)
Definition remove_invalid_chars (title : string) : string :=
  foldl (fun t c => PyStr.replace (String c "") "" t) title (PyStr.chars invalid_chars).

(** The title after the three clean-up steps that precede the reserved-word
    test: invalid characters removed, a trailing [..] cut, and the two
    path sequences replaced. *)
Definition stripped_title (title : string) : string :=
  let title := remove_invalid_chars title in
  let title :=
    if PyStr.endswith ".." title
    then PyStr.take (String.length title - 2) title
    else title in
  PyStr.replace "/..." "" (PyStr.replace "../" "" title).

Definition sanitize_folder_title (title : string) : outcome string :=
  if decide (title = "")
  then Raised (ValueError "O nome da pasta nao pode estar em branco.")
  else
    let title := stripped_title title in
    let title :=
      if bool_decide (PyStr.lower title ∈ reserved_names)
      then title +:+ "_safe" else title in
    Done (PyStr.take 255 title).

(** ** JSON values exchanged with the two servers *)

(** A WordPress category, as returned by [GET /categories]. *)
Record Category := { cat_id : Z; cat_name : string }.

(** A WordPress post.  [post_title], [post_content] are the [rendered]
    members; [post_excerpt], [post_date_gmt] and [post_link] are read with
    [.get] by the scripts and may be absent. *)
Record Post := {
  post_id : Z;
  post_title : string;
  post_content : string;
  post_excerpt : option string;
  post_categories : list Z;
  post_date_gmt : option string;
  post_link : option string
}.

(** A Liferay document folder, as listed under [items]. *)
Record Folder := { folder_id : Z; folder_name : string }.

(** An entry of the [contentFields] array of a structured content. *)
Record ContentField := { field_name : string; field_data : string }.

(** The creation payload of [process_post]. *)
Record ContentPayload := {
  contentStructureId : string;
  title : string;
  friendlyUrlPath : string;
  dateCreated : option string;
  taxonomyCategoryIds : list Z;
  contentFields : list ContentField
}.

(** An entry of [category_mapping.json]. *)
Record CategoryMapping := {
  wordpress_id : Z;
  wordpress_name : string;
  liferay_id : Z;
  liferay_name : string
}.

(** An entry of [url_mapping.json]. *)
Record UrlMapping := { original_url : string; new_url : string }.

#[global] Instance Category_eq_dec : EqDecision Category.
Proof. solve_decision. Defined.
#[global] Instance Post_eq_dec : EqDecision Post.
Proof. solve_decision. Defined.
#[global] Instance Folder_eq_dec : EqDecision Folder.
Proof. solve_decision. Defined.
#[global] Instance ContentField_eq_dec : EqDecision ContentField.
Proof. solve_decision. Defined.
#[global] Instance UrlMapping_eq_dec : EqDecision UrlMapping.
Proof. solve_decision. Defined.

(** ** HTTP requests and replies *)

(** The requests the modelled functions send.  Every constructor stands
    for one URL template of the source. *)
Inductive request : Type :=
| WpGetCategories (page per_page : Z)
| WpGetPosts (per_page : Z)
| WpGetPostsByCategory (category_id per_page page : Z)
| LrListSiteFolders (site_id : string)
| LrCreateSiteFolder (site_id : string) (name description : string)
| LrListSubfolders (parent_folder_id : Z)
| LrCreateSubfolder (parent_folder_id : Z) (name description : string)
| LrCreateContent (payload : ContentPayload)
| LrSearchContent (friendly_url : string)
| LrPatchContent (content_id : Z) (fields : list ContentField).

(** The body of a reply, as far as the scripts read it.  [NotJson] is a
    body on which [response.json()] raises; [JsonObject] is a JSON object
    with none of the keys the scripts look up (an error document, say). *)
Inductive body : Type :=
| NotJson
| JsonObject
| JsonCategories (items : list Category)
| JsonPosts (items : list Post)
| JsonFolders (items : list Folder)
| JsonFolder (id : Z)
| JsonContents (ids : list Z)
| JsonContent (friendly_url_path : option string).

(** A received response: status code, the [X-WP-TotalPages] header when
    present, and the body. *)
Record response := {
  status_code : Z;
  total_pages_header : option Z;
  resp_body : body
}.

(** What [requests.get/post/patch] does: raise [ConnectionError] or
    return a response. *)
Inductive reply : Type :=
| NoReply
| Reply (r : response).

(** [response.raise_for_status()]: an [HTTPError] for 4xx and 5xx. *)
Definition raise_for_status (r : response) : outcome unit :=
  if (400 <=? status_code r) && (status_code r <? 600)
  then Raised (HTTPError (status_code r)) else Done tt.

(** Decoding a body.  For the four decoders that follow, a body of
    another shape than the endpoint's is treated like an undecodable one,
    except that [.get("items", [])] on a JSON object without the key
    gives the default and [["id"]] raises [KeyError]. *)
Definition json_error {A} : outcome A :=
  Raised JSONDecodeError.

Definition json_categories (r : response) : outcome (list Category) :=
  match resp_body r with JsonCategories l => Done l | _ => json_error end.

Definition json_posts (r : response) : outcome (list Post) :=
  match resp_body r with JsonPosts l => Done l | _ => json_error end.

Definition json_folder_items (r : response) : outcome (list Folder) :=
  match resp_body r with
  | JsonFolders l => Done l
  | JsonObject => Done []
  | _ => json_error
  end.

Definition json_id (r : response) : outcome Z :=
  match resp_body r with
  | JsonFolder id => Done id
  | JsonObject => Raised (KeyError "id")
  | _ => json_error
  end.

(** [response.json().get("items", [])] as [get_content_id_by_friendly_url]
    reads it, down to the [id] of each item: an undecodable body raises
    [JSONDecodeError]; a JSON array (the bodies of categories and posts)
    has no [.get] and raises [AttributeError]; a JSON object without
    [items] gives the empty list; the items of a folder listing have an
    [id] as well. *)
Definition json_content_items (r : response) : outcome (list Z) :=
  match resp_body r with
  | NotJson => json_error
  | JsonCategories _ | JsonPosts _ => Raised AttributeError
  | JsonContents l => Done l
  | JsonFolders l => Done (folder_id <$> l)
  | JsonObject | JsonFolder _ | JsonContent _ => Done []
  end.

(** [response.json().get("friendlyUrlPath", default)]: every JSON object
    without the key gives the default, a JSON array raises
    [AttributeError]. *)
Definition json_friendly_url_path (default : string) (r : response) : outcome string :=
  match resp_body r with
  | NotJson => json_error
  | JsonCategories _ | JsonPosts _ => Raised AttributeError
  | JsonContent (Some p) => Done p
  | JsonContent None | JsonObject | JsonFolders _ | JsonFolder _ | JsonContents _ =>
      Done default
  end.

(** ** The environment of a run *)

(** Everything the scripts take from outside: the two servers (one state,
    one transition per request), the library functions whose tables are
    not part of the repository, and the configuration values. *)
Class Environment := {
  Server : Type;
  serve : request -> Server -> reply * Server;
  (** [unidecode.unidecode] *)
  unidecode : string -> string;
  (** [datetime.strptime(d, fmt).strftime(fmt)] with
      [fmt = "%Y-%m-%dT%H:%M:%S"]; raises [ValueError] on a mismatch *)
  reformat_date : string -> outcome string;
  (** [CONTENT_STRUCTURE_ID] *)
  content_structure_id : string
}.

Section Program.

Context {env : Environment}.

(** The state a run threads through: the servers, the HTTP exchanges
    made so far (oldest first), the two JSON files ([None]: the file does
    not exist) and the global counter [folders_created]. *)
Record world := {
  server : Server;
  traffic : list (request * reply);
  url_mapping_file : option (list UrlMapping);
  category_mapping_file : option (list CategoryMapping);
  folders_created : Z
}.

Definition M (A : Type) : Type := world -> outcome A * world.

Definition ret {A} (a : A) : M A := fun w => (Done a, w).

Definition bind {A B} (m : M A) (k : A -> M B) : M B :=
  fun w =>
    match m w with
    | (Done a, w') => k a w'
    | (Raised e, w') => (Raised e, w')
    | (Diverge, w') => (Diverge, w')
    end.

Definition raise {A} (e : exn) : M A := fun w => (Raised e, w).

Definition diverge {A} : M A := fun w => (Diverge, w).

Definition lift {A} (o : outcome A) : M A := fun w => (o, w).

(** [try: body / except ...: handler].  [handler e = None] when no
    [except] clause matches [e]; exceptions raised by a handler are not
    caught by its sibling clauses. *)
Definition try_except {A} (body : M A) (handler : exn -> option (M A)) : M A :=
  fun w =>
    match body w with
    | (Raised e, w') =>
        match handler e with
        | Some h => h w'
        | None => (Raised e, w')
        end
    | r => r
    end.

(** The world after an exchange: the server has moved to [s'] and the
    exchange is recorded. *)
Definition log_exchange (req : request) (rep : reply) (s' : Server)
    (w : world) : world :=
  {| server := s'; traffic := traffic w ++ [(req, rep)];
     url_mapping_file := url_mapping_file w;
     category_mapping_file := category_mapping_file w;
     folders_created := folders_created w |}.

(** One HTTP exchange, the common part of [requests.get], [requests.post]
    and [requests.patch]. *)
Definition http (req : request) : M response :=
  fun w =>
    let '(rep, s') := serve req (server w) in
    let w' := log_exchange req rep s' w in
    match rep with
    | NoReply => (Raised ConnectionError, w')
    | Reply r => (Done r, w')
    end.

Definition initial_world (s : Server) : world :=
  {| server := s; traffic := [];
     url_mapping_file := None; category_mapping_file := None;
     folders_created := 0 |}.

(** The requests of a run, without the replies. *)
Definition requests (w : world) : list request := fst <$> traffic w.

End Program.

Declare Scope py_scope.
Delimit Scope py_scope with py.
Notation "x <- m ;; k" := (bind m (fun x => k))
  (at level 100, m at next level, right associativity) : py_scope.
Notation "m ;;; k" := (bind m (fun _ => k))
  (at level 100, right associativity) : py_scope.

Local Open Scope py_scope.

(** ** get_categories_wordpress.py *)

Section GetCategoriesWordpress.

Context {env : Environment}.

(** The [while True] loop of [get_all_categories]: [categories] and
    [page] are the loop variables. *)
Fixpoint get_all_categories_loop (fuel : nat) (categories : list Category)
    (page : Z) : M (list Category) :=
  match fuel with
  | O => diverge
  | S fuel =>
      response <- http (WpGetCategories page 100) ;;
      if status_code response =? 200 then
        data <- lift (json_categories response) ;;
        let categories := categories ++ data in
        if Z.of_nat (length data) =? 0 then ret categories
        else get_all_categories_loop fuel categories (page + 1)
      else ret categories
  end.

Definition get_all_categories (fuel : nat) : M (list Category) :=
  get_all_categories_loop fuel [] 1.

End GetCategoriesWordpress.

(** ** create_folders.py *)

(** [filter_valid_image_urls]: the URLs of the source site and the
    relative upload paths are kept, in order. *)
Definition filter_valid_image_urls (image_urls : list string) : list string :=
  List.filter
    (fun url =>
       PyStr.startswith "https://www2.tc.df.gov.br" url
       || PyStr.startswith "/wp-content" url
       || PyStr.startswith "/wp-conteudo" url)
    image_urls.

(** [generate_unique_name]: [new_name] and [counter] are the loop
    variables of [while new_name in existing_names]. *)
Fixpoint generate_unique_name_loop (fuel : nat) (base_name : string)
    (existing_names : gset string) (new_name : string) (counter : Z)
  : outcome string :=
  if decide (new_name ∈ existing_names) then
    match fuel with
    | O => Diverge
    | S fuel =>
        generate_unique_name_loop fuel base_name existing_names
          (base_name +:+ "_" +:+ pretty counter) (counter + 1)
    end
  else Done new_name.

Definition generate_unique_name (fuel : nat) (base_name : string)
    (existing_names : gset string) : outcome string :=
  generate_unique_name_loop fuel base_name existing_names base_name 1.

(** [{folder["name"] for folder in items}] *)
Definition folder_names (items : list Folder) : gset string :=
  list_to_set (folder_name <$> items).

(** [for folder in items: if folder["name"] == name: return folder["id"]] *)
Definition find_folder (name : string) (items : list Folder) : option Z :=
  folder_id <$> List.find (fun f => bool_decide (folder_name f = name)) items.

Section CreateFolders.

Context {env : Environment}.

Definition count_folder_created : M unit :=
  fun w =>
    (Done tt,
     {| server := server w; traffic := traffic w;
        url_mapping_file := url_mapping_file w;
        category_mapping_file := category_mapping_file w;
        folders_created := folders_created w + 1 |}).

(** Both [except] clauses of [create_or_get_folder_in_liferay] log and
    re-raise, so the [try] changes nothing but the log. *)
Definition create_or_get_folder_in_liferay (title : string) (site_id : string)
  : M Z :=
  sanitized_title <- lift (sanitize_folder_title title) ;;
  try_except
    (response <- http (LrListSiteFolders site_id) ;;
     lift (raise_for_status response) ;;;
     folders <- lift (json_folder_items response) ;;
     match find_folder sanitized_title folders with
     | Some id => ret id
     | None =>
         response <- http (LrCreateSiteFolder site_id sanitized_title
                             ("Pasta para " +:+ sanitized_title)) ;;
         lift (raise_for_status response) ;;;
         folder_id <- lift (json_id response) ;;
         count_folder_created ;;;
         ret folder_id
     end)
    (fun e => Some (raise e)).

(** The [while True] loop of [get_posts_by_category].  The [try] block
    yields [Some data] when the page was read and [None] when the
    [except RequestException] clause breaks out of the loop. *)
Fixpoint get_posts_by_category_loop (fuel : nat) (category_id : Z)
    (posts : list Post) (page : Z) : M (list Post) :=
  let per_page := 100 in
  match fuel with
  | O => diverge
  | S fuel =>
      step <- try_except
                (response <- http (WpGetPostsByCategory category_id per_page page) ;;
                 lift (raise_for_status response) ;;;
                 data <- lift (json_posts response) ;;
                 ret (Some data))
                (fun e => if is_RequestException e then Some (ret None) else None) ;;
      match step with
      | None => ret posts
      | Some data =>
          let posts := posts ++ data in
          if Z.of_nat (length data) <? per_page then ret posts
          else get_posts_by_category_loop fuel category_id posts (page + 1)
      end
  end.

Definition get_posts_by_category (fuel : nat) (category_id : Z) : M (list Post) :=
  get_posts_by_category_loop fuel category_id [] 1.

(** The creation request with its checks; the source has this block
    twice, in the outer [try] and in the retry. *)
Definition post_subfolder (parent_folder_id : Z) (unique_name : string) : M Z :=
  response <- http (LrCreateSubfolder parent_folder_id unique_name
                      ("Subpasta para " +:+ unique_name)) ;;
  lift (raise_for_status response) ;;;
  folder_id <- lift (json_id response) ;;
  ret folder_id.

(** The body of the outer [try] of [create_or_get_subfolder]. *)
Definition subfolder_attempt (fuel : nat) (parent_folder_id : Z)
    (sanitized_title : string) : M Z :=
  response <- http (LrListSubfolders parent_folder_id) ;;
  lift (raise_for_status response) ;;;
  items <- lift (json_folder_items response) ;;
  let existing_names := folder_names items in
  unique_name <- lift (generate_unique_name fuel sanitized_title existing_names) ;;
  match find_folder unique_name items with
  | Some id => ret id
  | None => post_subfolder parent_folder_id unique_name
  end.

(** The body of the inner [try], inside [except HTTPError]: the listing
    is read without [raise_for_status]. *)
Definition subfolder_retry (fuel : nat) (parent_folder_id : Z)
    (sanitized_title : string) : M Z :=
  response <- http (LrListSubfolders parent_folder_id) ;;
  items <- lift (json_folder_items response) ;;
  unique_name <- lift (generate_unique_name fuel sanitized_title (folder_names items)) ;;
  post_subfolder parent_folder_id unique_name.

Definition create_or_get_subfolder (fuel : nat) (parent_folder_id : Z)
    (subfolder_name : string) : M Z :=
  let subfolder_name :=
    if decide (PyStr.strip subfolder_name = "") then "SEM TITULO"
    else subfolder_name in
  sanitized_title <- lift (sanitize_folder_title subfolder_name) ;;
  try_except
    (subfolder_attempt fuel parent_folder_id sanitized_title)
    (fun e =>
       if is_HTTPError e then
         Some (try_except
                 (subfolder_retry fuel parent_folder_id sanitized_title)
                 (fun _ => Some (ret parent_folder_id)))
       else Some (ret parent_folder_id)).

End CreateFolders.

(** ** create_news.py *)

(** The loop shared by [replace_image_urls] and [replace_internal_links]:
    every mapping entry is applied in file order as a literal substring
    replacement. *)
Definition replace_urls (content : string) (url_mapping : list UrlMapping) : string :=
  foldl (fun content mapping =>
           PyStr.replace (original_url mapping) (new_url mapping) content)
        content url_mapping.

Definition replace_image_urls := replace_urls.

Definition replace_internal_links := replace_urls.

(** The class [\w] of [re] on code points below 256. *)
Definition is_word_char (c : ascii) : bool :=
  let n := nat_of_ascii c in
  (((48 <=? n) && (n <=? 57)) || ((65 <=? n) && (n <=? 90)) || (n =? 95)
   || ((97 <=? n) && (n <=? 122)) || (n =? 170) || (n =? 178) || (n =? 179)
   || (n =? 181) || (n =? 185) || (n =? 186) || ((188 <=? n) && (n <=? 190))
   || ((192 <=? n) && (n <=? 214)) || ((216 <=? n) && (n <=? 246))
   || (248 <=? n))%nat.

Definition hyphen : ascii := "-"%char.

(** [re.sub(r"[^\w\s-]", "", s)] *)
Fixpoint drop_non_word (s : string) : string :=
  match s with
  | EmptyString => EmptyString
  | String c s' =>
      if is_word_char c || PyStr.isspace_char c || bool_decide (c = hyphen)
      then String c (drop_non_word s') else drop_non_word s'
  end.

(** [re.sub(r"\s+", "-", s)]; [in_run] tells that the previous character
    was white space, already replaced. *)
Fixpoint spaces_to_hyphen (in_run : bool) (s : string) : string :=
  match s with
  | EmptyString => EmptyString
  | String c s' =>
      if PyStr.isspace_char c
      then if in_run then spaces_to_hyphen true s'
           else String hyphen (spaces_to_hyphen true s')
      else String c (spaces_to_hyphen false s')
  end.

Fixpoint lstrip_hyphen (s : string) : string :=
  match s with
  | EmptyString => EmptyString
  | String c s' => if bool_decide (c = hyphen) then lstrip_hyphen s' else s
  end.

(** [s.strip("-")] *)
Definition strip_hyphen (s : string) : string :=
  String.rev (lstrip_hyphen (String.rev (lstrip_hyphen s))).

(** [if content_id:] is false for [None] and for [0]. *)
Definition truthy_id (content_id : option Z) : option Z :=
  match content_id with
  | Some id => if id =? 0 then None else Some id
  | None => None
  end.

Section CreateNews.

Context {env : Environment}.

Definition generate_friendly_url (title : string) : string :=
  let normalized_title := unidecode title in
  let friendly_url := drop_non_word normalized_title in
  let friendly_url := spaces_to_hyphen false friendly_url in
  let friendly_url := PyStr.lower friendly_url in
  strip_hyphen friendly_url.

Definition load_url_mapping : M (list UrlMapping) :=
  fun w => (Done (default [] (url_mapping_file w)), w).

Definition write_url_mapping (mapping : list UrlMapping) : M unit :=
  fun w =>
    (Done tt,
     {| server := server w; traffic := traffic w;
        url_mapping_file := Some mapping;
        category_mapping_file := category_mapping_file w;
        folders_created := folders_created w |}).

Definition save_new_url_mapping (original_url new_url : string) : M unit :=
  mapping <- load_url_mapping ;;
  let mapping :=
    mapping ++ [{| original_url := original_url; new_url := new_url |}] in
  write_url_mapping mapping.

(** A missing file is logged and read as the empty list. *)
Definition load_categories_mapping : M (list CategoryMapping) :=
  fun w => (Done (default [] (category_mapping_file w)), w).

(** The [while True] loop of [fetch_posts] for one category. *)
Fixpoint fetch_category_loop (fuel : nat) (category_id : Z)
    (posts : list Post) (page : Z) : M (list Post) :=
  let per_page := 100 in
  match fuel with
  | O => diverge
  | S fuel =>
      response <- http (WpGetPostsByCategory category_id per_page page) ;;
      if status_code response =? 200 then
        data <- lift (json_posts response) ;;
        let posts := posts ++ data in
        let total_pages := default 1 (total_pages_header response) in
        if total_pages <=? page then ret posts
        else fetch_category_loop fuel category_id posts (page + 1)
      else raise (GenericException "Erro ao acessar o JSON")
  end.

(** The [for category_id in wordpress_categories] loop. *)
Fixpoint fetch_categories (fuel : nat) (wordpress_categories : list Z)
    (posts : list Post) : M (list Post) :=
  match wordpress_categories with
  | [] => ret posts
  | category_id :: rest =>
      posts <- fetch_category_loop fuel category_id posts 1 ;;
      fetch_categories fuel rest posts
  end.

Definition fetch_posts (fuel : nat) (wordpress_categories : list Z)
  : M (list Post) :=
  let per_page := 100 in
  match wordpress_categories with
  | [] =>
      response <- http (WpGetPosts per_page) ;;
      if status_code response =? 200 then lift (json_posts response)
      else raise (GenericException "Erro ao acessar o JSON")
  | _ :: _ => fetch_categories fuel wordpress_categories []
  end.

Definition update_payload (updated_html : string) : list ContentField :=
  [ {| field_name := "TextoMateria"; field_data := updated_html |} ].

(** The response is only logged. *)
Definition update_content_in_liferay (content_id : Z) (updated_html : string)
  : M unit :=
  try_except
    (http (LrPatchContent content_id (update_payload updated_html)) ;;; ret tt)
    (fun e => if is_RequestException e then Some (ret tt) else None).

Definition get_content_id_by_friendly_url (friendly_url : string)
  : M (option Z) :=
  try_except
    (response <- http (LrSearchContent friendly_url) ;;
     if status_code response =? 200 then
       results <- lift (json_content_items response) ;;
       match results with
       | id :: _ => ret (Some id)
       | [] => ret None
       end
     else ret None)
    (fun e => if is_RequestException e then Some (ret None) else None).

Definition format_date_for_liferay (post_date : string) : outcome string :=
  match reformat_date post_date with
  | Done d => Done (d +:+ ".000Z")
  | Raised e => Raised e
  | Diverge => Diverge
  end.

Definition url_nao_encontrada : string :=
  "URL n" +:+ String "227"%char "o encontrada".

Definition url_antiga_nao_encontrada : string :=
  "URL antiga n" +:+ String "227"%char "o encontrada".

Definition process_post (post_data : Post) (url_mapping : list UrlMapping)
    (category_mapping : list CategoryMapping) : M unit :=
  let liferay_category_ids :=
    post_categories post_data ≫= (fun category =>
      liferay_id <$>
        List.filter (fun mapping => wordpress_id mapping =? category)
                    category_mapping) in
  let content_html := post_content post_data in
  let post_title := post_title post_data in
  let friendly_url := generate_friendly_url post_title in
  date_created_str <-
    match post_date_gmt post_data with
    | Some d => d' <- lift (format_date_for_liferay d) ;; ret (Some d')
    | None => ret None
    end ;;
  let content_html := replace_image_urls content_html url_mapping in
  let body_field :=
    {| field_name := "TextoMateria"; field_data := content_html |} in
  let excerpt_fields :=
    match post_excerpt post_data with
    | Some excerpt =>
        if decide (excerpt = "") then []
        else [ {| field_name := "Chamada"; field_data := excerpt |} ]
    | None => []
    end in
  let payload :=
    {| contentStructureId := content_structure_id;
       title := post_title;
       friendlyUrlPath := friendly_url;
       dateCreated := date_created_str;
       taxonomyCategoryIds := liferay_category_ids;
       contentFields := body_field :: excerpt_fields |} in
  try_except
    (response <- http (LrCreateContent payload) ;;
     if (status_code response =? 200) || (status_code response =? 201) then
       new_page_url <- lift (json_friendly_url_path url_nao_encontrada response) ;;
       let original_url :=
         default url_antiga_nao_encontrada (post_link post_data) in
       save_new_url_mapping original_url new_page_url
     else ret tt)
    (fun e => if is_RequestException e then Some (ret tt) else None).

Fixpoint for_each {A} (items : list A) (f : A -> M unit) : M unit :=
  match items with
  | [] => ret tt
  | x :: rest => f x ;;; for_each rest f
  end.

(** The body of the second [for post_data in posts_data] loop of [main]. *)
Definition relink_post (url_mapping : list UrlMapping) (post_data : Post)
  : M unit :=
  let post_title := post_title post_data in
  let friendly_url := generate_friendly_url post_title in
  content_id <- get_content_id_by_friendly_url friendly_url ;;
  match truthy_id content_id with
  | Some content_id =>
      let content_html := post_content post_data in
      let updated_html := replace_internal_links content_html url_mapping in
      if decide (updated_html ≠ content_html)
      then update_content_in_liferay content_id updated_html
      else ret tt
  | None => ret tt
  end.

(** [main]: every [Exception] is caught at the top and logged. *)
Definition main (fuel : nat) : M unit :=
  try_except
    (category_mapping <- load_categories_mapping ;;
     let wordpress_categories := wordpress_id <$> category_mapping in
     posts_data <- fetch_posts fuel wordpress_categories ;;
     url_mapping <- load_url_mapping ;;
     for_each posts_data
       (fun post_data => process_post post_data url_mapping category_mapping) ;;;
     url_mapping <- load_url_mapping ;;
     for_each posts_data (relink_post url_mapping))
    (fun _ => Some (ret tt)).

End CreateNews.

(** ** Environments used to exercise the scripts *)

(** A server without state: the reply is a function of the request.  The
    library parameters are the simplest ones, no theorem depends on them. *)
Definition scripted (answer : request -> reply) : Environment :=
  {| Server := unit;
     serve := fun req s => (answer req, s);
     unidecode := fun s => s;
     reformat_date := fun d => Done d;
     content_structure_id := "" |}.

(** The world at the start of a run against a stateless server. *)
Definition scripted_world (answer : request -> reply) : @world (scripted answer) :=
  @initial_world (scripted answer) tt.

Definition ok (b : body) : reply :=
  Reply {| status_code := 200; total_pages_header := None; resp_body := b |}.

Definition status (code : Z) : reply :=
  Reply {| status_code := code; total_pages_header := None; resp_body := JsonObject |}.

(** The WordPress REST API over a fixed list of posts: [page] selects a
    slice of [per_page] posts, the header [X-WP-TotalPages] tells
    the number of pages, and a page beyond the last one is answered with
    status 400 unless the collection is empty.  A request without [page]
    reads page 1. *)
Definition page_slice {A} (items : list A) (per_page page : Z) : list A :=
  take (Z.to_nat per_page) (drop (Z.to_nat ((page - 1) * per_page)) items).

Definition page_count (n per_page : Z) : Z := (n + per_page - 1) / per_page.

Definition wordpress_page (items : list Post) (per_page page : Z) : reply :=
  let total := page_count (Z.of_nat (length items)) per_page in
  if (page <? 1) || ((total <? page) && (0 <? Z.of_nat (length items)))
  then status 400
  else Reply {| status_code := 200; total_pages_header := Some total;
                resp_body := JsonPosts (page_slice items per_page page) |}.

Definition in_category (category_id : Z) (p : Post) : bool :=
  bool_decide (category_id ∈ post_categories p).

Definition wordpress (all_posts : list Post) : Environment :=
  scripted (fun req =>
    match req with
    | WpGetPosts per_page => wordpress_page all_posts per_page 1
    | WpGetPostsByCategory category_id per_page page =>
        wordpress_page (List.filter (in_category category_id) all_posts) per_page page
    | _ => status 404
    end).

(** Liferay's document folders: each folder has a parent (0 for the folders
    of the site), names are unique among siblings, a creation with a taken
    or empty name is refused with a 4xx status, and ids are handed out in
    increasing order.  Listings return all children. *)
Record liferay := {
  lr_folders : list (Z * Folder);
  lr_next_id : Z
}.

Definition lr_children (parent : Z) (s : liferay) : list Folder :=
  snd <$> List.filter (fun pf => fst pf =? parent) (lr_folders s).

Definition lr_create (parent : Z) (name : string) (s : liferay) : reply * liferay :=
  if decide (name = "") then (status 400, s)
  else if decide (name ∈ folder_name <$> lr_children parent s) then (status 409, s)
  else
    (ok (JsonFolder (lr_next_id s)),
     {| lr_folders :=
          lr_folders s ++ [(parent, {| folder_id := lr_next_id s; folder_name := name |})];
        lr_next_id := lr_next_id s + 1 |}).

Definition liferay_serve (req : request) (s : liferay) : reply * liferay :=
  match req with
  | LrListSiteFolders _ => (ok (JsonFolders (lr_children 0 s)), s)
  | LrCreateSiteFolder _ name _ => lr_create 0 name s
  | LrListSubfolders parent => (ok (JsonFolders (lr_children parent s)), s)
  | LrCreateSubfolder parent name _ => lr_create parent name s
  | _ => (status 404, s)
  end.

Definition liferay_env : Environment :=
  {| Server := liferay;
     serve := liferay_serve;
     unidecode := fun s => s;
     reformat_date := fun d => Done d;
     content_structure_id := "" |}.

(** ** The category pagination as the specification words it *)

Section AsSpecified.

Context {env : Environment}.

(** Page size 100; the loop ends when a page has fewer items than the
    page size (which includes the empty page). *)
Fixpoint get_all_categories_as_specified_loop (fuel : nat)
    (categories : list Category) (page : Z) : M (list Category) :=
  match fuel with
  | O => diverge
  | S fuel =>
      response <- http (WpGetCategories page 100) ;;
      if status_code response =? 200 then
        data <- lift (json_categories response) ;;
        let categories := categories ++ data in
        if Z.of_nat (length data) <? 100 then ret categories
        else get_all_categories_as_specified_loop fuel categories (page + 1)
      else ret categories
  end.

Definition get_all_categories_as_specified (fuel : nat) : M (list Category) :=
  get_all_categories_as_specified_loop fuel [] 1.

End AsSpecified.

(** What [load_url_mapping] reads from a world. *)
Definition persisted_urls {env : Environment} (w : world) : list UrlMapping :=
  default [] (url_mapping_file w).

(** The requests for the pages [first], [first + 1], ... ([n] of them). *)
Definition category_requests (first : Z) (n : nat) : list request :=
  (fun i => WpGetCategories (first + Z.of_nat i) 100) <$> seq 0 n.

(** ** Sample data *)

Definition sample_category (n : Z) : Category :=
  {| cat_id := n; cat_name := "categoria " +:+ pretty n |}.

(** A category endpoint with two pages of one item each; every later
    page is empty. *)
Definition two_short_pages (req : request) : reply :=
  match req with
  | WpGetCategories 1 _ => ok (JsonCategories [sample_category 1])
  | WpGetCategories 2 _ => ok (JsonCategories [sample_category 2])
  | WpGetCategories _ _ => ok (JsonCategories [])
  | _ => status 404
  end.

(** A request failure in the sense of [requests]: no response at all, or
    a 4xx/5xx status, on which [raise_for_status] raises. *)
Definition request_failed (rep : reply) : bool :=
  match rep with
  | NoReply => true
  | Reply r => (400 <=? status_code r) && (status_code r <? 600)
  end.

(** The requests for the pages [first], [first + 1], ... of a category. *)
Definition post_requests (category_id first : Z) (n : nat) : list request :=
  (fun i => WpGetPostsByCategory category_id 100 (first + Z.of_nat i)) <$> seq 0 n.

Definition sample_post (n : Z) : Post :=
  {| post_id := n;
     post_title := "Noticia";
     post_content := "<p>texto</p>";
     post_excerpt := None;
     post_categories := [7];
     post_date_gmt := None;
     post_link := Some "https://www2.tc.df.gov.br/noticia" |}.

(** [n] posts numbered from [first]. *)
Definition sample_posts (first : Z) (n : nat) : list Post :=
  (fun i => sample_post (first + Z.of_nat i)) <$> seq 0 n.

(** A posts endpoint whose pages have the sizes 100, 100 and 37. *)
Definition three_pages (req : request) : reply :=
  match req with
  | WpGetPostsByCategory _ _ 1 => ok (JsonPosts (sample_posts 0 100))
  | WpGetPostsByCategory _ _ 2 => ok (JsonPosts (sample_posts 100 100))
  | WpGetPostsByCategory _ _ 3 => ok (JsonPosts (sample_posts 200 37))
  | _ => status 400
  end.

(** The server answers page [page] of category [category_id] with status
    200 and the posts [items]. *)
Definition serves_page (answer : request -> reply) (category_id page : Z)
    (items : list Post) : Prop :=
  exists r, answer (WpGetPostsByCategory category_id 100 page) = Reply r /\
            status_code r = 200 /\ resp_body r = JsonPosts items.

(** The exchanges that a computation leading from [w] to [w'] added. *)
Definition new_traffic {env : Environment} (w w' : world) : list (request * reply) :=
  drop (length (traffic w)) (traffic w').

(** Every exchange got a response with status 200. *)
Definition all_200 (exchanges : list (request * reply)) : Prop :=
  Forall (fun x => exists r, snd x = Reply r /\ status_code r = 200) exchanges.

(** What [load_categories_mapping] reads from a world. *)
Definition persisted_categories {env : Environment} (w : world) : list CategoryMapping :=
  default [] (category_mapping_file w).

(** A posts endpoint that announces two pages, serves the first one with
    100 posts and answers the second with status 500. *)
Definition second_page_fails (req : request) : reply :=
  match req with
  | WpGetPostsByCategory _ _ 1 =>
      Reply {| status_code := 200; total_pages_header := Some 2;
               resp_body := JsonPosts (sample_posts 0 100) |}
  | WpGetPostsByCategory _ _ _ => status 500
  | _ => status 404
  end.

Definition sample_mapping : list CategoryMapping :=
  [ {| wordpress_id := 7; wordpress_name := "Noticias";
       liferay_id := 70; liferay_name := "Noticias" |} ].

(** The world at the start of a run with [category_mapping.json] holding
    [sample_mapping]. *)
Definition mapped_world (answer : request -> reply) : @world (scripted answer) :=
  @Build_world (scripted answer) tt [] None (Some sample_mapping) 0.

(** The world at the start of a run against the WordPress model. *)
Definition wordpress_world (all_posts : list Post) : @world (wordpress all_posts) :=
  @initial_world (wordpress all_posts) tt.

(** ** Liferay structured contents *)

(** A stored structured content.  A [PATCH] changes the members named in
    its payload and keeps the others; the entries of [contentFields] are
    merged by field name. *)
Record StructuredContent := {
  sc_id : Z;
  sc_title : string;
  sc_friendlyUrlPath : string;
  sc_dateCreated : option string;
  sc_taxonomyCategoryIds : list Z;
  sc_contentFields : list ContentField
}.

Definition merge_field (patch : list ContentField) (f : ContentField) : ContentField :=
  match List.find (fun p => bool_decide (field_name p = field_name f)) patch with
  | Some p => p
  | None => f
  end.

Definition merge_fields (patch fields : list ContentField) : list ContentField :=
  (merge_field patch <$> fields)
  ++ List.filter (fun p => bool_decide (field_name p ∉ field_name <$> fields)) patch.

Definition patch_content (content_id : Z) (patch : list ContentField)
    (c : StructuredContent) : StructuredContent :=
  if sc_id c =? content_id then
    {| sc_id := sc_id c; sc_title := sc_title c;
       sc_friendlyUrlPath := sc_friendlyUrlPath c;
       sc_dateCreated := sc_dateCreated c;
       sc_taxonomyCategoryIds := sc_taxonomyCategoryIds c;
       sc_contentFields := merge_fields patch (sc_contentFields c) |}
  else c.

Record cms := {
  cms_contents : list StructuredContent;
  cms_next_id : Z
}.

Definition cms_serve (req : request) (s : cms) : reply * cms :=
  match req with
  | LrSearchContent friendly_url =>
      (ok (JsonContents
             (sc_id <$> List.filter
                (fun c => bool_decide (sc_friendlyUrlPath c = friendly_url))
                (cms_contents s))), s)
  | LrPatchContent content_id fields =>
      if bool_decide (content_id ∈ sc_id <$> cms_contents s) then
        (ok JsonObject,
         {| cms_contents := patch_content content_id fields <$> cms_contents s;
            cms_next_id := cms_next_id s |})
      else (status 404, s)
  | LrCreateContent payload =>
      (Reply {| status_code := 201; total_pages_header := None;
                resp_body := JsonContent (Some (friendlyUrlPath payload)) |},
       {| cms_contents :=
            cms_contents s ++
            [ {| sc_id := cms_next_id s; sc_title := title payload;
                 sc_friendlyUrlPath := friendlyUrlPath payload;
                 sc_dateCreated := dateCreated payload;
                 sc_taxonomyCategoryIds := taxonomyCategoryIds payload;
                 sc_contentFields := contentFields payload |} ];
          cms_next_id := cms_next_id s + 1 |})
  | _ => (status 404, s)
  end.

Definition cms_env : Environment :=
  {| Server := cms;
     serve := cms_serve;
     unidecode := fun s => s;
     reformat_date := fun d => Done d;
     content_structure_id := "NOTICIA" |}.

(** What a structured content holds besides its [TextoMateria] field. *)
Definition outside_body (c : StructuredContent)
  : Z * string * string * option string * list Z * list ContentField :=
  (sc_id c, sc_title c, sc_friendlyUrlPath c, sc_dateCreated c,
   sc_taxonomyCategoryIds c,
   List.filter (fun f => negb (bool_decide (field_name f = "TextoMateria")))
               (sc_contentFields c)).

(** A stored content whose body links to an older post, the post it was
    created from, and the URL mapping that knows the older post. *)
Definition linking_post : Post :=
  {| post_id := 12;
     post_title := "Noticia 12";
     post_content := "<a href='https://www2.tc.df.gov.br/noticia-3'>ver</a>";
     post_excerpt := Some "resumo";
     post_categories := [7];
     post_date_gmt := None;
     post_link := Some "https://www2.tc.df.gov.br/noticia-12" |}.

Definition linking_mapping : list UrlMapping :=
  [ {| original_url := "https://www2.tc.df.gov.br/noticia-3";
       new_url := "/w/noticia-3" |} ].

Definition linking_store : cms :=
  {| cms_contents :=
       [ {| sc_id := 501; sc_title := "Noticia 12";
            sc_friendlyUrlPath := "noticia-12";
            sc_dateCreated := None;
            sc_taxonomyCategoryIds := [70];
            sc_contentFields :=
              [ {| field_name := "TextoMateria";
                   field_data := post_content linking_post |};
                {| field_name := "Chamada"; field_data := "resumo" |} ] |} ];
     cms_next_id := 502 |}.

Definition cms_world (s : cms) : @world cms_env := @initial_world cms_env s.

(** ** Subfolders *)

(** The name [generate_unique_name] tries after [k] collisions. *)
Definition candidate (base_name : string) (k : Z) : string :=
  base_name +:+ "_" +:+ pretty k.

(** The title [create_or_get_subfolder] works with: the post title, or
    [SEM TITULO] when the title is blank, sanitised. *)
Definition subfolder_title (subfolder_name : string) : string :=
  match sanitize_folder_title
          (if decide (PyStr.strip subfolder_name = "") then "SEM TITULO"
           else subfolder_name) with
  | Done t => t
  | _ => ""
  end.

(** The number of distinct folder names in a listing reply. *)
Definition listing_size (rep : reply) : nat :=
  match rep with
  | Reply r =>
      match resp_body r with
      | JsonFolders items => size (folder_names items)
      | _ => 0
      end
  | NoReply => 0
  end.

(** A folder service that lists no subfolder and refuses every creation
    with status 500. *)
Definition creation_refused (req : request) : reply :=
  match req with
  | LrListSubfolders _ => ok (JsonFolders [])
  | _ => status 500
  end.

(** The world at the start of a run against the folder model. *)
Definition liferay_world (s : liferay) : @world liferay_env :=
  @initial_world liferay_env s.

(** A site with the category folder 7 and no subfolder yet. *)
Definition one_category_folder : liferay :=
  {| lr_folders := [ (0, {| folder_id := 7; folder_name := "Noticias" |}) ];
     lr_next_id := 8 |}.

Definition empty_site : liferay := {| lr_folders := []; lr_next_id := 1 |}.

(** ** Further definitions *)

(** The URL [download_image] requests: a relative path is resolved against
    the source host. *)
Definition download_url (url : string) : string :=
  if PyStr.startswith "/" url then "https://www2.tc.df.gov.br" +:+ url else url.

(** [old] occurs in [s] as a substring. *)
Fixpoint occurs (old s : string) : bool :=
  PyStr.is_prefix old s
  || match s with
     | EmptyString => false
     | String _ s' => occurs old s'
     end.

(** The [..] cut of [sanitize_folder_title]. *)
Definition cut_trailing_dots (title : string) : string :=
  if PyStr.endswith ".." title
  then PyStr.take (String.length title - 2) title
  else title.

(** [lstrip_hyphen] on the list of characters. *)
Fixpoint drop_hyphens (l : list ascii) : list ascii :=
  match l with
  | [] => []
  | c :: l' => if bool_decide (c = hyphen) then drop_hyphens l' else l
  end.

(** The body is a JSON array, as the listings of categories and of posts
    are: [.get] on it raises [AttributeError]. *)
Definition is_json_array (b : body) : bool :=
  match b with
  | JsonCategories _ | JsonPosts _ => true
  | _ => false
  end.

(** The reply is a success of the creation request whose body is a JSON
    array. *)
Definition created_with_array (rep : reply) : bool :=
  match rep with
  | Reply r =>
      ((status_code r =? 200) || (status_code r =? 201))
      && is_json_array (resp_body r)
  | NoReply => false
  end.

(** The [friendlyUrlPath] that [process_post] records for a reply to its
    creation request: the reply must have status 200 or 201 and a JSON
    object as body; an object without the key gives the placeholder. *)
Definition created_path (rep : reply) : option string :=
  match rep with
  | Reply r =>
      if (status_code r =? 200) || (status_code r =? 201) then
        match json_friendly_url_path url_nao_encontrada r with
        | Done p => Some p
        | _ => None
        end
      else None
  | NoReply => None
  end.

(** A stand-in for [strptime] in the sample site: a stamp of 19 characters
    is accepted, anything else raises [ValueError]. *)
Definition strict_date (d : string) : outcome string :=
  if bool_decide (String.length d = 19%nat) then Done d
  else Raised (ValueError "time data does not match format").

(** A WordPress source and a Liferay content store behind one
    environment. *)
Definition site_env (all_posts : list Post) : Environment :=
  {| Server := cms;
     serve := fun req s =>
       match req with
       | WpGetPosts per_page => (wordpress_page all_posts per_page 1, s)
       | WpGetPostsByCategory category_id per_page page =>
           (wordpress_page (List.filter (in_category category_id) all_posts)
              per_page page, s)
       | _ => cms_serve req s
       end;
     unidecode := fun s => s;
     reformat_date := strict_date;
     content_structure_id := "NOTICIA" |}.

Definition dated_post (n : Z) (title : string) (date : string) : Post :=
  {| post_id := n;
     post_title := title;
     post_content := "<p>texto</p>";
     post_excerpt := None;
     post_categories := [7];
     post_date_gmt := Some date;
     post_link := Some ("https://www2.tc.df.gov.br/" +:+ title) |}.

(** Three posts, the second with a date that cannot be parsed. *)
Definition posts_with_bad_date : list Post :=
  [ dated_post 1 "primeira" "2024-05-01T10:00:00";
    dated_post 2 "segunda" "ontem";
    dated_post 3 "terceira" "2024-05-03T10:00:00" ].

Definition site_world (all_posts : list Post) : @world (site_env all_posts) :=
  @initial_world (site_env all_posts) {| cms_contents := []; cms_next_id := 1 |}.

(** The local state only grows from [w] to [w']: the entries of
    [url_mapping.json] are kept in place, [category_mapping.json] is the
    same, the recorded traffic is extended and the folder counter has not
    gone down. *)
Definition grows {env : Environment} (w w' : world) : Prop :=
  persisted_urls w `prefix_of` persisted_urls w' /\
  category_mapping_file w' = category_mapping_file w /\
  traffic w `prefix_of` traffic w' /\
  folders_created w <= folders_created w'.

(** A computation under which the local state only grows, whatever its
    outcome. *)
Definition growing {env : Environment} {A} (m : M A) : Prop :=
  forall w, grows w (snd (m w)).

(** The world after [count_folder_created]. *)
Definition counted {env : Environment} (w : world) : world :=
  snd (count_folder_created w).

(** The posts of a category, in the order of the source. *)
Definition category_posts (category_id : Z) (all_posts : list Post) : list Post :=
  List.filter (in_category category_id) all_posts.

(** A post that belongs to the categories 7 and 8. *)
Definition shared_post : Post :=
  {| post_id := 40;
     post_title := "Em duas categorias";
     post_content := "<p>texto</p>";
     post_excerpt := None;
     post_categories := [7; 8];
     post_date_gmt := None;
     post_link := Some "https://www2.tc.df.gov.br/em-duas-categorias" |}.

(** The WordPress categories endpoint over a fixed list of categories: a
    page is a slice of the list, and a page past the end is an empty list
    with status 200. *)
Definition wordpress_categories (all_categories : list Category) : Environment :=
  scripted (fun req =>
    match req with
    | WpGetCategories page per_page =>
        if page <? 1 then status 400
        else ok (JsonCategories (page_slice all_categories per_page page))
    | _ => status 404
    end).

(** ** get_categories_wordpress.py: the Liferay taxonomy *)

(** A taxonomy vocabulary and a taxonomy category of Liferay, as listed
    under [items]. *)
Record Vocabulary := { vocab_id : Z; vocab_name : string }.

Record TaxonomyCategory := { tc_id : Z; tc_name : string }.

#[global] Instance Vocabulary_eq_dec : EqDecision Vocabulary.
Proof. solve_decision. Defined.
#[global] Instance TaxonomyCategory_eq_dec : EqDecision TaxonomyCategory.
Proof. solve_decision. Defined.
#[global] Instance CategoryMapping_eq_dec : EqDecision CategoryMapping.
Proof. solve_decision. Defined.

(** The requests to [/o/headless-admin-taxonomy/v1.0], one constructor
    for each URL template and method of the script. *)
Inductive taxonomy_request : Type :=
| TxListVocabularies
| TxCreateVocabulary (name : string)
| TxListCategories (vocabulary_id page page_size : Z)
| TxCreateCategory (vocabulary_id : Z) (name : string).

#[global] Instance taxonomy_request_eq_dec : EqDecision taxonomy_request.
Proof. solve_decision. Defined.

(** The body of a reply.  [TxNotJson] is a body on which
    [response.json()] raises, [TxObject] a JSON object that has neither
    [items] nor [id]. *)
Inductive taxonomy_body : Type :=
| TxNotJson
| TxObject
| TxVocabularies (items : list Vocabulary)
| TxCategories (items : list TaxonomyCategory)
| TxCreated (id : Z).

Record taxonomy_response := {
  tx_status_code : Z;
  tx_body : taxonomy_body
}.

Inductive taxonomy_reply : Type :=
| TxNoReply
| TxReply (r : taxonomy_response).

(** [response.json()['items']] and [response.json()['id']]: a JSON object
    without the key raises [KeyError]. *)
Definition json_vocabularies (r : taxonomy_response) : outcome (list Vocabulary) :=
  match tx_body r with
  | TxVocabularies l => Done l
  | TxObject => Raised (KeyError "items")
  | _ => json_error
  end.

Definition json_taxonomy_categories (r : taxonomy_response)
    : outcome (list TaxonomyCategory) :=
  match tx_body r with
  | TxCategories l => Done l
  | TxObject => Raised (KeyError "items")
  | _ => json_error
  end.

Definition json_created_id (r : taxonomy_response) : outcome Z :=
  match tx_body r with
  | TxCreated id => Done id
  | TxObject => Raised (KeyError "id")
  | _ => json_error
  end.

(** The Liferay server of the taxonomy: one state, one transition per
    request. *)
Class TaxonomyServer := {
  TxState : Type;
  tx_serve : taxonomy_request -> TxState -> taxonomy_reply * TxState
}.

Definition taxonomy_vocabulary_name : string := "Categorias".

(** [name.strip().lower()], the key under which the script compares
    category names. *)
Definition normalized_name (name : string) : string :=
  PyStr.lower (PyStr.strip name).

(** The dictionary built at the end of [get_liferay_categories]: of two
    categories with the same key the later one stays. *)
Definition name_index (liferay_categories : list TaxonomyCategory) : gmap string Z :=
  foldl (fun index category =>
           <[normalized_name (tc_name category) := tc_id category]> index)
        ∅ liferay_categories.

(** The entry [map_and_create_categories] appends: both names are the
    name of the WordPress category. *)
Definition mapping_entry (wp_category : Category) (liferay_category_id : Z)
    : CategoryMapping :=
  {| wordpress_id := cat_id wp_category;
     wordpress_name := cat_name wp_category;
     liferay_id := liferay_category_id;
     liferay_name := cat_name wp_category |}.

Section Taxonomy.

Context {env : Environment} {tx : TaxonomyServer}.

(** The state of a run of the script: the state of the WordPress side and
    of the files (shared with the other scripts), the taxonomy server,
    the exchanges with it (oldest first) and the seconds spent in
    [time.sleep]. *)
Record script_world := {
  wordpress_side : world;
  taxonomy : TxState;
  taxonomy_traffic : list (taxonomy_request * taxonomy_reply);
  slept : Z
}.

Definition T (A : Type) : Type := script_world -> outcome A * script_world.

Definition tx_ret {A} (a : A) : T A := fun w => (Done a, w).

Definition tx_bind {A B} (m : T A) (k : A -> T B) : T B :=
  fun w =>
    match m w with
    | (Done a, w') => k a w'
    | (Raised e, w') => (Raised e, w')
    | (Diverge, w') => (Diverge, w')
    end.

Definition tx_diverge {A} : T A := fun w => (Diverge, w).

Definition tx_lift {A} (o : outcome A) : T A := fun w => (o, w).

(** A computation of the WordPress side, run inside the script. *)
Definition on_wordpress_side {A} (m : M A) : T A :=
  fun w =>
    let '(o, ws) := m (wordpress_side w) in
    (o, {| wordpress_side := ws; taxonomy := taxonomy w;
           taxonomy_traffic := taxonomy_traffic w; slept := slept w |}).

(** The world after an exchange with the taxonomy server. *)
Definition tx_log_exchange (req : taxonomy_request) (rep : taxonomy_reply)
    (s' : TxState) (w : script_world) : script_world :=
  {| wordpress_side := wordpress_side w; taxonomy := s';
     taxonomy_traffic := taxonomy_traffic w ++ [(req, rep)];
     slept := slept w |}.

(** One exchange with the taxonomy server, the common part of
    [requests.get] and [requests.post]. *)
Definition tx_http (req : taxonomy_request) : T taxonomy_response :=
  fun w =>
    let '(rep, s') := tx_serve req (taxonomy w) in
    let w' := tx_log_exchange req rep s' w in
    match rep with
    | TxNoReply => (Raised ConnectionError, w')
    | TxReply r => (Done r, w')
    end.

(** [time.sleep(seconds)] *)
Definition sleep (seconds : Z) : T unit :=
  fun w =>
    (Done tt,
     {| wordpress_side := wordpress_side w; taxonomy := taxonomy w;
        taxonomy_traffic := taxonomy_traffic w; slept := slept w + seconds |}).

Definition taxonomy_requests (w : script_world) : list taxonomy_request :=
  fst <$> taxonomy_traffic w.

End Taxonomy.

Declare Scope tx_scope.
Delimit Scope tx_scope with tx.
Notation "x <- m ;; k" := (tx_bind m (fun x => k))
  (at level 100, m at next level, right associativity) : tx_scope.
Notation "m ;;; k" := (tx_bind m (fun _ => k))
  (at level 100, right associativity) : tx_scope.

Section TaxonomyScript.

Context {env : Environment} {tx : TaxonomyServer}.

Local Open Scope tx_scope.

Definition create_taxonomy_vocabulary : T (option Z) :=
  response <- tx_http (TxCreateVocabulary taxonomy_vocabulary_name) ;;
  if tx_status_code response =? 200 then
    id <- tx_lift (json_created_id response) ;;
    tx_ret (Some id)
  else tx_ret None.

(** The [for vocab in vocabularies] loop returns the id of the first
    vocabulary with the name. *)
Definition find_vocabulary (vocabularies : list Vocabulary) : option Vocabulary :=
  List.find (fun vocab => bool_decide (vocab_name vocab = taxonomy_vocabulary_name))
            vocabularies.

Definition get_taxonomy_vocabulary : T (option Z) :=
  response <- tx_http TxListVocabularies ;;
  if tx_status_code response =? 200 then
    vocabularies <- tx_lift (json_vocabularies response) ;;
    match find_vocabulary vocabularies with
    | Some vocab => tx_ret (Some (vocab_id vocab))
    | None => create_taxonomy_vocabulary
    end
  else tx_ret None.

(** The [while True] loop of [get_liferay_categories]. *)
Fixpoint get_liferay_categories_loop (fuel : nat) (vocabulary_id : Z)
    (liferay_categories : list TaxonomyCategory) (page : Z)
    : T (list TaxonomyCategory) :=
  match fuel with
  | O => tx_diverge
  | S fuel =>
      response <- tx_http (TxListCategories vocabulary_id page 100) ;;
      if tx_status_code response =? 200 then
        data <- tx_lift (json_taxonomy_categories response) ;;
        let liferay_categories := liferay_categories ++ data in
        if Z.of_nat (length data) =? 0 then tx_ret liferay_categories
        else get_liferay_categories_loop fuel vocabulary_id liferay_categories (page + 1)
      else tx_ret liferay_categories
  end.

Definition get_liferay_categories (fuel : nat) (vocabulary_id : Z)
    : T (gmap string Z) :=
  liferay_categories <- get_liferay_categories_loop fuel vocabulary_id [] 1 ;;
  tx_ret (name_index liferay_categories).

Definition create_liferay_category (vocabulary_id : Z) (name : string)
    : T (option Z) :=
  response <- tx_http (TxCreateCategory vocabulary_id name) ;;
  if tx_status_code response =? 201 then
    id <- tx_lift (json_created_id response) ;;
    tx_ret (Some id)
  else tx_ret None.

(** The [for wp_category in wp_categories] loop of
    [map_and_create_categories]; [liferay_categories] is the dictionary
    read before the loop, which the loop does not update. *)
Fixpoint map_categories_loop (liferay_categories : gmap string Z)
    (vocabulary_id : Z) (wp_categories : list Category)
    (category_mapping : list CategoryMapping) : T (list CategoryMapping) :=
  match wp_categories with
  | [] => tx_ret category_mapping
  | wp_category :: wp_categories =>
      let wp_name := normalized_name (cat_name wp_category) in
      match liferay_categories !! wp_name with
      | Some existing_id =>
          map_categories_loop liferay_categories vocabulary_id wp_categories
            (category_mapping ++ [mapping_entry wp_category existing_id])
      | None =>
          liferay_category_id <-
            create_liferay_category vocabulary_id (cat_name wp_category) ;;
          match truthy_id liferay_category_id with
          | Some new_id =>
              map_categories_loop liferay_categories vocabulary_id wp_categories
                (category_mapping ++ [mapping_entry wp_category new_id])
          | None =>
              map_categories_loop liferay_categories vocabulary_id wp_categories
                category_mapping
          end
      end
  end.

Definition map_and_create_categories (fuel : nat) (wp_categories : list Category)
    (vocabulary_id : Z) : T (list CategoryMapping) :=
  liferay_categories <- get_liferay_categories fuel vocabulary_id ;;
  map_categories_loop liferay_categories vocabulary_id wp_categories [].

(** [save_mapping_to_json] with its default file name, the file
    [create_news.py] and [create_folders.py] read. *)
Definition save_mapping_to_json (mapping : list CategoryMapping) : T unit :=
  on_wordpress_side (fun w =>
    (Done tt,
     {| server := server w; traffic := traffic w;
        url_mapping_file := url_mapping_file w;
        category_mapping_file := Some mapping;
        folders_created := folders_created w |})).

(** The statements of the module after the definitions (lines 162-183). *)
Definition get_categories_wordpress (fuel : nat) : T unit :=
  wordpress_categories <- on_wordpress_side (get_all_categories fuel) ;;
  vocabulary_id <- get_taxonomy_vocabulary ;;
  match truthy_id vocabulary_id with
  | Some _ =>
      sleep 5 ;;;
      vocabulary_id <- get_taxonomy_vocabulary ;;
      match truthy_id vocabulary_id with
      | Some vocabulary_id =>
          category_mapping <-
            map_and_create_categories fuel wordpress_categories vocabulary_id ;;
          save_mapping_to_json category_mapping
      | None => tx_ret tt
      end
  | None => tx_ret tt
  end.

End TaxonomyScript.

(** ** A taxonomy server to exercise the script *)

(** Liferay's taxonomy: vocabularies and the categories of each, with ids
    handed out in increasing order.  A vocabulary is created with status
    200 and a category with status 201, the codes the script waits for;
    a category listing is cut in pages of [page_size], and a page past the
    end is an empty list. *)
Record taxonomy_site := {
  site_vocabularies : list Vocabulary;
  site_categories : list (Z * TaxonomyCategory);
  site_next_id : Z
}.

Definition categories_of (vocabulary_id : Z) (s : taxonomy_site)
    : list TaxonomyCategory :=
  snd <$> List.filter (fun vc => fst vc =? vocabulary_id) (site_categories s).

Definition tx_ok (b : taxonomy_body) : taxonomy_reply :=
  TxReply {| tx_status_code := 200; tx_body := b |}.

Definition tx_status (code : Z) : taxonomy_reply :=
  TxReply {| tx_status_code := code; tx_body := TxObject |}.

Definition taxonomy_site_serve (req : taxonomy_request) (s : taxonomy_site)
    : taxonomy_reply * taxonomy_site :=
  match req with
  | TxListVocabularies => (tx_ok (TxVocabularies (site_vocabularies s)), s)
  | TxCreateVocabulary name =>
      (tx_ok (TxCreated (site_next_id s)),
       {| site_vocabularies :=
            site_vocabularies s ++ [{| vocab_id := site_next_id s; vocab_name := name |}];
          site_categories := site_categories s;
          site_next_id := site_next_id s + 1 |})
  | TxListCategories vocabulary_id page page_size =>
      if page <? 1 then (tx_status 400, s)
      else (tx_ok (TxCategories (page_slice (categories_of vocabulary_id s) page_size page)), s)
  | TxCreateCategory vocabulary_id name =>
      (TxReply {| tx_status_code := 201; tx_body := TxCreated (site_next_id s) |},
       {| site_vocabularies := site_vocabularies s;
          site_categories :=
            site_categories s
            ++ [(vocabulary_id, {| tc_id := site_next_id s; tc_name := name |})];
          site_next_id := site_next_id s + 1 |})
  end.

Definition taxonomy_site_server : TaxonomyServer :=
  {| TxState := taxonomy_site; tx_serve := taxonomy_site_serve |}.

(** The start of a run of the script: WordPress with the categories
    [all_categories], the taxonomy in state [s], no file. *)
Definition script_start (all_categories : list Category) (s : taxonomy_site)
    : @script_world (wordpress_categories all_categories) taxonomy_site_server :=
  @Build_script_world (wordpress_categories all_categories) taxonomy_site_server
    (@initial_world (wordpress_categories all_categories) tt) s [] 0.

(** The creation requests among the exchanges of a run. *)
Definition is_category_creation (req : taxonomy_request) : bool :=
  match req with TxCreateCategory _ _ => true | _ => false end.

Definition is_vocabulary_creation (req : taxonomy_request) : bool :=
  match req with TxCreateVocabulary _ => true | _ => false end.

(** The WordPress category is not yet in the dictionary. *)
Definition absent_from (liferay_categories : gmap string Z) (wp_category : Category)
    : bool :=
  bool_decide (liferay_categories !! normalized_name (cat_name wp_category) = None).

Definition creation_request (vocabulary_id : Z) (wp_category : Category)
    : taxonomy_request :=
  TxCreateCategory vocabulary_id (cat_name wp_category).

(** A taxonomy with the vocabulary and one category, and three WordPress
    categories: the first is the category of the taxonomy up to case and
    blanks, the other two differ from each other in case only. *)
Definition sample_taxonomy : taxonomy_site :=
  {| site_vocabularies := [{| vocab_id := 1; vocab_name := "Categorias" |}];
     site_categories := [(1, {| tc_id := 2; tc_name := " Noticias" |})];
     site_next_id := 3 |}.

Definition sample_wp_categories : list Category :=
  [ {| cat_id := 7; cat_name := "noticias " |};
    {| cat_id := 8; cat_name := "Eventos" |};
    {| cat_id := 9; cat_name := "eventos" |} ].

Definition sample_index : gmap string Z := {[ "noticias" := 2 ]}.

Definition sample_category_mapping : list CategoryMapping :=
  [ {| wordpress_id := 7; wordpress_name := "noticias ";
       liferay_id := 2; liferay_name := "noticias " |};
    {| wordpress_id := 8; wordpress_name := "Eventos";
       liferay_id := 3; liferay_name := "Eventos" |};
    {| wordpress_id := 9; wordpress_name := "eventos";
       liferay_id := 4; liferay_name := "eventos" |} ].

(** The taxonomy after the creation of the categories [names] in the
    vocabulary [vocabulary_id], one request each. *)
Definition add_categories (vocabulary_id : Z) (names : list string)
    (s : taxonomy_site) : taxonomy_site :=
  foldl (fun s name => snd (taxonomy_site_serve (TxCreateCategory vocabulary_id name) s))
        s names.

(** The mapping of the categories [wp_categories] when every absent one
    is created with the next free id, starting from [next]. *)
Fixpoint assigned (liferay_categories : gmap string Z) (next : Z)
    (wp_categories : list Category) : list CategoryMapping :=
  match wp_categories with
  | [] => []
  | wp_category :: wp_categories =>
      match liferay_categories !! normalized_name (cat_name wp_category) with
      | Some id =>
          mapping_entry wp_category id
          :: assigned liferay_categories next wp_categories
      | None =>
          mapping_entry wp_category next
          :: assigned liferay_categories (next + 1) wp_categories
      end
  end.

(** The categories the model creates for [names], from the id [next] on. *)
Fixpoint new_categories (next : Z) (names : list string) : list TaxonomyCategory :=
  match names with
  | [] => []
  | name :: names =>
      {| tc_id := next; tc_name := name |} :: new_categories (next + 1) names
  end.

(** A taxonomy server without state: the reply is a function of the
    request. *)
Definition scripted_taxonomy (answer : taxonomy_request -> taxonomy_reply)
    : TaxonomyServer :=
  {| TxState := unit; tx_serve := fun req s => (answer req, s) |}.

(** A server that has no vocabulary and answers a creation with
    [201 Created]. *)
Definition answers_created (req : taxonomy_request) : taxonomy_reply :=
  match req with
  | TxListVocabularies => tx_ok (TxVocabularies [])
  | TxCreateVocabulary _ =>
      TxReply {| tx_status_code := 201; tx_body := TxCreated 5 |}
  | _ => tx_status 404
  end.

Definition answers_created_start
    : @script_world (wordpress_categories []) (scripted_taxonomy answers_created) :=
  @Build_script_world (wordpress_categories []) (scripted_taxonomy answers_created)
    (@initial_world (wordpress_categories []) tt) tt [] 0.

(** ** create_folders.py: the images of a post *)

(** [s[n:]] *)
Fixpoint drop_chars (n : nat) (s : string) : string :=
  match n, s with
  | S n', String _ s' => drop_chars n' s'
  | _, _ => s
  end.

(** The length of the longest prefix of [s] without the character
    [stop], the stretch a greedy [[^stop]+] takes first. *)
Fixpoint span_length (stop : ascii) (s : string) : nat :=
  match s with
  | EmptyString => 0
  | String c s' => if decide (c = stop) then 0 else S (span_length stop s')
  end.

(** The five characters [s r c = quote]. *)
Definition src_attribute : string := "src=" +:+ String PyStr.quote "".

(** The pattern of [extract_image_urls] after [<img], once [[^>]+] has
    taken [k] characters of [t]: the literal [src=] with its quote, then
    [[^quote]+], which takes all the characters up to the next quote and
    cannot give any back (the closing quote must follow it), so the value
    has to be non-empty and closed.  The result is the group and the
    number of characters of [t] the match covers. *)
Definition match_src (k : nat) (t : string) : option (string * nat) :=
  let rest := drop_chars k t in
  if PyStr.is_prefix src_attribute rest then
    let value := drop_chars 5 rest in
    let n := span_length PyStr.quote value in
    if (0 <? n)%nat && (n <? String.length value)%nat
    then Some (PyStr.take n value, (k + 5 + n + 1)%nat)
    else None
  else None.

(** The backtracking of the greedy [[^>]+]: [k] characters are tried
    first, then one less, down to one. *)
Fixpoint match_tag (k : nat) (t : string) : option (string * nat) :=
  match k with
  | O => None
  | S k' =>
      match match_src k t with
      | Some found => Some found
      | None => match_tag k' t
      end
  end.

(** A match of the whole pattern at the start of [s]: the group and the
    length of the match. *)
Definition match_img (s : string) : option (string * nat) :=
  if PyStr.is_prefix "<img" s then
    let t := drop_chars 4 s in
    match match_tag (span_length ">" t) t with
    | Some (url, len) => Some (url, (4 + len)%nat)
    | None => None
    end
  else None.

(** [re.findall] with one group: the groups of the non-overlapping
    matches, found from left to right.  [skip] counts the characters of
    the last match that are still to be passed over. *)
Fixpoint findall_img (skip : nat) (s : string) : list string :=
  match s with
  | EmptyString => []
  | String _ s' =>
      match skip with
      | S k => findall_img k s'
      | O =>
          match match_img s with
          | Some (url, len) => url :: findall_img (len - 1) s'
          | None => findall_img 0 s'
          end
      end
  end.

Definition extract_image_urls (content : string) : list string :=
  findall_img 0 content.

(** [<img src=...>] with the URL between double quotes. *)
Definition img_tag (url : string) : string :=
  "<img src=" +:+ String PyStr.quote url +:+ String PyStr.quote ">".

(** [os.path.basename]: what follows the last slash. *)
Fixpoint basename (path : string) : string :=
  match path with
  | EmptyString => EmptyString
  | String c rest =>
      if PyStr.contains_char "/" rest then basename rest
      else if decide (c = "/"%char) then rest else path
  end.

(** [os.path.join] of two components. *)
Definition path_join (a b : string) : string :=
  if PyStr.startswith "/" b then b
  else if decide (a = "") then b
  else if PyStr.endswith "/" a then a +:+ b
  else a +:+ "/" +:+ b.

(** A document of a Liferay folder, as listed under [items]. *)
Record Document := { doc_title : string; doc_content_url : string }.

(** The requests of the image migrator besides those about folders: the
    download of an image, the listing of the documents of a folder and
    the upload of a file. *)
Inductive media_request : Type :=
| ImageGet (url : string)
| LrListDocuments (folder_id : Z)
| LrUploadDocument (folder_id : Z) (image_name : string) (data : list Byte.byte).

(** What [response.json()] gives: [MdNotJson] raises, [MdArray] is a
    JSON array, [MdObject] a JSON object that has neither [items] nor
    [contentUrl], [MdDocuments] an object with [items] and [MdDocument]
    one with [contentUrl]. *)
Inductive media_json : Type :=
| MdNotJson
| MdArray
| MdObject
| MdDocuments (items : list Document)
| MdDocument (content_url : string).

(** A response: the status, the bytes of the body with [md_complete]
    telling whether a streamed body arrives whole, and the body as JSON. *)
Record media_response := {
  md_status_code : Z;
  md_content : list Byte.byte;
  md_complete : bool;
  md_json : media_json
}.

Inductive media_reply : Type :=
| MdNoReply
| MdReply (r : media_response).

Definition md_raise_for_status (r : media_response) : outcome unit :=
  if (400 <=? md_status_code r) && (md_status_code r <? 600)
  then Raised (HTTPError (md_status_code r)) else Done tt.

(** [response.json()["items"]] and [response.json()["contentUrl"]]: an
    object without the key raises [KeyError], an array [TypeError]. *)
Definition json_documents (r : media_response) : outcome (list Document) :=
  match md_json r with
  | MdNotJson => json_error
  | MdArray => Raised TypeError
  | MdDocuments l => Done l
  | MdObject | MdDocument _ => Raised (KeyError "items")
  end.

Definition json_content_url (r : media_response) : outcome string :=
  match md_json r with
  | MdNotJson => json_error
  | MdArray => Raised TypeError
  | MdDocument url => Done url
  | MdObject | MdDocuments _ => Raised (KeyError "contentUrl")
  end.

(** What the image migrator takes from outside besides the environment
    of the folders: two configuration values, the answers of the servers
    to the further requests (on the same server state) and the local
    disk.  [disk_write] is [open(path, "wb")] with the writes that follow,
    [disk_read] is [open(path, "rb")] with the read of the file,
    [disk_remove] is [os.remove]; each may fail with an exception. *)
Class ImageEnvironment {env : Environment} := {
  TEMP_FOLDER : string;
  LIFERAY_SITE_ID : string;
  media_serve : media_request -> Server -> media_reply * Server;
  Disk : Type;
  disk_write : string -> list Byte.byte -> Disk -> option exn * Disk;
  disk_read : string -> Disk -> exn + list Byte.byte;
  disk_remove : string -> Disk -> option exn * Disk
}.

Section ImageMonad.

Context {env : Environment} {img : ImageEnvironment}.

(** The state of a run of the image migrator: the state of the folder
    functions, the disk, the exchanges about images and documents (oldest
    first) and the global counter [images_uploaded]. *)
Record image_world := {
  folders_side : world;
  disk : Disk;
  media_traffic : list (media_request * media_reply);
  images_uploaded : Z
}.

Definition I (A : Type) : Type := image_world -> outcome A * image_world.

Definition img_ret {A} (a : A) : I A := fun w => (Done a, w).

Definition img_bind {A B} (m : I A) (k : A -> I B) : I B :=
  fun w =>
    match m w with
    | (Done a, w') => k a w'
    | (Raised e, w') => (Raised e, w')
    | (Diverge, w') => (Diverge, w')
    end.

Definition img_raise {A} (e : exn) : I A := fun w => (Raised e, w).

Definition img_lift {A} (o : outcome A) : I A := fun w => (o, w).

Definition img_try_except {A} (body : I A) (handler : exn -> option (I A)) : I A :=
  fun w =>
    match body w with
    | (Raised e, w') =>
        match handler e with
        | Some h => h w'
        | None => (Raised e, w')
        end
    | r => r
    end.

(** A computation of the folder functions, run inside the migrator. *)
Definition on_folders_side {A} (m : M A) : I A :=
  fun w =>
    let '(o, ws) := m (folders_side w) in
    (o, {| folders_side := ws; disk := disk w;
           media_traffic := media_traffic w;
           images_uploaded := images_uploaded w |}).

(** The world after an exchange about an image or a document. *)
Definition media_log_exchange (req : media_request) (rep : media_reply)
    (s' : Server) (w : image_world) : image_world :=
  {| folders_side :=
       {| server := s'; traffic := traffic (folders_side w);
          url_mapping_file := url_mapping_file (folders_side w);
          category_mapping_file := category_mapping_file (folders_side w);
          folders_created := folders_created (folders_side w) |};
     disk := disk w;
     media_traffic := media_traffic w ++ [(req, rep)];
     images_uploaded := images_uploaded w |}.

Definition media_http (req : media_request) : I media_response :=
  fun w =>
    let '(rep, s') := media_serve req (server (folders_side w)) in
    let w' := media_log_exchange req rep s' w in
    match rep with
    | MdNoReply => (Raised ConnectionError, w')
    | MdReply r => (Done r, w')
    end.

Definition with_disk (d : Disk) (w : image_world) : image_world :=
  {| folders_side := folders_side w; disk := d;
     media_traffic := media_traffic w;
     images_uploaded := images_uploaded w |}.

Definition write_file (path : string) (data : list Byte.byte) : I unit :=
  fun w =>
    let '(failure, d) := disk_write path data (disk w) in
    (match failure with Some e => Raised e | None => Done tt end, with_disk d w).

Definition read_file (path : string) : I (list Byte.byte) :=
  fun w =>
    (match disk_read path (disk w) with inl e => Raised e | inr data => Done data end,
     w).

Definition remove_file (path : string) : I unit :=
  fun w =>
    let '(failure, d) := disk_remove path (disk w) in
    (match failure with Some e => Raised e | None => Done tt end, with_disk d w).

Definition count_image_uploaded : I unit :=
  fun w =>
    (Done tt,
     {| folders_side := folders_side w; disk := disk w;
        media_traffic := media_traffic w;
        images_uploaded := images_uploaded w + 1 |}).

Definition media_requests (w : image_world) : list media_request :=
  fst <$> media_traffic w.

End ImageMonad.

Declare Scope img_scope.
Delimit Scope img_scope with img.
Notation "x <- m ;; k" := (img_bind m (fun x => k))
  (at level 100, m at next level, right associativity) : img_scope.
Notation "m ;;; k" := (img_bind m (fun _ => k))
  (at level 100, right associativity) : img_scope.

Section ImageMigrator.

Context {env : Environment} {img : ImageEnvironment}.

Local Open Scope img_scope.

(** [load_category_mapping] of [create_folders.py]: a failure to read
    the file is logged and raised again. *)
Definition load_category_mapping : I (list CategoryMapping) :=
  fun w =>
    match category_mapping_file (folders_side w) with
    | Some category_mapping => (Done category_mapping, w)
    | None => (Raised (GenericException "FileNotFoundError"), w)
    end.

(** The [except RequestException] clauses of the three functions below
    log the error and raise it again. *)
Definition log_and_raise {A} (e : exn) : option (I A) :=
  if is_RequestException e then Some (img_raise e) else None.

Definition check_if_image_exists_in_folder (folder_id : Z) (image_name : string)
    : I (option string) :=
  img_try_except
    (response <- media_http (LrListDocuments folder_id) ;;
     img_lift (md_raise_for_status response) ;;;
     items <- img_lift (json_documents response) ;;
     img_ret (doc_content_url
                <$> List.find (fun document => bool_decide (doc_title document = image_name))
                      items))
    log_and_raise.

(** [if existing_image_url:] is false for [None] and for the empty
    string. *)
Definition truthy_url (url : option string) : option string :=
  match url with
  | Some u => if decide (u = "") then None else Some u
  | None => None
  end.

Definition upload_image_to_liferay (folder_id : Z) (image_path : string)
    : I string :=
  let image_name := basename image_path in
  existing_image_url <- check_if_image_exists_in_folder folder_id image_name ;;
  match truthy_url existing_image_url with
  | Some existing_image_url =>
      count_image_uploaded ;;;
      img_ret existing_image_url
  | None =>
      image_file <- read_file image_path ;;
      img_try_except
        (response <- media_http (LrUploadDocument folder_id image_name image_file) ;;
         img_lift (md_raise_for_status response) ;;;
         new_url <- img_lift (json_content_url response) ;;
         count_image_uploaded ;;;
         img_ret new_url)
        log_and_raise
  end.

(** The body is streamed into the file: the bytes that arrive are
    written, and a body that breaks off raises after them. *)
Definition download_image (url save_path : string) : I unit :=
  img_try_except
    (let url := download_url url in
     response <- media_http (ImageGet url) ;;
     img_lift (md_raise_for_status response) ;;;
     write_file save_path (md_content response) ;;;
     if md_complete response then img_ret tt else img_raise ConnectionError)
    log_and_raise.

(** The body of [for image_url in valid_image_urls]: whatever is raised
    is logged, and the loop goes on. *)
Definition process_image (subfolder_id : Z) (image_url : string) : I unit :=
  img_try_except
    (let image_name := basename image_url in
     let image_path := path_join TEMP_FOLDER image_name in
     download_image image_url image_path ;;;
     upload_image_to_liferay subfolder_id image_path ;;;
     remove_file image_path)
    (fun _ => Some (img_ret tt)).

Fixpoint process_images (subfolder_id : Z) (valid_image_urls : list string)
    : I unit :=
  match valid_image_urls with
  | [] => img_ret tt
  | image_url :: valid_image_urls =>
      process_image subfolder_id image_url ;;;
      process_images subfolder_id valid_image_urls
  end.

(** The [for post in posts] loop of [process_posts];
    [processed_post_ids] is carried through it.  The date of the post is
    read and not used. *)
Fixpoint process_category_posts (fuel : nat) (liferay_category_name : string)
    (posts : list Post) (processed_post_ids : gset Z) : I (gset Z) :=
  match posts with
  | [] => img_ret processed_post_ids
  | post :: posts =>
      if decide (post_id post ∈ processed_post_ids) then
        process_category_posts fuel liferay_category_name posts processed_post_ids
      else
        let processed_post_ids := processed_post_ids ∪ {[post_id post]} in
        let image_urls := extract_image_urls (post_content post) in
        let valid_image_urls := filter_valid_image_urls image_urls in
        match valid_image_urls with
        | [] =>
            process_category_posts fuel liferay_category_name posts processed_post_ids
        | _ :: _ =>
            folder_id <- on_folders_side
                           (create_or_get_folder_in_liferay liferay_category_name
                              LIFERAY_SITE_ID) ;;
            subfolder_id <- on_folders_side
                              (create_or_get_subfolder fuel folder_id (post_title post)) ;;
            process_images subfolder_id valid_image_urls ;;;
            process_category_posts fuel liferay_category_name posts processed_post_ids
        end
  end.

(** The [for category_map in category_mapping] loop. *)
Fixpoint process_categories (fuel : nat) (category_mapping : list CategoryMapping)
    (processed_post_ids : gset Z) : I unit :=
  match category_mapping with
  | [] => img_ret tt
  | category_map :: category_mapping =>
      posts <- on_folders_side
                 (get_posts_by_category fuel (wordpress_id category_map)) ;;
      processed_post_ids <-
        process_category_posts fuel (liferay_name category_map) posts
          processed_post_ids ;;
      process_categories fuel category_mapping processed_post_ids
  end.

Definition process_posts (fuel : nat) : I unit :=
  category_mapping <- load_category_mapping ;;
  process_categories fuel category_mapping ∅.

End ImageMigrator.

(** ** main.py *)

Module main_py.

Section Orchestrator.

Context {env : Environment} {img : ImageEnvironment}.

Local Open Scope img_scope.

(** The two stages: when the first one raises, the error is printed and
    [main] returns; the second is [main] of [create_news.py]. *)
Definition main (fuel : nat) : I unit :=
  images_migrated <-
    img_try_except
      (process_posts fuel ;;; img_ret true)
      (fun _ => Some (img_ret false)) ;;
  if images_migrated : bool then
    img_try_except
      (on_folders_side (main fuel))
      (fun _ => Some (img_ret tt))
  else img_ret tt.

End Orchestrator.

End main_py.

(** ** Environments used to exercise the image migrator *)

(** A post from which no image is migrated. *)
Definition no_valid_image (post : Post) : bool :=
  match filter_valid_image_urls (extract_image_urls (post_content post)) with
  | [] => true
  | _ :: _ => false
  end.

(** Every page of posts the servers send is without images to migrate. *)
Definition imageless (env : Environment) : Prop :=
  forall req s r s' posts,
    serve req s = (Reply r, s') ->
    resp_body r = JsonPosts posts ->
    Forall (fun post => no_valid_image post = true) posts.

Definition is_post_page_request (req : request) : bool :=
  match req with WpGetPostsByCategory _ _ _ => true | _ => false end.

(** Every page of posts that passes the status check is a JSON array of
    posts, or a body that is not JSON.  (On another JSON document
    [posts.extend(data)] would put its members among the posts.) *)
Definition pages_of_posts (env : Environment) : Prop :=
  forall req s r s',
    serve req s = (Reply r, s') ->
    is_post_page_request req = true ->
    raise_for_status r = Done tt ->
    resp_body r = NotJson \/ exists posts, resp_body r = JsonPosts posts.

(** A disk in memory: a file is the list of its bytes; reading or
    removing a file that is not there fails. *)
Definition memory_disk : Type := gmap string (list Byte.byte).

Definition memory_read (path : string) (d : memory_disk) : exn + list Byte.byte :=
  match d !! path with
  | Some data => inr data
  | None => inl (GenericException "FileNotFoundError")
  end.

Definition memory_remove (path : string) (d : memory_disk) : option exn * memory_disk :=
  match d !! path with
  | Some _ => (None, delete path d)
  | None => (Some (GenericException "FileNotFoundError"), d)
  end.

(** Image and document servers without state, in front of a disk in
    memory. *)
Definition scripted_images {env : Environment} (answer : media_request -> media_reply)
    : ImageEnvironment :=
  {| TEMP_FOLDER := "images_temp";
     LIFERAY_SITE_ID := "20117";
     media_serve := fun req s => (answer req, s);
     Disk := memory_disk;
     disk_write := fun path data d => (None, <[path := data]> d);
     disk_read := memory_read;
     disk_remove := memory_remove |}.

Definition image_start {env : Environment} (answer : media_request -> media_reply)
    (ws : world) : @image_world env (scripted_images answer) :=
  @Build_image_world env (scripted_images answer) ws ∅ [] 0.

(** From [w] to [w'] nothing happened on the folders' side but requests
    for pages of posts. *)
Definition only_post_pages {env : Environment} (w w' : world) : Prop :=
  (exists gets,
     traffic w' = traffic w ++ gets /\
     Forall (fun exchange => is_post_page_request (fst exchange) = true) gets) /\
  url_mapping_file w' = url_mapping_file w /\
  category_mapping_file w' = category_mapping_file w /\
  folders_created w' = folders_created w.

(** Two posts without images behind the WordPress model, no answer to
    requests about images, and [category_mapping.json] in place. *)
Definition imageless_start
    : @image_world (wordpress (sample_posts 0 2)) (scripted_images (fun _ => MdNoReply)) :=
  @image_start (wordpress (sample_posts 0 2)) (fun _ => MdNoReply)
    (@Build_world (wordpress (sample_posts 0 2)) tt [] None (Some sample_mapping) 0).

(** From [w] to [w'] the requests [sent] about images and documents were
    made and [uploaded] images counted; on the folders' side only the
    state of the servers may differ. *)
Definition image_step {env : Environment} {img : ImageEnvironment}
    (w w' : image_world) (sent : list media_request) (uploaded : Z) : Prop :=
  media_requests w' = media_requests w ++ sent /\
  images_uploaded w' = images_uploaded w + uploaded /\
  traffic (folders_side w') = traffic (folders_side w) /\
  url_mapping_file (folders_side w') = url_mapping_file (folders_side w) /\
  category_mapping_file (folders_side w') = category_mapping_file (folders_side w) /\
  folders_created (folders_side w') = folders_created (folders_side w).

(** The world of the migrator with [ws] on the folders' side. *)
Definition with_folders_side {env : Environment} {img : ImageEnvironment}
    (ws : world) (w : image_world) : image_world :=
  {| folders_side := ws; disk := disk w;
     media_traffic := media_traffic w;
     images_uploaded := images_uploaded w |}.

(** The requests the handling of one image can have sent: the download,
    then the listing of the folder, then the upload into the folder under
    the file name of the URL. *)
Definition image_requests (folder_id : Z) (image_url : string)
    (sent : list media_request) : Prop :=
  sent = [ImageGet (download_url image_url)] \/
  sent = [ImageGet (download_url image_url); LrListDocuments folder_id] \/
  exists data,
    sent = [ImageGet (download_url image_url); LrListDocuments folder_id;
            LrUploadDocument folder_id (basename image_url) data].

(** A post with one image under a relative upload path. *)
Definition image_post : Post :=
  {| post_id := 21;
     post_title := "Relatorio 2024";
     post_content := "<p>" +:+ img_tag "/wp-content/a.jpg" +:+ "</p>";
     post_excerpt := None;
     post_categories := [7];
     post_date_gmt := None;
     post_link := Some "https://www2.tc.df.gov.br/relatorio-2024" |}.

(** A folder service with the category folder 42 that lists no subfolder
    and refuses every creation of one. *)
Definition subfolders_refused (req : request) : reply :=
  match req with
  | LrListSiteFolders _ =>
      ok (JsonFolders [ {| folder_id := 42; folder_name := "Noticias" |} ])
  | LrListSubfolders _ => ok (JsonFolders [])
  | _ => status 500
  end.

(** Image and document servers that serve every image, list no document
    and accept every upload. *)
Definition uploads_accepted (req : media_request) : media_reply :=
  match req with
  | ImageGet _ =>
      MdReply {| md_status_code := 200; md_content := [Byte.x89; Byte.x50];
                 md_complete := true; md_json := MdNotJson |}
  | LrListDocuments _ =>
      MdReply {| md_status_code := 200; md_content := []; md_complete := true;
                 md_json := MdDocuments [] |}
  | LrUploadDocument folder_id image_name _ =>
      MdReply {| md_status_code := 200; md_content := []; md_complete := true;
                 md_json := MdDocument ("/documents/" +:+ image_name) |}
  end.

Definition refused_start
    : @image_world (scripted subfolders_refused) (scripted_images uploads_accepted) :=
  @image_start (scripted subfolders_refused) uploads_accepted
    (scripted_world subfolders_refused).

(** ** A site to exercise both passes of [main] *)

(** The post that [linking_post] links to. *)
Definition older_post : Post :=
  {| post_id := 3;
     post_title := "Noticia 3";
     post_content := "<p>texto</p>";
     post_excerpt := None;
     post_categories := [7];
     post_date_gmt := None;
     post_link := Some "https://www2.tc.df.gov.br/noticia-3" |}.

Definition linked_posts : list Post := [older_post; linking_post].

(** The world before the first pass and after it. *)
Definition linked_start : @world (site_env linked_posts) := site_world linked_posts.

Definition linked_fetched : @world (site_env linked_posts) :=
  snd (@fetch_posts (site_env linked_posts) 3 [] linked_start).

Definition linked_created : @world (site_env linked_posts) :=
  snd (@for_each (site_env linked_posts) Post linked_posts
         (fun post => process_post post [] []) linked_fetched).

(** * Properties *)

(** ** Strings *)

Module PyStrFacts.
Import PyStr.

Lemma contains_char_app c s t :
  contains_char c (s +:+ t) = contains_char c s || contains_char c t.
Proof.
  induction s as [|a s IH]; simpl; [done|].
  destruct (decide (a = c)); [done|apply IH].
Qed.

Lemma contains_char_take c n s :
  contains_char c (take n s) = true → contains_char c s = true.
Proof.
  revert s. induction n as [|n IH]; intros [|a s]; simpl; try done.
  destruct (decide (a = c)); [done|apply IH].
Qed.

(** Deleting occurrences never brings a character in. *)
Lemma contains_char_replace_go_del c old k s :
  contains_char c (replace_go old "" k s) = true → contains_char c s = true.
Proof.
  revert k. induction s as [|a s IH]; intros k; simpl; [done|].
  destruct k as [|k].
  - destruct (is_prefix old (String a s)); simpl.
    + intros H. apply IH in H. rewrite H. by destruct (decide (a = c)).
    + destruct (decide (a = c)); [done|apply IH].
  - intros H. apply IH in H. rewrite H. by destruct (decide (a = c)).
Qed.

Lemma contains_char_replace_del c old s :
  contains_char c (replace old "" s) = true → contains_char c s = true.
Proof.
  destruct old as [|o old]; simpl.
  - induction s as [|a s IH]; simpl; [done|].
    destruct (decide (a = c)); [done|apply IH].
  - apply contains_char_replace_go_del.
Qed.

(** [s.replace(c, "")] leaves no [c]. *)
Lemma contains_char_remove c s :
  contains_char c (replace (String c "") "" s) = false.
Proof.
  simpl. induction s as [|a s IH]; simpl; [done|].
  destruct (decide (c = a)) as [->|Hne]; simpl; [apply IH|].
  destruct (decide (a = c)); [congruence|apply IH].
Qed.

Lemma length_take_le n s : (String.length (take n s) ≤ n)%nat.
Proof.
  revert s. induction n as [|n IH]; intros [|a s]; simpl; try lia.
  specialize (IH s). lia.
Qed.

Lemma take_all n s : (String.length s ≤ n)%nat → take n s = s.
Proof.
  revert s. induction n as [|n IH]; intros [|a s]; simpl; try done; try lia.
  intros H. f_equal. apply IH. lia.
Qed.

Lemma length_lower s : String.length (lower s) = String.length s.
Proof. induction s as [|a s IH]; simpl; congruence. Qed.

Lemma length_app s t :
  String.length (s +:+ t) = (String.length s + String.length t)%nat.
Proof. induction s as [|a s IH]; simpl; [done|by rewrite IH]. Qed.

Lemma contains_char_chars c s : contains_char c s = true ↔ c ∈ chars s.
Proof.
  induction s as [|a s IH]; simpl.
  - split; [done|]. intros H. by apply elem_of_nil in H.
  - rewrite elem_of_cons. destruct (decide (a = c)) as [->|Hne].
    + split; auto.
    + rewrite IH. split; [auto|]. intros [->|H]; [done|exact H].
Qed.

End PyStrFacts.

(** ** Folder-name sanitisation *)

Section Sanitize.
Import PyStr PyStrFacts.

Lemma foldl_remove_absent c l s :
  c ∈ l ∨ contains_char c s = false →
  contains_char c (foldl (fun t a => replace (String a "") "" t) s l) = false.
Proof.
  revert s. induction l as [|a l IH]; intros s [Hin|Habs]; simpl.
  - by apply elem_of_nil in Hin.
  - exact Habs.
  - apply IH. apply elem_of_cons in Hin as [->|Hin]; [right|by left].
    apply contains_char_remove.
  - apply IH. right.
    destruct (contains_char c (replace (String a "") "" s)) eqn:E; [|done].
    apply (contains_char_replace_del c (String a "")) in E. congruence.
Qed.

Lemma foldl_remove_subset c l s :
  contains_char c (foldl (fun t a => replace (String a "") "" t) s l) = true →
  contains_char c s = true.
Proof.
  revert s. induction l as [|a l IH]; intros s; simpl; [done|].
  intros H. apply IH in H. by apply (contains_char_replace_del c (String a "")) in H.
Qed.

Lemma remove_invalid_chars_clean c title :
  c ∈ chars invalid_chars → contains_char c (remove_invalid_chars title) = false.
Proof. intros H. apply foldl_remove_absent. by left. Qed.

Lemma stripped_title_subset c title :
  contains_char c (stripped_title title) = true →
  contains_char c (remove_invalid_chars title) = true.
Proof.
  unfold stripped_title. intros H.
  do 2 apply contains_char_replace_del in H.
  destruct (endswith ".." (remove_invalid_chars title)); [|done].
  by apply contains_char_take in H.
Qed.

Lemma stripped_title_clean c title :
  c ∈ chars invalid_chars → contains_char c (stripped_title title) = false.
Proof.
  intros Hc. destruct (contains_char c (stripped_title title)) eqn:E; [|done].
  apply stripped_title_subset in E.
  by rewrite remove_invalid_chars_clean in E.
Qed.

Lemma safe_suffix_clean c :
  c ∈ chars invalid_chars → contains_char c "_safe" = false.
Proof.
  unfold invalid_chars; simpl. rewrite !elem_of_cons.
  intros H. repeat (destruct H as [->|H]; [done|]). by apply elem_of_nil in H.
Qed.

Lemma reserved_name_short s : s ∈ reserved_names → (String.length s ≤ 4)%nat.
Proof.
  unfold reserved_names. rewrite !elem_of_cons.
  intros H. repeat (destruct H as [->|H]; [simpl; lia|]). by apply elem_of_nil in H.
Qed.

(** A title made of invalid characters only is emptied by the loop. *)
Lemma remove_invalid_chars_all title :
  (∀ c, c ∈ chars title → c ∈ chars invalid_chars) →
  remove_invalid_chars title = "".
Proof.
  intros Hall. destruct (remove_invalid_chars title) as [|a r] eqn:E; [done|].
  assert (Ha : contains_char a (remove_invalid_chars title) = true).
  { rewrite E. simpl. by destruct (decide (a = a)). }
  pose proof Ha as Hs. apply foldl_remove_subset in Hs.
  apply contains_char_chars, Hall in Hs.
  by rewrite remove_invalid_chars_clean in Ha.
Qed.

End Sanitize.

(** C4. For every title, [sanitize_folder_title] raises when the title is
    empty; otherwise it returns a name that contains none of the ten
    invalid characters and has at most 255 characters, and when the title
    with the invalid characters and path sequences stripped is a reserved
    word (compared in lower case) the returned name is that stripped title
    followed by [_safe]. *)
Theorem sanitize_folder_title_spec (title : string) :
  (title = "" → ∃ msg, sanitize_folder_title title = Raised (ValueError msg)) ∧
  (title ≠ "" →
   ∃ name,
     sanitize_folder_title title = Done name ∧
     (∀ c, c ∈ PyStr.chars invalid_chars → PyStr.contains_char c name = false) ∧
     (String.length name ≤ 255)%nat ∧
     (PyStr.lower (stripped_title title) ∈ reserved_names →
      name = stripped_title title +:+ "_safe")).
Proof.
  unfold sanitize_folder_title. split; intros Ht.
  - subst title. by eexists.
  - destruct (decide (title = "")) as [|_]; [done|].
    eexists. split; [reflexivity|]. split; [|split].
    + intros c Hc.
      match goal with |- PyStr.contains_char c (PyStr.take _ ?t) = false =>
        destruct (PyStr.contains_char c (PyStr.take 255 t)) eqn:E; [|done] end.
      apply PyStrFacts.contains_char_take in E.
      case_bool_decide.
      * rewrite PyStrFacts.contains_char_app, stripped_title_clean,
          safe_suffix_clean in E by done. done.
      * by rewrite stripped_title_clean in E.
    + apply PyStrFacts.length_take_le.
    + intros Hres. rewrite bool_decide_eq_true_2 by done.
      apply PyStrFacts.take_all.
      apply reserved_name_short in Hres.
      rewrite PyStrFacts.length_lower in Hres.
      rewrite PyStrFacts.length_app. simpl. lia.
Qed.

Lemma sanitize_folder_title_spec_witness :
  "c:o?N" ≠ "" ∧ sanitize_folder_title "c:o?N" = Done "coN_safe" ∧
  ∃ name,
    sanitize_folder_title "c:o?N" = Done name ∧
    (∀ c, c ∈ PyStr.chars invalid_chars → PyStr.contains_char c name = false) ∧
    (String.length name ≤ 255)%nat ∧
    (PyStr.lower (stripped_title "c:o?N") ∈ reserved_names →
     name = stripped_title "c:o?N" +:+ "_safe").
Proof.
  split; [done|]. split; [reflexivity|].
  apply (sanitize_folder_title_spec "c:o?N"). done.
Defined.

(** C10. [sanitize_folder_title] raises exactly when its input is empty;
    a non-empty title made only of invalid characters is accepted and
    the empty string is returned. *)
Theorem sanitize_folder_title_only_invalid (title : string) :
  ((∃ e, sanitize_folder_title title = Raised e) ↔ title = "") ∧
  (title ≠ "" →
   (∀ c, c ∈ PyStr.chars title → c ∈ PyStr.chars invalid_chars) →
   sanitize_folder_title title = Done "").
Proof.
  split.
  - unfold sanitize_folder_title. destruct (decide (title = "")) as [->|Hne].
    + split; [done|]. intros _. by eexists.
    + split; [intros [e He]; done|done].
  - intros Hne Hall. unfold sanitize_folder_title, stripped_title.
    destruct (decide (title = "")) as [|_]; [done|].
    by rewrite remove_invalid_chars_all.
Qed.

Lemma sanitize_folder_title_only_invalid_witness :
  sanitize_folder_title "???" = Done "".
Proof.
  apply (sanitize_folder_title_only_invalid "???"); [done|].
  intros c. simpl. rewrite !elem_of_cons.
  intros H. repeat (destruct H as [->|H]; [tauto|]). by apply elem_of_nil in H.
Defined.

(** ** The URL-mapping file *)

(** C8. A call of [save_new_url_mapping] returns normally and leaves a
    file that is the former sequence followed by exactly the new entry:
    every former entry keeps its position, the length grows by one, the
    number of copies of the entry grows by one whether or not the entry
    was already present (so saving the same pair again accumulates a
    duplicate), and nothing else in the world changes. *)
Theorem save_new_url_mapping_appends {env : Environment}
    (original new : string) (w : world) :
  let entry := {| original_url := original; new_url := new |} in
  ∃ w',
    save_new_url_mapping original new w = (Done tt, w') ∧
    url_mapping_file w' = Some (persisted_urls w ++ [entry]) ∧
    (∀ i e, persisted_urls w !! i = Some e → persisted_urls w' !! i = Some e) ∧
    persisted_urls w' !! length (persisted_urls w) = Some entry ∧
    length (persisted_urls w') = S (length (persisted_urls w)) ∧
    count_occ UrlMapping_eq_dec (persisted_urls w') entry
      = S (count_occ UrlMapping_eq_dec (persisted_urls w) entry) ∧
    (∃ w'', save_new_url_mapping original new w' = (Done tt, w'') ∧
            persisted_urls w'' = persisted_urls w ++ [entry; entry]) ∧
    server w' = server w ∧ traffic w' = traffic w ∧
    category_mapping_file w' = category_mapping_file w ∧
    folders_created w' = folders_created w.
Proof.
  intros entry. eexists. split.
  { cbv [save_new_url_mapping bind load_url_mapping write_url_mapping]. reflexivity. }
  unfold persisted_urls; simpl.
  split; [done|]. split; [|split; [|split; [|split; [|split]]]].
  - intros i e H. by apply lookup_app_l_Some.
  - by rewrite lookup_app_r, Nat.sub_diag.
  - rewrite length_app. simpl. lia.
  - rewrite count_occ_app, (count_occ_cons_eq _ _ eq_refl). simpl. lia.
  - eexists. split.
    { cbv [save_new_url_mapping bind load_url_mapping write_url_mapping]. reflexivity. }
    simpl. by rewrite <- app_assoc.
  - done.
Qed.

(** ** Running the monad *)

Section Running.

Context {env : Environment}.

Lemma http_serve req w rep s' :
  serve req (server w) = (rep, s') →
  http req w =
    (match rep with NoReply => Raised ConnectionError | Reply r => Done r end,
     log_exchange req rep s' w).
Proof. intros H. unfold http. rewrite H. by destruct rep. Qed.

Lemma requests_log_exchange req rep s' w :
  requests (log_exchange req rep s' w) = requests w ++ [req].
Proof. unfold requests. simpl. by rewrite fmap_app. Qed.

Lemma bind_done {A B} (m : M A) (k : A → M B) w a w' :
  m w = (Done a, w') → bind m k w = k a w'.
Proof. intros H. unfold bind. by rewrite H. Qed.

Lemma bind_lift_done {A B} (a : A) (k : A → M B) w :
  bind (lift (Done a)) k w = k a w.
Proof. done. Qed.

End Running.

(** ** Category pagination *)

Section CategoryPages.

Context {env : Environment}.

Lemma get_all_categories_more fuel cats page w r data s' :
  serve (WpGetCategories page 100) (server w) = (Reply r, s') →
  status_code r = 200 → resp_body r = JsonCategories data → data ≠ [] →
  get_all_categories_loop (S fuel) cats page w =
    get_all_categories_loop fuel (cats ++ data) (page + 1)
      (log_exchange (WpGetCategories page 100) (Reply r) s' w).
Proof.
  intros Hs Hst Hb Hne. simpl.
  rewrite (bind_done _ _ _ _ _ (http_serve _ _ _ _ Hs)).
  rewrite Hst. simpl. unfold json_categories. rewrite Hb, bind_lift_done.
  destruct data; [done|]. done.
Qed.

Lemma get_all_categories_empty fuel cats page w r s' :
  serve (WpGetCategories page 100) (server w) = (Reply r, s') →
  status_code r = 200 → resp_body r = JsonCategories [] →
  get_all_categories_loop (S fuel) cats page w =
    (Done cats, log_exchange (WpGetCategories page 100) (Reply r) s' w).
Proof.
  intros Hs Hst Hb. simpl.
  rewrite (bind_done _ _ _ _ _ (http_serve _ _ _ _ Hs)).
  rewrite Hst. simpl. unfold json_categories. rewrite Hb, bind_lift_done.
  simpl. by rewrite app_nil_r.
Qed.

Lemma get_all_categories_error fuel cats page w r s' :
  serve (WpGetCategories page 100) (server w) = (Reply r, s') →
  status_code r ≠ 200 →
  get_all_categories_loop (S fuel) cats page w =
    (Done cats, log_exchange (WpGetCategories page 100) (Reply r) s' w).
Proof.
  intros Hs Hst. simpl.
  rewrite (bind_done _ _ _ _ _ (http_serve _ _ _ _ Hs)).
  apply Z.eqb_neq in Hst. by rewrite Hst.
Qed.

End CategoryPages.

Lemma category_requests_S first n :
  category_requests first (S n) =
    WpGetCategories first 100 :: category_requests (first + 1) n.
Proof.
  unfold category_requests. simpl. rewrite Z.add_0_r. f_equal.
  rewrite <- fmap_S_seq, <- list_fmap_compose. apply list_fmap_ext.
  intros _ i _. simpl. f_equal. lia.
Qed.

(** The page loop against a stateless server: the pages of [pages] are
    non-empty answers with status 200 for the pages from [first] on, and
    the page after them is empty or has another status. *)
Lemma get_all_categories_loop_pages (answer : request → reply)
    (pages : list (list Category)) (stop : response) :
  ∀ (first : Z) (cats : list Category) (fuel : nat) (w : @world (scripted answer)),
  (∀ i items, pages !! i = Some items →
     items ≠ [] ∧
     ∃ r, answer (WpGetCategories (first + Z.of_nat i) 100) = Reply r ∧
          status_code r = 200 ∧ resp_body r = JsonCategories items) →
  answer (WpGetCategories (first + Z.of_nat (length pages)) 100) = Reply stop →
  status_code stop ≠ 200 ∨ resp_body stop = JsonCategories [] →
  (length pages < fuel)%nat →
  ∃ w',
    @get_all_categories_loop (scripted answer) fuel cats first w
      = (Done (cats ++ concat pages), w') ∧
    requests w' = requests w ++ category_requests first (S (length pages)).
Proof.
  induction pages as [|items pages IH]; intros first cats fuel w Hpages Hstop Hend Hfuel.
  - destruct fuel as [|fuel]; [simpl in Hfuel; lia|].
    simpl in Hstop. rewrite Z.add_0_r in Hstop.
    assert (Hs : @serve (scripted answer) (WpGetCategories first 100) (server w)
                 = (Reply stop, server w)) by (simpl; by rewrite Hstop).
    eexists. split.
    + destruct (decide (status_code stop = 200)) as [H200|H200].
      * destruct Hend as [|Hb]; [done|].
        rewrite (get_all_categories_empty _ _ _ _ _ _ Hs H200 Hb).
        simpl. by rewrite app_nil_r.
      * rewrite (get_all_categories_error _ _ _ _ _ _ Hs H200).
        simpl. by rewrite app_nil_r.
    + rewrite requests_log_exchange. unfold category_requests. simpl.
      by rewrite Z.add_0_r.
  - destruct fuel as [|fuel]; [simpl in Hfuel; lia|].
    destruct (Hpages 0%nat items eq_refl) as (Hne & r & Hr & H200 & Hb).
    simpl in Hr. rewrite Z.add_0_r in Hr.
    assert (Hs : @serve (scripted answer) (WpGetCategories first 100) (server w)
                 = (Reply r, server w)) by (simpl; by rewrite Hr).
    rewrite (get_all_categories_more _ _ _ _ _ _ _ Hs H200 Hb Hne).
    edestruct (IH (first + 1) (cats ++ items) fuel) as (w' & Hrun & Hreq).
    + intros i its Hi. destruct (Hpages (S i) its Hi) as (? & r' & Hr' & ? & ?).
      split; [done|]. exists r'. split; [|done].
      rewrite <- Hr'. do 2 f_equal. lia.
    + rewrite <- Hstop. simpl length. do 2 f_equal. lia.
    + exact Hend.
    + simpl in Hfuel. lia.
    + exists w'. split.
      * rewrite Hrun. simpl. by rewrite <- app_assoc.
      * rewrite Hreq, requests_log_exchange, <- app_assoc.
        simpl length. by rewrite (category_requests_S first).
Qed.

(** C3 (as amended). [get_all_categories] asks for the pages 1, 2, ... with
    page size 100 and stops exactly at the first page that has no items
    or whose status is not 200: when the pages before it are any
    non-empty pages (short ones included), the result is their
    concatenation and the stopping page is the last one requested. *)
Theorem get_all_categories_stops_on_empty_page (answer : request → reply)
    (pages : list (list Category)) (stop : response) (fuel : nat) :
  (∀ i items, pages !! i = Some items →
     items ≠ [] ∧
     ∃ r, answer (WpGetCategories (1 + Z.of_nat i) 100) = Reply r ∧
          status_code r = 200 ∧ resp_body r = JsonCategories items) →
  answer (WpGetCategories (1 + Z.of_nat (length pages)) 100) = Reply stop →
  status_code stop ≠ 200 ∨ resp_body stop = JsonCategories [] →
  (length pages < fuel)%nat →
  ∃ w',
    get_all_categories fuel (scripted_world answer)
      = (Done (concat pages), w') ∧
    requests w' = category_requests 1 (S (length pages)).
Proof.
  intros Hpages Hstop Hend Hfuel.
  destruct (get_all_categories_loop_pages answer pages stop 1 [] fuel
              (scripted_world answer) Hpages Hstop Hend Hfuel) as (w' & Hrun & Hreq).
  exists w'. split; [exact Hrun|exact Hreq].
Qed.

Lemma get_all_categories_stops_on_empty_page_witness :
  ∃ w',
    get_all_categories 3 (scripted_world two_short_pages)
      = (Done [sample_category 1; sample_category 2], w') ∧
    requests w' =
      [WpGetCategories 1 100; WpGetCategories 2 100; WpGetCategories 3 100].
Proof.
  apply (get_all_categories_stops_on_empty_page two_short_pages
           [[sample_category 1]; [sample_category 2]]
           {| status_code := 200; total_pages_header := None;
              resp_body := JsonCategories [] |} 3).
  - intros [|[|i]] items H; simpl in H; try done;
      injection H as <-; (split; [done|]); eexists; (split; [reflexivity|done]).
  - reflexivity.
  - by right.
  - simpl; lia.
Defined.

(** C3 (as stated) fails: with two pages of one category each, a loop that
    stops at the first page shorter than the page size returns the first
    page after one request, whereas [get_all_categories] returns both
    pages and asks for a third. *)
Lemma get_all_categories_short_page_counterexample :
  let w := scripted_world two_short_pages in
  (fst (get_all_categories_as_specified 5 w),
   requests (snd (get_all_categories_as_specified 5 w)))
    = (Done [sample_category 1], [WpGetCategories 1 100]) ∧
  (fst (get_all_categories 5 w), requests (snd (get_all_categories 5 w)))
    = (Done [sample_category 1; sample_category 2],
       [WpGetCategories 1 100; WpGetCategories 2 100; WpGetCategories 3 100]) ∧
  get_all_categories 5 w ≠ get_all_categories_as_specified 5 w.
Proof.
  split; [reflexivity|]. split; [reflexivity|].
  intros H. apply (f_equal fst) in H. vm_compute in H. discriminate H.
Qed.

(** ** Post pagination of the image migrator *)

Section PostPages.

Context {env : Environment}.

Lemma raise_for_status_done r :
  request_failed (Reply r) = false → raise_for_status r = Done tt.
Proof. unfold raise_for_status. simpl. by intros ->. Qed.

Lemma raise_for_status_raised r :
  request_failed (Reply r) = true → raise_for_status r = Raised (HTTPError (status_code r)).
Proof. unfold raise_for_status. simpl. by intros ->. Qed.

Lemma get_posts_by_category_full fuel c posts page w r data s' :
  serve (WpGetPostsByCategory c 100 page) (server w) = (Reply r, s') →
  request_failed (Reply r) = false → resp_body r = JsonPosts data →
  (100 ≤ length data)%nat →
  get_posts_by_category_loop (S fuel) c posts page w =
    get_posts_by_category_loop fuel c (posts ++ data) (page + 1)
      (log_exchange (WpGetPostsByCategory c 100 page) (Reply r) s' w).
Proof.
  intros Hs Hok Hb Hlen. simpl. unfold try_except, bind at 1 2.
  rewrite (http_serve _ _ _ _ Hs). unfold lift at 1 2.
  rewrite (raise_for_status_done _ Hok). unfold json_posts. rewrite Hb. simpl.
  destruct (Z.ltb_spec (Z.of_nat (length data)) 100); [lia|done].
Qed.

Lemma get_posts_by_category_short fuel c posts page w r data s' :
  serve (WpGetPostsByCategory c 100 page) (server w) = (Reply r, s') →
  request_failed (Reply r) = false → resp_body r = JsonPosts data →
  (length data < 100)%nat →
  get_posts_by_category_loop (S fuel) c posts page w =
    (Done (posts ++ data),
     log_exchange (WpGetPostsByCategory c 100 page) (Reply r) s' w).
Proof.
  intros Hs Hok Hb Hlen. simpl. unfold try_except, bind at 1 2.
  rewrite (http_serve _ _ _ _ Hs). unfold lift at 1 2.
  rewrite (raise_for_status_done _ Hok). unfold json_posts. rewrite Hb. simpl.
  destruct (Z.ltb_spec (Z.of_nat (length data)) 100); [done|lia].
Qed.

Lemma get_posts_by_category_failed fuel c posts page w rep s' :
  serve (WpGetPostsByCategory c 100 page) (server w) = (rep, s') →
  request_failed rep = true →
  get_posts_by_category_loop (S fuel) c posts page w =
    (Done posts, log_exchange (WpGetPostsByCategory c 100 page) rep s' w).
Proof.
  intros Hs Hfail. simpl. unfold try_except, bind at 1 2.
  rewrite (http_serve _ _ _ _ Hs). destruct rep as [|r]; [done|].
  unfold lift at 1. by rewrite (raise_for_status_raised _ Hfail).
Qed.

(** No exception leaves the loop, whatever the servers answer. *)
Lemma get_posts_by_category_loop_no_raise fuel c posts page w e :
  fst (get_posts_by_category_loop fuel c posts page w) ≠ Raised e.
Proof.
  revert posts page w. induction fuel as [|fuel IH]; intros posts page w; [done|].
  destruct (serve (WpGetPostsByCategory c 100 page) (server w)) as [rep s'] eqn:Hs.
  destruct (request_failed rep) eqn:Hfail.
  { by rewrite (get_posts_by_category_failed _ _ _ _ _ _ _ Hs Hfail). }
  destruct rep as [|r]; [done|].
  destruct (resp_body r) as [| | |data| | | |] eqn:Hb.
  4: { destruct (decide (length data < 100)%nat).
       - by rewrite (get_posts_by_category_short _ _ _ _ _ _ _ _ Hs Hfail Hb).
       - rewrite (get_posts_by_category_full _ _ _ _ _ _ _ _ Hs Hfail Hb) by lia.
         apply IH. }
  all: simpl; unfold try_except, bind at 1 2; rewrite (http_serve _ _ _ _ Hs);
    unfold lift at 1 2; rewrite (raise_for_status_done _ Hfail);
    unfold json_posts; by rewrite Hb.
Qed.

End PostPages.

Lemma post_requests_S c first n :
  post_requests c first (S n) =
    WpGetPostsByCategory c 100 first :: post_requests c (first + 1) n.
Proof.
  unfold post_requests. simpl. rewrite Z.add_0_r. f_equal.
  rewrite <- fmap_S_seq, <- list_fmap_compose. apply list_fmap_ext.
  intros _ i _. simpl. f_equal. lia.
Qed.

(** The loop against a stateless server that answers [pages], each of at
    least 100 posts, for the pages from [first] on, and [rep] for the page
    after them: [rep] is a failure, which adds [last = []], or a page
    [last] of fewer than 100 posts. *)
Lemma get_posts_by_category_loop_pages (answer : request → reply) (c : Z)
    (pages : list (list Post)) (rep : reply) (last : list Post) :
  ∀ (first : Z) (posts : list Post) (fuel : nat) (w : @world (scripted answer)),
  (∀ i items, pages !! i = Some items →
     (100 ≤ length items)%nat ∧
     ∃ r, answer (WpGetPostsByCategory c 100 (first + Z.of_nat i)) = Reply r ∧
          request_failed (Reply r) = false ∧ resp_body r = JsonPosts items) →
  answer (WpGetPostsByCategory c 100 (first + Z.of_nat (length pages))) = rep →
  (request_failed rep = true ∧ last = []) ∨
  (∃ r, rep = Reply r ∧ request_failed rep = false ∧
        resp_body r = JsonPosts last ∧ (length last < 100)%nat) →
  (length pages < fuel)%nat →
  ∃ w',
    @get_posts_by_category_loop (scripted answer) fuel c posts first w
      = (Done (posts ++ concat pages ++ last), w') ∧
    requests w' = requests w ++ post_requests c first (S (length pages)).
Proof.
  induction pages as [|items pages IH]; intros first posts fuel w Hpages Hrep Hend Hfuel.
  - destruct fuel as [|fuel]; [simpl in Hfuel; lia|].
    simpl in Hrep. rewrite Z.add_0_r in Hrep.
    assert (Hs : @serve (scripted answer) (WpGetPostsByCategory c 100 first) (server w)
                 = (rep, server w)) by (simpl; by rewrite Hrep).
    eexists. split.
    + destruct Hend as [[Hfail ->]|(r & -> & Hok & Hb & Hlen)].
      * rewrite (get_posts_by_category_failed _ _ _ _ _ _ _ Hs Hfail).
        simpl. by rewrite app_nil_r.
      * rewrite (get_posts_by_category_short _ _ _ _ _ _ _ _ Hs Hok Hb Hlen).
        reflexivity.
    + rewrite requests_log_exchange. unfold post_requests. simpl.
      by rewrite Z.add_0_r.
  - destruct fuel as [|fuel]; [simpl in Hfuel; lia|].
    destruct (Hpages 0%nat items eq_refl) as (Hlen & r & Hr & Hok & Hb).
    simpl in Hr. rewrite Z.add_0_r in Hr.
    assert (Hs : @serve (scripted answer) (WpGetPostsByCategory c 100 first) (server w)
                 = (Reply r, server w)) by (simpl; by rewrite Hr).
    rewrite (get_posts_by_category_full _ _ _ _ _ _ _ _ Hs Hok Hb Hlen).
    edestruct (IH (first + 1) (posts ++ items) fuel) as (w' & Hrun & Hreq).
    + intros i its Hi. destruct (Hpages (S i) its Hi) as (? & r' & Hr' & ? & ?).
      split; [done|]. exists r'. split; [|done].
      rewrite <- Hr'. do 2 f_equal. lia.
    + rewrite <- Hrep. simpl length. do 2 f_equal. lia.
    + exact Hend.
    + simpl in Hfuel. lia.
    + exists w'. split.
      * rewrite Hrun. simpl. by rewrite <- !app_assoc.
      * rewrite Hreq, requests_log_exchange, <- app_assoc.
        simpl length. by rewrite (post_requests_S c first).
Qed.

Lemma serves_page_ok answer c page items :
  serves_page answer c page items →
  ∃ r, answer (WpGetPostsByCategory c 100 page) = Reply r ∧
       request_failed (Reply r) = false ∧ resp_body r = JsonPosts items.
Proof.
  intros (r & Hr & H200 & Hb). exists r. split; [done|]. split; [|done].
  simpl. by rewrite H200.
Qed.

(** C6. Against a posts endpoint whose first three pages have 100, 100 and
    37 items, [get_posts_by_category] returns the 237 items of the three
    pages in order and sends exactly the three page requests. *)
Theorem get_posts_by_category_100_100_37 (answer : request → reply)
    (category_id : Z) (p1 p2 p3 : list Post) (fuel : nat) :
  serves_page answer category_id 1 p1 →
  serves_page answer category_id 2 p2 →
  serves_page answer category_id 3 p3 →
  length p1 = 100%nat → length p2 = 100%nat → length p3 = 37%nat →
  (3 ≤ fuel)%nat →
  ∃ w',
    get_posts_by_category fuel category_id (scripted_world answer)
      = (Done (p1 ++ p2 ++ p3), w') ∧
    length (p1 ++ p2 ++ p3) = 237%nat ∧
    requests w' = [ WpGetPostsByCategory category_id 100 1;
                    WpGetPostsByCategory category_id 100 2;
                    WpGetPostsByCategory category_id 100 3 ].
Proof.
  intros H1 H2 H3 L1 L2 L3 Hfuel.
  destruct (serves_page_ok _ _ _ _ H3) as (r3 & Hr3 & Hok3 & Hb3).
  destruct (get_posts_by_category_loop_pages answer category_id [p1; p2]
              (Reply r3) p3 1 [] fuel (scripted_world answer))
    as (w' & Hrun & Hreq).
  - intros [|[|i]] items Hi; simpl in Hi; try done; injection Hi as <-.
    + split; [lia|]. by apply serves_page_ok.
    + split; [lia|]. by apply serves_page_ok.
  - exact Hr3.
  - right. exists r3. split; [done|]. split; [done|]. split; [done|]. lia.
  - simpl. lia.
  - exists w'. split; [|split].
    + unfold get_posts_by_category. rewrite Hrun. simpl.
      by rewrite app_nil_r, <- app_assoc.
    + rewrite !length_app. lia.
    + exact Hreq.
Qed.

Lemma get_posts_by_category_100_100_37_witness :
  ∃ w',
    get_posts_by_category 3 7 (scripted_world three_pages)
      = (Done (sample_posts 0 100 ++ sample_posts 100 100 ++ sample_posts 200 37), w') ∧
    length (sample_posts 0 100 ++ sample_posts 100 100 ++ sample_posts 200 37) = 237%nat ∧
    requests w' = [ WpGetPostsByCategory 7 100 1;
                    WpGetPostsByCategory 7 100 2;
                    WpGetPostsByCategory 7 100 3 ].
Proof.
  apply (get_posts_by_category_100_100_37 three_pages 7
           (sample_posts 0 100) (sample_posts 100 100) (sample_posts 200 37) 3).
  - eexists. split; [reflexivity|]. split; reflexivity.
  - eexists. split; [reflexivity|]. split; reflexivity.
  - eexists. split; [reflexivity|]. split; reflexivity.
  - reflexivity.
  - reflexivity.
  - reflexivity.
  - lia.
Defined.

(** ** Post pagination of the content migrator *)

Section FetchPosts.

Context {env : Environment}.

Lemma fetch_category_loop_S fuel c posts page w :
  fetch_category_loop (S fuel) c posts page w =
    let '(rep, s') := serve (WpGetPostsByCategory c 100 page) (server w) in
    let w1 := log_exchange (WpGetPostsByCategory c 100 page) rep s' w in
    match rep with
    | NoReply => (Raised ConnectionError, w1)
    | Reply r =>
        if status_code r =? 200 then
          match resp_body r with
          | JsonPosts data =>
              if default 1 (total_pages_header r) <=? page
              then (Done (posts ++ data), w1)
              else fetch_category_loop fuel c (posts ++ data) (page + 1) w1
          | _ => (Raised JSONDecodeError, w1)
          end
        else (Raised (GenericException "Erro ao acessar o JSON"), w1)
    end.
Proof.
  simpl. unfold bind at 1, http.
  destruct (serve (WpGetPostsByCategory c 100 page) (server w)) as [[|r] s']; [done|].
  destruct (status_code r =? 200); [|done].
  unfold bind, lift, json_posts. destruct (resp_body r); try done.
  by destruct (default 1 (total_pages_header r) <=? page).
Qed.

(** A run of the page loop only adds exchanges, and unless it raises all
    of them are responses with status 200. *)
Lemma fetch_category_loop_traffic fuel c posts page w :
  ∃ new,
    traffic (snd (fetch_category_loop fuel c posts page w)) = traffic w ++ new ∧
    ((∀ e, fst (fetch_category_loop fuel c posts page w) ≠ Raised e) → all_200 new).
Proof.
  revert posts page w. induction fuel as [|fuel IH]; intros posts page w.
  { exists []. split; [by rewrite app_nil_r|]. intros _. constructor. }
  rewrite fetch_category_loop_S.
  destruct (serve (WpGetPostsByCategory c 100 page) (server w)) as [[|r] s'];
    cbv zeta.
  { eexists. split; [reflexivity|]. intros H. by destruct (H ConnectionError). }
  destruct (status_code r =? 200) eqn:H200.
  2: { eexists. split; [reflexivity|]. intros H. by destruct (H (GenericException "Erro ao acessar o JSON")). }
  apply Z.eqb_eq in H200.
  destruct (resp_body r) as [| | |data| | | |];
    try (eexists; split; [reflexivity|]; intros H; by destruct (H JSONDecodeError)).
  destruct (default 1 (total_pages_header r) <=? page).
  { eexists. split; [reflexivity|]. intros _.
    constructor; [|constructor]. by exists r. }
  destruct (IH (posts ++ data) (page + 1)
              (log_exchange (WpGetPostsByCategory c 100 page) (Reply r) s' w))
    as (new & Htr & Hok).
  exists ((WpGetPostsByCategory c 100 page, Reply r) :: new). split.
  - rewrite Htr. simpl. by rewrite <- app_assoc.
  - intros H. constructor; [by exists r|]. by apply Hok.
Qed.

Lemma fetch_categories_traffic fuel cats posts w :
  ∃ new,
    traffic (snd (fetch_categories fuel cats posts w)) = traffic w ++ new ∧
    ((∀ e, fst (fetch_categories fuel cats posts w) ≠ Raised e) → all_200 new).
Proof.
  revert posts w. induction cats as [|c cats IH]; intros posts w.
  { exists []. split; [by rewrite app_nil_r|]. intros _. constructor. }
  simpl. unfold bind.
  destruct (fetch_category_loop_traffic fuel c posts 1 w) as (new1 & Htr1 & Hok1).
  destruct (fetch_category_loop fuel c posts 1 w) as [[posts1|e|] w1]; simpl in *.
  - destruct (IH posts1 w1) as (new2 & Htr2 & Hok2).
    exists (new1 ++ new2). split.
    + by rewrite Htr2, Htr1, <- app_assoc.
    + intros H. apply Forall_app. split; [by apply Hok1|by apply Hok2].
  - exists new1. split; [done|]. intros H. by destruct (H e).
  - exists new1. split; [done|]. intros _. by apply Hok1.
Qed.

Lemma fetch_posts_traffic fuel cats w :
  ∃ new,
    traffic (snd (fetch_posts fuel cats w)) = traffic w ++ new ∧
    ((∀ e, fst (fetch_posts fuel cats w) ≠ Raised e) → all_200 new).
Proof.
  destruct cats as [|c cats]; [|apply fetch_categories_traffic].
  unfold fetch_posts, bind, http.
  destruct (serve (WpGetPosts 100) (server w)) as [[|r] s'].
  { eexists. split; [reflexivity|]. intros H. by destruct (H ConnectionError). }
  destruct (status_code r =? 200) eqn:H200.
  2: { eexists. split; [reflexivity|]. intros H. by destruct (H (GenericException "Erro ao acessar o JSON")). }
  apply Z.eqb_eq in H200.
  exists [(WpGetPosts 100, Reply r)]. split.
  - unfold lift, json_posts. by destruct (resp_body r).
  - intros _. constructor; [by exists r|constructor].
Qed.

(** Any response with a status other than 200 makes [fetch_posts] raise. *)
Lemma fetch_posts_raises_on_non_200 fuel cats w req r :
  (req, Reply r) ∈ new_traffic w (snd (fetch_posts fuel cats w)) →
  status_code r ≠ 200 →
  ∃ e, fst (fetch_posts fuel cats w) = Raised e.
Proof.
  intros Hin Hst.
  destruct (fetch_posts_traffic fuel cats w) as (new & Htr & Hok).
  unfold new_traffic in Hin. rewrite Htr, drop_app_length in Hin.
  destruct (fst (fetch_posts fuel cats w)) as [posts|e|] eqn:Hres; [|by exists e|].
  - assert (Hall : all_200 new) by (apply Hok; intros e; congruence).
    unfold all_200 in Hall. rewrite Forall_forall in Hall.
    destruct (Hall _ Hin) as (r' & Hr' & H200). simpl in Hr'. congruence.
  - assert (Hall : all_200 new) by (apply Hok; intros e; congruence).
    unfold all_200 in Hall. rewrite Forall_forall in Hall.
    destruct (Hall _ Hin) as (r' & Hr' & H200). simpl in Hr'. congruence.
Qed.

(** When [fetch_posts] raises, [main] logs the error and ends in the world
    in which the fetch stopped: no post is processed. *)
Lemma main_aborts_when_fetch_raises fuel w e w' :
  fetch_posts fuel (wordpress_id <$> persisted_categories w) w = (Raised e, w') →
  main fuel w = (Done tt, w').
Proof.
  intros H. unfold main, try_except, bind at 1, load_categories_mapping.
  unfold persisted_categories in H. unfold bind at 1. by rewrite H.
Qed.

End FetchPosts.

(** C5. The two post fetches treat a failing page differently.  In the
    content migrator any response whose status is not 200 makes
    [fetch_posts] raise, and [main] then stops in the world the fetch left,
    so that no post is processed.  In the image migrator
    [get_posts_by_category] never raises, and when a request fails after
    some full pages it returns the posts of those pages. *)
Theorem pagination_failure_policies :
  (∀ (env : Environment) (fuel : nat) (cats : list Z) (w : world) req r,
     (req, Reply r) ∈ new_traffic w (snd (fetch_posts fuel cats w)) →
     status_code r ≠ 200 →
     ∃ e, fst (fetch_posts fuel cats w) = Raised e) ∧
  (∀ (env : Environment) (fuel : nat) (w : world) e w',
     fetch_posts fuel (wordpress_id <$> persisted_categories w) w = (Raised e, w') →
     main fuel w = (Done tt, w')) ∧
  (∀ (env : Environment) (fuel : nat) (category_id : Z) (w : world) e,
     fst (get_posts_by_category fuel category_id w) ≠ Raised e) ∧
  (∀ (answer : request → reply) (category_id : Z) (pages : list (list Post))
     (fuel : nat),
     (∀ i items, pages !! i = Some items →
        (100 ≤ length items)%nat ∧
        serves_page answer category_id (1 + Z.of_nat i) items) →
     request_failed
       (answer (WpGetPostsByCategory category_id 100 (1 + Z.of_nat (length pages))))
       = true →
     (length pages < fuel)%nat →
     ∃ w',
       get_posts_by_category fuel category_id (scripted_world answer)
         = (Done (concat pages), w') ∧
       requests w' = post_requests category_id 1 (S (length pages))).
Proof.
  split; [|split; [|split]].
  - intros env fuel cats w req r. apply fetch_posts_raises_on_non_200.
  - intros env fuel w e w'. apply main_aborts_when_fetch_raises.
  - intros env fuel c w e. apply get_posts_by_category_loop_no_raise.
  - intros answer c pages fuel Hpages Hfail Hfuel.
    destruct (get_posts_by_category_loop_pages answer c pages
                (answer (WpGetPostsByCategory c 100 (1 + Z.of_nat (length pages))))
                [] 1 [] fuel (scripted_world answer))
      as (w' & Hrun & Hreq).
    + intros i items Hi. destruct (Hpages i items Hi) as [Hlen Hserves].
      split; [done|]. by apply serves_page_ok.
    + reflexivity.
    + by left.
    + exact Hfuel.
    + exists w'. split; [|exact Hreq].
      unfold get_posts_by_category. rewrite Hrun. simpl. by rewrite app_nil_r.
Qed.

Lemma pagination_failure_policies_witness :
  (∃ e, fst (fetch_posts 5 [7] (scripted_world second_page_fails)) = Raised e) ∧
  (∃ w', main 5 (mapped_world second_page_fails) = (Done tt, w') ∧
         requests w' = [ WpGetPostsByCategory 7 100 1; WpGetPostsByCategory 7 100 2 ] ∧
         url_mapping_file w' = None) ∧
  (∃ w', get_posts_by_category 5 7 (scripted_world second_page_fails)
           = (Done (sample_posts 0 100), w') ∧
         requests w' = [ WpGetPostsByCategory 7 100 1; WpGetPostsByCategory 7 100 2 ]).
Proof.
  destruct pagination_failure_policies as (Hraise & Habort & _ & Hbreak).
  split; [|split].
  - apply (Hraise (scripted second_page_fails) 5%nat [7] _
             (WpGetPostsByCategory 7 100 2)
             {| status_code := 500; total_pages_header := None;
                resp_body := JsonObject |}).
    + apply list_elem_of_lookup. exists 1%nat. reflexivity.
    + done.
  - eexists. split.
    + apply (Habort (scripted second_page_fails) 5%nat _
               (GenericException "Erro ao acessar o JSON")).
      reflexivity.
    + split; reflexivity.
  - destruct (Hbreak second_page_fails 7 [sample_posts 0 100] 5%nat)
      as (w' & Hrun & Hreq).
    + intros [|i] items Hi; simpl in Hi; [|done]. injection Hi as <-.
      split; [reflexivity|]. eexists. split; [reflexivity|]. split; reflexivity.
    + reflexivity.
    + simpl. lia.
    + exists w'. split; [|exact Hreq].
      rewrite Hrun. reflexivity.
Defined.

(** ** Fetching without categories *)

Lemma wordpress_first_page all_posts :
  wordpress_page all_posts 100 1 =
    Reply {| status_code := 200;
             total_pages_header := Some (page_count (Z.of_nat (length all_posts)) 100);
             resp_body := JsonPosts (take 100 all_posts) |}.
Proof.
  unfold wordpress_page, page_slice, page_count.
  replace ((1 <? 1) || _) with false; [done|].
  symmetry. simpl. apply andb_false_iff.
  destruct all_posts as [|p l]; [by right|left].
  apply Z.ltb_ge. simpl length. apply Z.div_le_lower_bound; lia.
Qed.

(** Without categories [fetch_posts] sends one request and returns the
    first 100 posts of the source, however many there are. *)
Lemma fetch_posts_without_categories_first_page (all_posts : list Post) (fuel : nat) :
  ∃ w',
    fetch_posts fuel [] (wordpress_world all_posts)
      = (Done (take 100 all_posts), w') ∧
    requests w' = [WpGetPosts 100].
Proof.
  eexists. split.
  - unfold fetch_posts, bind, http. simpl serve.
    rewrite wordpress_first_page. reflexivity.
  - reflexivity.
Qed.

(** C2 fails on the code. With 101 posts at the source and no category
    mapped, [fetch_posts] sends the single request [/posts?per_page=100]
    and returns the first 100 posts only, while the per-category branch
    run for a category that holds all of them follows the pages and
    returns the 101 posts. *)
Theorem fetch_posts_without_categories_drops_posts :
  let source := sample_posts 0 101 in
  let run := fetch_posts 5 [] (wordpress_world source) in
  let by_category := fetch_posts 5 [7] (wordpress_world source) in
  fst run = Done (take 100 source) ∧
  requests (snd run) = [WpGetPosts 100] ∧
  length (take 100 source) = 100%nat ∧
  take 100 source ≠ source ∧
  fst by_category = Done source ∧
  requests (snd by_category)
    = [ WpGetPostsByCategory 7 100 1; WpGetPostsByCategory 7 100 2 ].
Proof.
  intros source run by_category.
  split; [vm_compute; reflexivity|].
  split; [vm_compute; reflexivity|].
  split; [vm_compute; reflexivity|].
  split.
  { intros H. apply (f_equal length) in H. vm_compute in H. discriminate H. }
  split; vm_compute; reflexivity.
Qed.

(** ** The second pass *)

Section SecondPass.

Context {env : Environment}.

Lemma update_content_in_liferay_run content_id html w :
  update_content_in_liferay content_id html w =
    let '(rep, s') := serve (LrPatchContent content_id (update_payload html)) (server w) in
    (Done tt, log_exchange (LrPatchContent content_id (update_payload html)) rep s' w).
Proof.
  unfold update_content_in_liferay, try_except, bind, http.
  by destruct (serve (LrPatchContent content_id (update_payload html)) (server w))
    as [[|r] s'].
Qed.

Lemma relink_post_found url_mapping post w id w1 :
  get_content_id_by_friendly_url (generate_friendly_url (post_title post)) w
    = (Done (Some id), w1) →
  id ≠ 0 →
  relink_post url_mapping post w =
    if decide (replace_internal_links (post_content post) url_mapping
               ≠ post_content post)
    then update_content_in_liferay id
           (replace_internal_links (post_content post) url_mapping) w1
    else (Done tt, w1).
Proof.
  intros Hfound Hid. unfold relink_post.
  rewrite (bind_done _ _ _ _ _ Hfound). simpl.
  apply Z.eqb_neq in Hid. rewrite Hid.
  by destruct (decide (replace_internal_links (post_content post) url_mapping
                       ≠ post_content post)).
Qed.

End SecondPass.

Lemma merge_fields_outside_body html fields :
  List.filter (fun f => negb (bool_decide (field_name f = "TextoMateria")))
    (merge_fields (update_payload html) fields)
  = List.filter (fun f => negb (bool_decide (field_name f = "TextoMateria"))) fields.
Proof.
  unfold merge_fields. rewrite List.filter_app.
  replace (List.filter _ (List.filter _ (update_payload html))) with (@nil ContentField).
  2: { unfold update_payload. simpl. by case_bool_decide. }
  rewrite app_nil_r. induction fields as [|f fields IH]; [done|].
  rewrite fmap_cons. simpl List.filter at 2. simpl List.filter at 1.
  rewrite IH. unfold merge_field, update_payload. simpl.
  destruct (decide (field_name f = "TextoMateria")) as [Hf|Hf].
  - rewrite (bool_decide_eq_true_2 ("TextoMateria" = field_name f)) by done.
    simpl. by rewrite (bool_decide_eq_true_2 _ Hf).
  - rewrite (bool_decide_eq_false_2 ("TextoMateria" = field_name f)) by done.
    done.
Qed.

Lemma patch_content_outside_body content_id html c :
  outside_body (patch_content content_id (update_payload html) c) = outside_body c.
Proof.
  unfold patch_content. destruct (sc_id c =? content_id); [|done].
  unfold outside_body. simpl. by rewrite merge_fields_outside_body.
Qed.

(** In the content model the second pass changes nothing of a stored
    content but its [TextoMateria] field. *)
Lemma relink_post_frame url_mapping post (w : @world cms_env) :
  ∃ w',
    relink_post url_mapping post w = (Done tt, w') ∧
    outside_body <$> cms_contents (server w')
      = outside_body <$> cms_contents (server w).
Proof.
  destruct (@get_content_id_by_friendly_url cms_env
              (@generate_friendly_url cms_env (post_title post)) w)
    as [res w1] eqn:Hget.
  assert (Hw1 : server w1 = server w ∧ ∃ o, res = Done o).
  { unfold get_content_id_by_friendly_url, try_except, bind, http in Hget.
    simpl in Hget.
    destruct (List.filter _ (cms_contents (server w))) as [|c l];
      simpl in Hget; injection Hget as <- <-; (split; [done|by eexists]). }
  destruct Hw1 as [Hs [o ->]].
  destruct (truthy_id o) as [id|] eqn:Htruthy.
  2: { exists w1. split; [|by rewrite Hs].
       unfold relink_post. rewrite (bind_done _ _ _ _ _ Hget). by rewrite Htruthy. }
  assert (o = Some id ∧ id ≠ 0) as [-> Hid].
  { destruct o as [i|]; [|done]. simpl in Htruthy.
    destruct (Z.eqb_spec i 0); [done|]. by injection Htruthy as ->. }
  rewrite (relink_post_found _ _ _ _ _ Hget Hid).
  destruct (decide _) as [Hne|Heq]; [|exists w1; split; [done|by rewrite Hs]].
  rewrite update_content_in_liferay_run. simpl serve. unfold cms_serve.
  case_bool_decide.
  - eexists. split; [reflexivity|]. simpl. rewrite Hs, <- list_fmap_compose.
    apply list_fmap_ext. intros _ c _. simpl. apply patch_content_outside_body.
  - eexists. split; [reflexivity|]. simpl. by rewrite Hs.
Qed.

(** ** Unique names *)

Lemma candidate_inj base j k : candidate base j = candidate base k → j = k.
Proof.
  unfold candidate. intros H.
  apply (inj (String.app base)) in H. apply (inj (String.app "_")) in H.
  by apply (inj pretty) in H.
Qed.

Lemma candidate_neq_base base k : candidate base k ≠ base.
Proof.
  unfold candidate. intros H. apply (f_equal String.length) in H.
  rewrite PyStrFacts.length_app in H. simpl in H. lia.
Qed.

(** The loop ends before its fuel when the fuel covers the names not yet
    visited: [V] holds the names already found taken. *)
Lemma generate_unique_name_loop_done base (existing : gset string) :
  ∀ (fuel : nat) (new_name : string) (counter : Z) (V : gset string),
  V ⊆ existing → new_name ∉ V →
  (∀ k, counter ≤ k → (candidate base k ∉ V) ∧ candidate base k ≠ new_name) →
  (size existing ≤ size V + fuel)%nat →
  ∃ name,
    generate_unique_name_loop fuel base existing new_name counter = Done name ∧
    (name ∉ existing).
Proof.
  induction fuel as [|fuel IH]; intros new_name counter V HV Hnew Hfuture Hsize;
    simpl; (destruct (decide (new_name ∈ existing)) as [Hin|Hout];
            [|by exists new_name]).
  - assert (Hsub : V ∪ {[new_name]} ⊆ existing).
    { apply union_subseteq. split; [done|]. by apply singleton_subseteq_l. }
    apply subseteq_size in Hsub.
    rewrite size_union, size_singleton in Hsub by (by apply disjoint_singleton_r).
    lia.
  - destruct (Hfuture counter) as [Hc1 Hc2]; [lia|].
    apply (IH _ _ (V ∪ {[new_name]})).
    + apply union_subseteq. split; [done|]. by apply singleton_subseteq_l.
    + rewrite elem_of_union, elem_of_singleton. by intros [?|?].
    + intros k Hk. destruct (Hfuture k) as [Hk1 Hk2]; [lia|]. split.
      * rewrite elem_of_union, elem_of_singleton. by intros [?|?].
      * intros Heq. apply candidate_inj in Heq. lia.
    + rewrite size_union, size_singleton by (by apply disjoint_singleton_r). lia.
Qed.

Lemma generate_unique_name_loop_mono base existing fuel fuel' new_name counter name :
  (fuel ≤ fuel')%nat →
  generate_unique_name_loop fuel base existing new_name counter = Done name →
  generate_unique_name_loop fuel' base existing new_name counter = Done name.
Proof.
  revert fuel' new_name counter.
  induction fuel as [|fuel IH]; intros fuel' new_name counter Hle.
  - simpl. destruct fuel'; simpl;
      destruct (decide (new_name ∈ existing)); try done.
  - destruct fuel' as [|fuel']; [lia|]. simpl.
    destruct (decide (new_name ∈ existing)); [|done].
    apply IH. lia.
Qed.

(** [generate_unique_name] returns, and the same name for every fuel that
    is at least the number of existing names; the name is not taken. *)
Lemma generate_unique_name_done base (existing : gset string) :
  ∃ name,
    (name ∉ existing) ∧
    (∀ fuel, (size existing ≤ fuel)%nat →
             generate_unique_name fuel base existing = Done name).
Proof.
  destruct (generate_unique_name_loop_done base existing (size existing) base 1 ∅)
    as (name & Hrun & Hout).
  - apply empty_subseteq.
  - apply not_elem_of_empty.
  - intros k _. split; [apply not_elem_of_empty|apply candidate_neq_base].
  - lia.
  - exists name. split; [done|]. intros fuel Hfuel.
    by apply (generate_unique_name_loop_mono _ _ (size existing)).
Qed.

(** The name the loop returns is never one of the existing folders, so
    the search for an existing subfolder of that name finds nothing. *)
Lemma find_folder_unique_name fuel base items name :
  generate_unique_name fuel base (folder_names items) = Done name →
  find_folder name items = None.
Proof.
  intros Hgen.
  assert (Hout : name ∉ folder_names items).
  { destruct (generate_unique_name_done base (folder_names items)) as (n & Hn & Hall).
    pose proof (Hall (max fuel (size (folder_names items))) ltac:(lia)) as H1.
    pose proof (generate_unique_name_loop_mono base (folder_names items) fuel
                  (max fuel (size (folder_names items))) base 1 name ltac:(lia) Hgen) as H2.
    unfold generate_unique_name in H1. congruence. }
  unfold find_folder. destruct (List.find _ items) as [f|] eqn:Hfind; [|done].
  apply List.find_some in Hfind as [Hin Hname].
  apply bool_decide_eq_true in Hname.
  exfalso. apply Hout. unfold folder_names. rewrite elem_of_list_to_set.
  apply list_elem_of_fmap. exists f. split; [done|]. by apply list_elem_of_In.
Qed.

(** ** Subfolders *)

Section Subfolder.

Context {env : Environment}.

Lemma sanitize_subfolder_title name :
  sanitize_folder_title
    (if decide (PyStr.strip name = "") then "SEM TITULO" else name)
  = Done (subfolder_title name).
Proof.
  unfold subfolder_title.
  destruct (decide (PyStr.strip name = "")) as [|Hne]; [reflexivity|].
  assert (Hname : name ≠ "") by (intros ->; by apply Hne).
  unfold sanitize_folder_title. by destruct (decide (name = "")).
Qed.

(** [create_or_get_subfolder] written out on the outcomes of its two
    [try] bodies. *)
Lemma create_or_get_subfolder_eq fuel parent name w :
  create_or_get_subfolder fuel parent name w =
    match subfolder_attempt fuel parent (subfolder_title name) w with
    | (Raised e, w1) =>
        if is_HTTPError e then
          match subfolder_retry fuel parent (subfolder_title name) w1 with
          | (Raised _, w2) => (Done parent, w2)
          | r => r
          end
        else (Done parent, w1)
    | r => r
    end.
Proof.
  unfold create_or_get_subfolder.
  unfold bind at 1, lift at 1. rewrite sanitize_subfolder_title.
  unfold try_except.
  destruct (subfolder_attempt fuel parent (subfolder_title name) w)
    as [[id|e|] w1]; try done.
  destruct (is_HTTPError e); [|done].
  by destruct (subfolder_retry fuel parent (subfolder_title name) w1) as [[id|e'|] w2].
Qed.

Lemma post_subfolder_no_diverge parent name w :
  fst (post_subfolder parent name w) ≠ Diverge.
Proof.
  unfold post_subfolder, bind, http.
  destruct (serve _ (server w)) as [[|r] s']; [done|].
  unfold lift, raise_for_status.
  destruct ((400 <=? status_code r) && (status_code r <? 600)); [done|].
  unfold json_id. by destruct (resp_body r).
Qed.

Lemma subfolder_attempt_eq fuel parent t w :
  subfolder_attempt fuel parent t w =
    let '(rep, s') := serve (LrListSubfolders parent) (server w) in
    let w1 := log_exchange (LrListSubfolders parent) rep s' w in
    match rep with
    | NoReply => (Raised ConnectionError, w1)
    | Reply r =>
        match raise_for_status r with
        | Done _ =>
            match json_folder_items r with
            | Done items =>
                match generate_unique_name fuel t (folder_names items) with
                | Done unique_name =>
                    match find_folder unique_name items with
                    | Some id => (Done id, w1)
                    | None => post_subfolder parent unique_name w1
                    end
                | Raised e => (Raised e, w1)
                | Diverge => (Diverge, w1)
                end
            | Raised e => (Raised e, w1)
            | Diverge => (Diverge, w1)
            end
        | Raised e => (Raised e, w1)
        | Diverge => (Diverge, w1)
        end
    end.
Proof.
  unfold subfolder_attempt, bind at 1, http at 1.
  destruct (serve (LrListSubfolders parent) (server w)) as [[|r] s']; [done|].
  unfold bind at 1, lift at 1. destruct (raise_for_status r); try done.
  unfold bind at 1, lift at 1. destruct (json_folder_items r) as [items|e|]; try done.
  unfold bind at 1, lift at 1.
  destruct (generate_unique_name fuel t (folder_names items)) as [name|e|]; try done.
  by destruct (find_folder name items).
Qed.

Lemma subfolder_retry_eq fuel parent t w :
  subfolder_retry fuel parent t w =
    let '(rep, s') := serve (LrListSubfolders parent) (server w) in
    let w1 := log_exchange (LrListSubfolders parent) rep s' w in
    match rep with
    | NoReply => (Raised ConnectionError, w1)
    | Reply r =>
        match json_folder_items r with
        | Done items =>
            match generate_unique_name fuel t (folder_names items) with
            | Done unique_name => post_subfolder parent unique_name w1
            | Raised e => (Raised e, w1)
            | Diverge => (Diverge, w1)
            end
        | Raised e => (Raised e, w1)
        | Diverge => (Diverge, w1)
        end
    end.
Proof.
  unfold subfolder_retry, bind at 1, http at 1.
  destruct (serve (LrListSubfolders parent) (server w)) as [[|r] s']; [done|].
  unfold bind at 1, lift at 1. by destruct (json_folder_items r) as [items|e|].
Qed.

Lemma json_folder_items_size r items :
  json_folder_items r = Done items →
  size (folder_names items) = listing_size (Reply r).
Proof.
  unfold json_folder_items, listing_size.
  destruct (resp_body r); try done; by intros [= <-].
Qed.

Lemma json_folder_items_no_diverge r : json_folder_items r ≠ Diverge.
Proof. unfold json_folder_items. by destruct (resp_body r). Qed.

Lemma raise_for_status_no_diverge r : raise_for_status r ≠ Diverge.
Proof.
  unfold raise_for_status.
  by destruct ((400 <=? status_code r) && (status_code r <? 600)).
Qed.

(** With fuel for the names of the listing, the first attempt does not
    run out of fuel and no longer depends on the fuel. *)
Lemma subfolder_attempt_stable parent t w fuel :
  let n := listing_size (fst (serve (LrListSubfolders parent) (server w))) in
  (n ≤ fuel)%nat →
  subfolder_attempt fuel parent t w = subfolder_attempt n parent t w ∧
  fst (subfolder_attempt fuel parent t w) ≠ Diverge.
Proof.
  intros n Hfuel. subst n. rewrite !subfolder_attempt_eq.
  destruct (serve (LrListSubfolders parent) (server w)) as [[|r] s']; [done|].
  cbv zeta. simpl fst in *.
  pose proof (raise_for_status_no_diverge r).
  destruct (raise_for_status r); try done.
  pose proof (json_folder_items_no_diverge r).
  destruct (json_folder_items r) as [items|e|] eqn:Hitems; try done.
  apply json_folder_items_size in Hitems.
  destruct (generate_unique_name_done t (folder_names items)) as (name & _ & Hall).
  rewrite !Hall by lia.
  split; [done|]. destruct (find_folder name items); [done|].
  apply post_subfolder_no_diverge.
Qed.

Lemma subfolder_retry_stable parent t w fuel :
  let n := listing_size (fst (serve (LrListSubfolders parent) (server w))) in
  (n ≤ fuel)%nat →
  subfolder_retry fuel parent t w = subfolder_retry n parent t w ∧
  fst (subfolder_retry fuel parent t w) ≠ Diverge.
Proof.
  intros n Hfuel. subst n. rewrite !subfolder_retry_eq.
  destruct (serve (LrListSubfolders parent) (server w)) as [[|r] s']; [done|].
  cbv zeta. simpl fst in *.
  pose proof (json_folder_items_no_diverge r).
  destruct (json_folder_items r) as [items|e|] eqn:Hitems; try done.
  apply json_folder_items_size in Hitems.
  destruct (generate_unique_name_done t (folder_names items)) as (name & _ & Hall).
  rewrite !Hall by lia.
  split; [done|]. apply post_subfolder_no_diverge.
Qed.

End Subfolder.

Section SubfolderCreation.

Context {env : Environment}.

Lemma post_subfolder_requests parent name w :
  requests (snd (post_subfolder parent name w)) =
    requests w ++ [LrCreateSubfolder parent name ("Subpasta para " +:+ name)].
Proof.
  unfold post_subfolder, bind, http.
  destruct (serve _ (server w)) as [[|r] s']; [apply requests_log_exchange|].
  unfold lift. destruct (raise_for_status r); try apply requests_log_exchange.
  destruct (json_id r); apply requests_log_exchange.
Qed.

(** The branch that would return an existing subfolder is never taken: a
    first attempt that returns an id has sent a creation request, for a
    name that no listed subfolder has. *)
Lemma subfolder_attempt_always_creates fuel parent t w id w' :
  subfolder_attempt fuel parent t w = (Done id, w') →
  ∃ name,
    requests w' =
      requests w ++ [ LrListSubfolders parent;
                      LrCreateSubfolder parent name ("Subpasta para " +:+ name) ].
Proof.
  rewrite subfolder_attempt_eq.
  destruct (serve (LrListSubfolders parent) (server w)) as [[|r] s']; [done|].
  cbv zeta. destruct (raise_for_status r); try done.
  destruct (json_folder_items r) as [items|e|]; try done.
  destruct (generate_unique_name fuel t (folder_names items)) as [name|e|] eqn:Hgen;
    try done.
  rewrite (find_folder_unique_name _ _ _ _ Hgen).
  intros Hpost. exists name.
  pose proof (post_subfolder_requests parent name
                (log_exchange (LrListSubfolders parent) (Reply r) s' w)) as Hreq.
  rewrite Hpost in Hreq. simpl in Hreq.
  by rewrite Hreq, requests_log_exchange, <- app_assoc.
Qed.

End SubfolderCreation.

(** C1 fails on the code. Called twice for the subfolder [Foo] of the same
    parent, [create_or_get_subfolder] returns two different ids and leaves
    two subfolders, [Foo] and [Foo_1]: the name it looks up has been made
    unique first, so an existing subfolder is never found.  The sibling
    [create_or_get_folder_in_liferay] called twice returns the same id and
    creates one folder. *)
Theorem create_or_get_subfolder_twice_creates_two :
  let first := create_or_get_subfolder 5 7 "Foo" (liferay_world one_category_folder) in
  let second := create_or_get_subfolder 5 7 "Foo" (snd first) in
  let folder1 := create_or_get_folder_in_liferay "Noticias" "site" (liferay_world empty_site) in
  let folder2 := create_or_get_folder_in_liferay "Noticias" "site" (snd folder1) in
  fst first = Done 8 ∧ fst second = Done 9 ∧
  lr_children 7 (server (snd second))
    = [ {| folder_id := 8; folder_name := "Foo" |};
        {| folder_id := 9; folder_name := "Foo_1" |} ] ∧
  requests (snd second)
    = [ LrListSubfolders 7; LrCreateSubfolder 7 "Foo" "Subpasta para Foo";
        LrListSubfolders 7; LrCreateSubfolder 7 "Foo_1" "Subpasta para Foo_1" ] ∧
  fst folder1 = Done 1 ∧ fst folder2 = Done 1 ∧
  lr_children 0 (server (snd folder2))
    = [ {| folder_id := 1; folder_name := "Noticias" |} ] ∧
  folders_created (snd folder2) = 1.
Proof.
  intros first second folder1 folder2.
  repeat split; vm_compute; reflexivity.
Qed.

(** * Further properties *)

(** ** Unique names *)

Lemma generate_unique_name_loop_shape base (existing : gset string) :
  ∀ (fuel : nat) (new_name : string) (counter : Z) (name : string),
  generate_unique_name_loop fuel base existing new_name counter = Done name →
  (name = new_name ∧ new_name ∉ existing) ∨
  (new_name ∈ existing ∧
   ∃ k, counter ≤ k ∧ name = candidate base k ∧ (candidate base k ∉ existing) ∧
        ∀ j, counter ≤ j < k → candidate base j ∈ existing).
Proof.
  induction fuel as [|fuel IH]; intros new_name counter name; simpl;
    (destruct (decide (new_name ∈ existing)) as [Hin|Hout];
     [|intros [= <-]; by left]); [done|].
  intros Hrun. right. split; [done|].
  destruct (IH _ _ _ Hrun) as [[-> Hfree]|(Htaken & k & Hk & -> & Hfree & Hmin)].
  - exists counter. split; [lia|]. split; [done|]. split; [done|]. intros j Hj. lia.
  - exists k. split; [lia|]. split; [done|]. split; [done|].
    intros j Hj. destruct (decide (j = counter)) as [->|Hne]; [done|].
    apply Hmin. lia.
Qed.

(** X1. With fuel for the existing names [generate_unique_name] returns
    a name that is not taken: the base name itself when it is free, and
    otherwise the base name with the least suffix [_k], [k] from 1 on, that
    is free. *)
Theorem generate_unique_name_least_free (base : string) (existing : gset string)
    (fuel : nat) :
  (size existing ≤ fuel)%nat →
  ∃ name,
    generate_unique_name fuel base existing = Done name ∧
    (name ∉ existing) ∧
    ((name = base ∧ base ∉ existing) ∨
     (base ∈ existing ∧
      ∃ k, 1 ≤ k ∧ name = candidate base k ∧
           ∀ j, 1 ≤ j < k → candidate base j ∈ existing)).
Proof.
  intros Hfuel.
  destruct (generate_unique_name_done base existing) as (name & Hfree & Hall).
  exists name. split; [by apply Hall|]. split; [done|].
  specialize (Hall fuel Hfuel). unfold generate_unique_name in Hall.
  destruct (generate_unique_name_loop_shape _ _ _ _ _ _ Hall)
    as [[-> ?]|(? & k & ? & -> & _ & ?)]; [by left|right].
  split; [done|]. by exists k.
Qed.

Lemma generate_unique_name_least_free_witness :
  ∃ name,
    generate_unique_name 2 "Foo" {[ "Foo"; "Foo_1" ]} = Done name ∧
    (name ∉ ({[ "Foo"; "Foo_1" ]} : gset string)) ∧
    ((name = "Foo" ∧ "Foo" ∉ ({[ "Foo"; "Foo_1" ]} : gset string)) ∨
     ("Foo" ∈ ({[ "Foo"; "Foo_1" ]} : gset string) ∧
      ∃ k, 1 ≤ k ∧ name = candidate "Foo" k ∧
           ∀ j, 1 ≤ j < k → candidate "Foo" j ∈ ({[ "Foo"; "Foo_1" ]} : gset string))).
Proof.
  apply (generate_unique_name_least_free "Foo" {[ "Foo"; "Foo_1" ]} 2).
  vm_compute. lia.
Defined.

(** ** More on folder names *)

Section SanitizeMore.
Import PyStr PyStrFacts.

Lemma is_prefix_contains c old s :
  is_prefix old s = true → contains_char c old = true → contains_char c s = true.
Proof.
  revert s. induction old as [|a old IH]; intros [|b s]; simpl; try done.
  destruct (decide (a = b)) as [->|]; [|done].
  intros Hp. destruct (decide (b = c)); [done|]. by apply IH.
Qed.

(** A pattern with a character that the string lacks is never replaced. *)
Lemma replace_go_absent c old new s :
  contains_char c old = true → contains_char c s = false →
  replace_go old new 0 s = s.
Proof.
  intros Hold. induction s as [|a s IH]; [done|]. intros Hs.
  simpl in Hs. destruct (decide (a = c)); [done|].
  cbn [replace_go].
  destruct (is_prefix old (String a s)) eqn:Hp.
  - apply (is_prefix_contains c) in Hp; [|done]. simpl in Hp.
    destruct (decide (a = c)); [done|]. congruence.
  - by rewrite IH.
Qed.

Lemma replace_absent c old new s :
  contains_char c old = true → contains_char c s = false →
  replace old new s = s.
Proof.
  destruct old as [|o old]; [done|]. intros. by apply (replace_go_absent c).
Qed.

Lemma remove_absent_chars l s :
  (∀ c, c ∈ l → contains_char c s = false) →
  foldl (fun t a => replace (String a "") "" t) s l = s.
Proof.
  induction l as [|a l IH]; [done|]. intros H. cbn [foldl].
  rewrite (replace_absent a).
  - apply IH. intros c Hc. apply H. by right.
  - simpl. by destruct (decide (a = a)).
  - apply H. by left.
Qed.

Lemma slash_invalid : "/"%char ∈ chars invalid_chars.
Proof. unfold invalid_chars. simpl. do 4 right. left. Qed.

Lemma cut_trailing_dots_subset c t :
  contains_char c (cut_trailing_dots t) = true → contains_char c t = true.
Proof.
  unfold cut_trailing_dots. destruct (endswith ".." t); [|done].
  apply contains_char_take.
Qed.

Lemma rev_app_app s t acc :
  String.rev_app (s +:+ t) acc = String.rev_app t (String.rev_app s acc).
Proof. revert acc. induction s as [|a s IH]; intros acc; simpl; [done|apply IH]. Qed.

Lemma take_app_length s t n :
  take (String.length s + n) (s +:+ t) = s +:+ take n t.
Proof. induction s as [|a s IH]; simpl; [done|by rewrite IH]. Qed.

Lemma lower_app s t : lower (s +:+ t) = lower s +:+ lower t.
Proof. induction s as [|a s IH]; simpl; [done|by rewrite IH]. Qed.

Lemma reserved_name_no_dot s : s ∈ reserved_names → contains_char "."%char s = false.
Proof.
  unfold reserved_names. rewrite !elem_of_cons.
  intros H. repeat (destruct H as [->|H]; [done|]). by apply elem_of_nil in H.
Qed.

End SanitizeMore.

Lemma stripped_title_is_cut (title : string) :
  stripped_title title = cut_trailing_dots (remove_invalid_chars title).
Proof.
  unfold stripped_title. fold (cut_trailing_dots (remove_invalid_chars title)).
  assert (Hslash : PyStr.contains_char "/"%char
                     (cut_trailing_dots (remove_invalid_chars title)) = false).
  { destruct (PyStr.contains_char "/"%char
                (cut_trailing_dots (remove_invalid_chars title))) eqn:E; [|done].
    apply cut_trailing_dots_subset in E.
    by rewrite (remove_invalid_chars_clean _ _ slash_invalid) in E. }
  rewrite (replace_absent "/"%char "../") by done.
  by rewrite (replace_absent "/"%char "/...").
Qed.


(** X2. The two path-sequence replacements of [sanitize_folder_title] never
    change anything: the slash they contain has been removed before, so the
    title that is compared with the reserved words is the title without
    the invalid characters, cut by one trailing [..]. *)
Theorem stripped_title_without_replacements (title : string) :
  stripped_title title = cut_trailing_dots (remove_invalid_chars title).
Proof.
  unfold stripped_title. fold (cut_trailing_dots (remove_invalid_chars title)).
  assert (Hslash : PyStr.contains_char "/"%char
                     (cut_trailing_dots (remove_invalid_chars title)) = false).
  { destruct (PyStr.contains_char "/"%char
                (cut_trailing_dots (remove_invalid_chars title))) eqn:E; [|done].
    apply cut_trailing_dots_subset in E.
    by rewrite (remove_invalid_chars_clean _ _ slash_invalid) in E. }
  rewrite (replace_absent "/"%char "../") by done.
  by rewrite (replace_absent "/"%char "/...").
Qed.

(** X3. A title that needs no cleaning is returned as it is: when it is
    not empty, has none of the invalid characters, does not end in [..],
    is not a reserved word and has at most 255 characters,
    [sanitize_folder_title] returns the title itself. *)
Theorem sanitize_folder_title_clean (title : string) :
  title ≠ "" →
  (∀ c, c ∈ PyStr.chars invalid_chars → PyStr.contains_char c title = false) →
  PyStr.endswith ".." title = false →
  PyStr.lower title ∉ reserved_names →
  (String.length title ≤ 255)%nat →
  sanitize_folder_title title = Done title.
Proof.
  intros Hne Hclean Hdots Hres Hlen.
  unfold sanitize_folder_title. destruct (decide (title = "")); [done|].
  rewrite stripped_title_is_cut.
  unfold remove_invalid_chars. rewrite (remove_absent_chars _ _ Hclean).
  unfold cut_trailing_dots. rewrite Hdots. cbv zeta.
  rewrite bool_decide_eq_false_2 by done.
  f_equal. by apply PyStrFacts.take_all.
Qed.

Lemma sanitize_folder_title_clean_witness :
  sanitize_folder_title "Relatorio de Gestao 2023" = Done "Relatorio de Gestao 2023".
Proof.
  apply (sanitize_folder_title_clean "Relatorio de Gestao 2023").
  - done.
  - intros c. unfold invalid_chars. simpl. rewrite !elem_of_cons.
    intros H. repeat (destruct H as [->|H]; [done|]). by apply elem_of_nil in H.
  - reflexivity.
  - unfold reserved_names. simpl. rewrite !elem_of_cons.
    intros H. repeat (destruct H as [H|H]; [discriminate H|]). by apply elem_of_nil in H.
  - simpl. lia.
Defined.

(** X4. Only one trailing [..] is cut, and the cut is not repeated: a
    title that ends in four dots still yields a name that ends in [..]. *)
Theorem sanitize_folder_title_keeps_dots (s : string) :
  (∀ c, c ∈ PyStr.chars invalid_chars → PyStr.contains_char c s = false) →
  (String.length s ≤ 253)%nat →
  sanitize_folder_title (s +:+ "....") = Done (s +:+ "..") ∧
  PyStr.endswith ".." (s +:+ "..") = true.
Proof.
  intros Hclean Hlen.
  assert (Hend4 : PyStr.endswith ".." (s +:+ "....") = true).
  { unfold PyStr.endswith, String.rev. by rewrite rev_app_app. }
  assert (Hend2 : PyStr.endswith ".." (s +:+ "..") = true).
  { unfold PyStr.endswith, String.rev. by rewrite rev_app_app. }
  split; [|done].
  unfold sanitize_folder_title.
  destruct (decide (s +:+ "...." = "")) as [Hempty|_].
  { apply (f_equal String.length) in Hempty.
    rewrite PyStrFacts.length_app in Hempty. simpl in Hempty. lia. }
  rewrite stripped_title_is_cut.
  unfold remove_invalid_chars. rewrite remove_absent_chars.
  2: { intros c Hc. rewrite PyStrFacts.contains_char_app, (Hclean c Hc).
       revert Hc. unfold invalid_chars. simpl. rewrite !elem_of_cons.
       intros H. repeat (destruct H as [->|H]; [done|]). by apply elem_of_nil in H. }
  unfold cut_trailing_dots. rewrite Hend4.
  replace (String.length (s +:+ "....") - 2)%nat with (String.length s + 2)%nat
    by (rewrite PyStrFacts.length_app; simpl; lia).
  rewrite take_app_length. simpl (PyStr.take 2 "...."). cbv zeta.
  rewrite bool_decide_eq_false_2.
  - f_equal. apply PyStrFacts.take_all.
    rewrite PyStrFacts.length_app. simpl. lia.
  - intros Hres. apply reserved_name_no_dot in Hres.
    by rewrite lower_app, PyStrFacts.contains_char_app, orb_true_r in Hres.
Qed.

Lemma sanitize_folder_title_keeps_dots_witness :
  sanitize_folder_title "Ata...." = Done "Ata.." ∧
  PyStr.endswith ".." "Ata.." = true.
Proof.
  apply (sanitize_folder_title_keeps_dots "Ata").
  - intros c. unfold invalid_chars. simpl. rewrite !elem_of_cons.
    intros H. repeat (destruct H as [->|H]; [done|]). by apply elem_of_nil in H.
  - simpl. lia.
Defined.

(** ** URL rewriting *)

Lemma replace_no_occurrence old new s :
  occurs old s = false → PyStr.replace old new s = s.
Proof.
  destruct old as [|o old]; [by destruct s|].
  unfold PyStr.replace. induction s as [|a s IH]; [done|].
  cbn [occurs PyStr.replace_go]. intros H. apply orb_false_iff in H as [Hp Ho].
  rewrite Hp. by rewrite IH.
Qed.

Lemma replace_urls_absent (content : string) (url_mapping : list UrlMapping) :
  (∀ m, m ∈ url_mapping → occurs (original_url m) content = false) →
  replace_internal_links content url_mapping = content ∧
  replace_image_urls content url_mapping = content.
Proof.
  intros H. assert (Hr : replace_urls content url_mapping = content); [|done].
  induction url_mapping as [|m l IH]; [done|].
  unfold replace_urls. cbn [foldl].
  rewrite replace_no_occurrence by (apply H; by left).
  apply IH. intros m' Hm'. apply H. by right.
Qed.


(** X5. A mapping none of whose original URLs occurs in the content leaves
    the content as it is. *)
Theorem replace_urls_no_occurrence (content : string) (url_mapping : list UrlMapping) :
  (∀ m, m ∈ url_mapping → occurs (original_url m) content = false) →
  replace_internal_links content url_mapping = content ∧
  replace_image_urls content url_mapping = content.
Proof.
  intros H. assert (Hr : replace_urls content url_mapping = content); [|done].
  induction url_mapping as [|m l IH]; [done|].
  unfold replace_urls. cbn [foldl].
  rewrite replace_no_occurrence by (apply H; by left).
  apply IH. intros m' Hm'. apply H. by right.
Qed.

Lemma replace_urls_no_occurrence_witness :
  replace_internal_links (post_content (sample_post 1)) linking_mapping
    = post_content (sample_post 1) ∧
  replace_image_urls (post_content (sample_post 1)) linking_mapping
    = post_content (sample_post 1).
Proof.
  apply (replace_urls_no_occurrence (post_content (sample_post 1)) linking_mapping).
  intros m Hm. unfold linking_mapping in Hm. apply list_elem_of_singleton in Hm.
  subst m. reflexivity.
Defined.

(** The lookup written out on the reply to its request. *)
Lemma get_content_id_by_friendly_url_run {env : Environment}
    (friendly_url : string) (w : world) :
  ∃ o rep s',
    serve (LrSearchContent friendly_url) (server w) = (rep, s') ∧
    get_content_id_by_friendly_url friendly_url w
      = (o, log_exchange (LrSearchContent friendly_url) rep s' w) ∧
    (∀ id, o = Done (Some id) ↔
           ∃ r, rep = Reply r ∧ status_code r = 200 ∧
                ((∃ ids, resp_body r = JsonContents (id :: ids)) ∨
                 (∃ f fs, resp_body r = JsonFolders (f :: fs) ∧ folder_id f = id))) ∧
    (∀ e, o = Raised e ↔
          e = AttributeError ∧
          ∃ r, rep = Reply r ∧ status_code r = 200 ∧
               is_json_array (resp_body r) = true) ∧
    o ≠ Diverge.
Proof.
  unfold get_content_id_by_friendly_url, try_except, bind, http.
  destruct (serve (LrSearchContent friendly_url) (server w)) as [[|r] s'].
  { exists (Done None), NoReply, s'. split; [done|]. split; [done|].
    split; [|split; [|done]].
    - intros id. split; [done|]. by intros (r & ? & _).
    - intros e. split; [done|]. by intros (_ & r & ? & _). }
  destruct (status_code r =? 200) eqn:H200.
  2: { exists (Done None), (Reply r), s'. split; [done|]. split; [done|].
       apply Z.eqb_neq in H200.
       split; [|split; [|done]].
       - intros id. split; [done|]. by intros (r' & [= <-] & Hst & _).
       - intros e. split; [done|]. by intros (_ & r' & [= <-] & Hst & _). }
  apply Z.eqb_eq in H200.
  unfold lift, json_content_items, json_error.
  destruct (resp_body r) as [| |cs|ps|[|f fs]|fid|[|id0 ids]|p] eqn:Hb; simpl.
  - exists (Done None), (Reply r), s'. split; [done|]. split; [done|].
    split; [|split; [|done]].
    + intros id. split; [done|].
      intros (r' & [= <-] & _ & [(ids' & Hb')|(f' & fs' & Hb' & _)]); congruence.
    + intros e. split; [done|]. intros (_ & r' & [= <-] & _ & Ha).
      by rewrite Hb in Ha.
  - exists (Done None), (Reply r), s'. split; [done|]. split; [done|].
    split; [|split; [|done]].
    + intros id. split; [done|].
      intros (r' & [= <-] & _ & [(ids' & Hb')|(f' & fs' & Hb' & _)]); congruence.
    + intros e. split; [done|]. intros (_ & r' & [= <-] & _ & Ha).
      by rewrite Hb in Ha.
  - exists (Raised AttributeError), (Reply r), s'. split; [done|]. split; [done|].
    split; [|split; [|done]].
    + intros id. split; [done|].
      intros (r' & [= <-] & _ & [(ids' & Hb')|(f' & fs' & Hb' & _)]); congruence.
    + intros e. split.
      * intros [= <-]. split; [done|]. exists r. by rewrite Hb.
      * by intros (-> & _).
  - exists (Raised AttributeError), (Reply r), s'. split; [done|]. split; [done|].
    split; [|split; [|done]].
    + intros id. split; [done|].
      intros (r' & [= <-] & _ & [(ids' & Hb')|(f' & fs' & Hb' & _)]); congruence.
    + intros e. split.
      * intros [= <-]. split; [done|]. exists r. by rewrite Hb.
      * by intros (-> & _).
  - exists (Done None), (Reply r), s'. split; [done|]. split; [done|].
    split; [|split; [|done]].
    + intros id. split; [done|].
      intros (r' & [= <-] & _ & [(ids' & Hb')|(f' & fs' & Hb' & _)]); congruence.
    + intros e. split; [done|]. intros (_ & r' & [= <-] & _ & Ha).
      by rewrite Hb in Ha.
  - exists (Done (Some (folder_id f))), (Reply r), s'. split; [done|]. split; [done|].
    split; [|split; [|done]].
    + intros id. split.
      * intros [= <-]. exists r. split; [done|]. split; [done|]. right. by exists f, fs.
      * intros (r' & [= <-] & _ & [(ids' & Hb')|(f' & fs' & Hb' & <-)]); congruence.
    + intros e. split; [done|]. intros (_ & r' & [= <-] & _ & Ha).
      by rewrite Hb in Ha.
  - exists (Done None), (Reply r), s'. split; [done|]. split; [done|].
    split; [|split; [|done]].
    + intros id. split; [done|].
      intros (r' & [= <-] & _ & [(ids' & Hb')|(f' & fs' & Hb' & _)]); congruence.
    + intros e. split; [done|]. intros (_ & r' & [= <-] & _ & Ha).
      by rewrite Hb in Ha.
  - exists (Done None), (Reply r), s'. split; [done|]. split; [done|].
    split; [|split; [|done]].
    + intros id. split; [done|].
      intros (r' & [= <-] & _ & [(ids' & Hb')|(f' & fs' & Hb' & _)]); congruence.
    + intros e. split; [done|]. intros (_ & r' & [= <-] & _ & Ha).
      by rewrite Hb in Ha.
  - exists (Done (Some id0)), (Reply r), s'. split; [done|]. split; [done|].
    split; [|split; [|done]].
    + intros id. split.
      * intros [= <-]. exists r. split; [done|]. split; [done|]. left. by exists ids.
      * intros (r' & [= <-] & _ & [(ids' & Hb')|(f' & fs' & Hb' & _)]); congruence.
    + intros e. split; [done|]. intros (_ & r' & [= <-] & _ & Ha).
      by rewrite Hb in Ha.
  - exists (Done None), (Reply r), s'. split; [done|]. split; [done|].
    split; [|split; [|done]].
    + intros id. split; [done|].
      intros (r' & [= <-] & _ & [(ids' & Hb')|(f' & fs' & Hb' & _)]); congruence.
    + intros e. split; [done|]. intros (_ & r' & [= <-] & _ & Ha).
      by rewrite Hb in Ha.
Qed.

(** X6. [get_content_id_by_friendly_url] sends exactly one request and
    catches every [RequestException].  It returns an id exactly when the
    reply has status 200 and a JSON object whose list of items is not
    empty, and the id is that of the first item.  It raises exactly when
    the reply has status 200 and a JSON array as body: the [.get] on the
    array raises [AttributeError], which the function does not catch.  In
    every other case it returns [None]. *)
Theorem get_content_id_by_friendly_url_outcome {env : Environment}
    (friendly_url : string) (w : world) :
  ∃ o rep s',
    serve (LrSearchContent friendly_url) (server w) = (rep, s') ∧
    get_content_id_by_friendly_url friendly_url w
      = (o, log_exchange (LrSearchContent friendly_url) rep s' w) ∧
    (∀ id, o = Done (Some id) ↔
           ∃ r, rep = Reply r ∧ status_code r = 200 ∧
                ((∃ ids, resp_body r = JsonContents (id :: ids)) ∨
                 (∃ f fs, resp_body r = JsonFolders (f :: fs) ∧ folder_id f = id))) ∧
    (∀ e, o = Raised e ↔
          e = AttributeError ∧
          ∃ r, rep = Reply r ∧ status_code r = 200 ∧
               is_json_array (resp_body r) = true) ∧
    o ≠ Diverge.
Proof.
  destruct (serve (LrSearchContent friendly_url) (server w)) as [rep s'] eqn:Hs.
  destruct (get_content_id_by_friendly_url_run friendly_url w)
    as (o & rep' & s'' & Hs' & Hrest).
  rewrite Hs in Hs'. injection Hs' as <- <-.
  by exists o, rep, s'.
Qed.

(** X7. A post whose content holds none of the mapped original URLs is
    never updated in the second pass: whatever the servers answer, the
    lookup is the only request, and the step returns normally unless the
    lookup itself raises, which it does only with [AttributeError] on a
    JSON array. *)
Theorem relink_post_without_links {env : Environment}
    (url_mapping : list UrlMapping) (post : Post) (w : world) :
  (∀ m, m ∈ url_mapping → occurs (original_url m) (post_content post) = false) →
  ∃ o w',
    relink_post url_mapping post w = (o, w') ∧
    requests w' =
      requests w ++ [LrSearchContent (generate_friendly_url (post_title post))] ∧
    (o = Done tt ∧
     (∀ e, fst (get_content_id_by_friendly_url
                  (generate_friendly_url (post_title post)) w) ≠ Raised e)
     ∨ o = Raised AttributeError ∧
       fst (get_content_id_by_friendly_url
              (generate_friendly_url (post_title post)) w) = Raised AttributeError).
Proof.
  intros Hno.
  destruct (get_content_id_by_friendly_url_run
              (generate_friendly_url (post_title post)) w)
    as (o & rep & s' & _ & Hget & _ & Hraise & Hnd).
  unfold relink_post, bind. rewrite Hget. cbn [fst].
  destruct o as [found|e|]; [| |done].
  - exists (Done tt),
      (log_exchange (LrSearchContent (generate_friendly_url (post_title post))) rep s' w).
    split; [|split; [apply requests_log_exchange|by left]].
    destruct (truthy_id found); [|done].
    destruct (replace_urls_absent _ _ Hno) as [-> _].
    by destruct (decide (post_content post ≠ post_content post)).
  - destruct (proj1 (Hraise e) eq_refl) as [-> _].
    exists (Raised AttributeError),
      (log_exchange (LrSearchContent (generate_friendly_url (post_title post))) rep s' w).
    split; [done|]. split; [apply requests_log_exchange|by right].
Qed.

Lemma relink_post_without_links_witness :
  ∃ o w',
    relink_post linking_mapping (sample_post 1) (cms_world linking_store) = (o, w') ∧
    requests w' =
      requests (cms_world linking_store)
      ++ [LrSearchContent (@generate_friendly_url cms_env (post_title (sample_post 1)))] ∧
    (o = Done tt ∧
     (∀ e, fst (@get_content_id_by_friendly_url cms_env
                  (@generate_friendly_url cms_env (post_title (sample_post 1)))
                  (cms_world linking_store)) ≠ Raised e)
     ∨ o = Raised AttributeError ∧
       fst (@get_content_id_by_friendly_url cms_env
              (@generate_friendly_url cms_env (post_title (sample_post 1)))
              (cms_world linking_store)) = Raised AttributeError).
Proof.
  apply (relink_post_without_links linking_mapping (sample_post 1)
           (cms_world linking_store)).
  intros m Hm. unfold linking_mapping in Hm. apply list_elem_of_singleton in Hm.
  subst m. reflexivity.
Defined.

(** ** Image URLs *)

Lemma is_prefix_app p s : PyStr.is_prefix p (p +:+ s) = true.
Proof. induction p as [|a p IH]; simpl; [done|]. by destruct (decide (a = a)). Qed.

(** X8. Every URL that [filter_valid_image_urls] keeps is one of the given
    URLs and, once [download_image] has resolved a relative path, begins
    with the address of the source site; the filter keeps the order and
    filtering again changes nothing. *)
Theorem filter_valid_image_urls_source_site (image_urls : list string) :
  (∀ url, url ∈ filter_valid_image_urls image_urls →
     url ∈ image_urls ∧
     PyStr.startswith "https://www2.tc.df.gov.br" (download_url url) = true) ∧
  sublist (filter_valid_image_urls image_urls) image_urls ∧
  filter_valid_image_urls (filter_valid_image_urls image_urls)
    = filter_valid_image_urls image_urls.
Proof.
  split; [|split].
  - intros url Hin. unfold filter_valid_image_urls in Hin.
    apply list_elem_of_In, List.filter_In in Hin as [Hin Hok].
    split; [by apply list_elem_of_In|].
    unfold download_url, PyStr.startswith in *.
    destruct (PyStr.is_prefix "/" url) eqn:Hslash; [apply is_prefix_app|].
    apply orb_true_iff in Hok as [Hok|Hok]; [|by destruct url; simpl in *; try done; case_decide; congruence].
    apply orb_true_iff in Hok as [Hok|Hok]; [done|].
    destruct url; simpl in *; try done. case_decide; congruence.
  - unfold filter_valid_image_urls.
    induction image_urls as [|u l IH]; simpl; [constructor|].
    destruct (_ || _); [by constructor|by apply sublist_cons].
  - unfold filter_valid_image_urls.
    induction image_urls as [|u l IH]; simpl; [done|].
    destruct (_ || _) eqn:E; [|done]. simpl. rewrite E. by f_equal.
Qed.

(** ** Friendly URLs *)

Section FriendlyUrl.
Import PyStr.

Lemma chars_rev_app s acc :
  chars (String.rev_app s acc) = reverse (chars s) ++ chars acc.
Proof.
  revert acc. induction s as [|a s IH]; intros acc; simpl; [done|].
  rewrite IH, reverse_cons, <- app_assoc. done.
Qed.

Lemma chars_rev s : chars (String.rev s) = reverse (chars s).
Proof. unfold String.rev. by rewrite chars_rev_app, app_nil_r. Qed.

Lemma chars_lstrip_hyphen s : chars (lstrip_hyphen s) = drop_hyphens (chars s).
Proof.
  induction s as [|a s IH]; simpl; [done|]. by destruct (bool_decide (a = hyphen)).
Qed.

Lemma drop_hyphens_head l : head (drop_hyphens l) ≠ Some hyphen.
Proof.
  induction l as [|a l IH]; simpl; [done|].
  case_bool_decide; [done|]. simpl. congruence.
Qed.

Lemma drop_hyphens_last l : drop_hyphens l ≠ [] → last (drop_hyphens l) = last l.
Proof.
  induction l as [|a l IH]; simpl; [done|].
  case_bool_decide; [|done]. intros Hne. rewrite IH by done.
  destruct l; [done|]. done.
Qed.

Lemma drop_hyphens_subset c l : c ∈ drop_hyphens l → c ∈ l.
Proof.
  induction l as [|a l IH]; simpl; [done|].
  case_bool_decide; [|done]. intros Hin. right. by apply IH.
Qed.

Lemma chars_strip_hyphen s :
  chars (strip_hyphen s) = reverse (drop_hyphens (reverse (drop_hyphens (chars s)))).
Proof.
  unfold strip_hyphen.
  by rewrite chars_rev, chars_lstrip_hyphen, chars_rev, chars_lstrip_hyphen.
Qed.

Lemma strip_hyphen_ends s :
  head (chars (strip_hyphen s)) ≠ Some hyphen ∧
  last (chars (strip_hyphen s)) ≠ Some hyphen.
Proof.
  rewrite chars_strip_hyphen. set (T := drop_hyphens (chars s)).
  split.
  - rewrite head_reverse.
    destruct (decide (drop_hyphens (reverse T) = [])) as [->|Hne]; [done|].
    rewrite drop_hyphens_last, last_reverse by done. apply drop_hyphens_head.
  - rewrite last_reverse. apply drop_hyphens_head.
Qed.

Lemma strip_hyphen_subset c s : c ∈ chars (strip_hyphen s) → c ∈ chars s.
Proof.
  rewrite chars_strip_hyphen, elem_of_reverse. intros H.
  apply drop_hyphens_subset in H. rewrite elem_of_reverse in H.
  by apply drop_hyphens_subset in H.
Qed.

Lemma drop_non_word_chars c s :
  c ∈ chars (drop_non_word s) →
  is_word_char c || isspace_char c || bool_decide (c = hyphen) = true.
Proof.
  induction s as [|a s IH]; simpl; [by intros H; apply elem_of_nil in H|].
  destruct (is_word_char a || isspace_char a || bool_decide (a = hyphen)) eqn:E;
    [|done].
  simpl. rewrite elem_of_cons. by intros [->|H]; [|apply IH].
Qed.

Lemma spaces_to_hyphen_chars c in_run s :
  c ∈ chars (spaces_to_hyphen in_run s) →
  c = hyphen ∨ (c ∈ chars s ∧ isspace_char c = false).
Proof.
  revert in_run. induction s as [|a s IH]; intros in_run; simpl;
    [by intros H; apply elem_of_nil in H|].
  destruct (isspace_char a) eqn:Ha.
  - destruct in_run; simpl.
    + intros H. destruct (IH true H) as [?|[? ?]]; [by left|right].
      split; [by right|done].
    + rewrite elem_of_cons. intros [->|H]; [by left|].
      destruct (IH true H) as [?|[? ?]]; [by left|right].
      split; [by right|done].
  - simpl. rewrite !elem_of_cons. intros [->|H]; [right; split; [by left|done]|].
    destruct (IH false H) as [?|[? ?]]; [by left|right]. split; [by right|done].
Qed.

Lemma lower_chars c s : c ∈ chars (lower s) → ∃ c0, c0 ∈ chars s ∧ c = lower_char c0.
Proof.
  induction s as [|a s IH]; simpl; [by intros H; apply elem_of_nil in H|].
  rewrite elem_of_cons. intros [->|H].
  - exists a. split; [by left|done].
  - destruct (IH H) as (c0 & ? & ?). exists c0. split; [by right|done].
Qed.

Lemma lower_word_char c0 :
  is_word_char c0 = true ∨ c0 = hyphen →
  (is_word_char (lower_char c0) = true ∨ lower_char c0 = hyphen) ∧
  isspace_char (lower_char c0) = false ∧
  lower_char (lower_char c0) = lower_char c0.
Proof.
  destruct c0 as [[] [] [] [] [] [] [] []]; vm_compute; intros [H|H];
    try discriminate H; repeat split; auto.
Qed.

End FriendlyUrl.

(** X9. Whatever [unidecode] returns, the friendly URL of a title is made
    of word characters and hyphens only, holds no white space and no
    capital letter, and neither begins nor ends with a hyphen. *)
Theorem generate_friendly_url_shape {env : Environment} (title : string) :
  let slug := generate_friendly_url title in
  (∀ c, c ∈ PyStr.chars slug →
     (is_word_char c = true ∨ c = hyphen) ∧
     PyStr.isspace_char c = false ∧
     PyStr.lower_char c = c) ∧
  head (PyStr.chars slug) ≠ Some hyphen ∧
  last (PyStr.chars slug) ≠ Some hyphen.
Proof.
  intros slug. split; [|apply strip_hyphen_ends].
  intros c Hc. subst slug. unfold generate_friendly_url in Hc.
  apply strip_hyphen_subset, lower_chars in Hc as (c0 & Hc0 & ->).
  apply lower_word_char.
  apply spaces_to_hyphen_chars in Hc0 as [->|[Hc0 Hns]]; [by right|].
  apply drop_non_word_chars in Hc0. rewrite Hns, orb_false_r in Hc0.
  apply orb_true_iff in Hc0 as [?|Hh]; [by left|right].
  by apply bool_decide_eq_true in Hh.
Qed.

(** ** Creating a content *)

Section ProcessPost.

Context {env : Environment}.

Lemma liferay_ids_spec (categories : list Z) (category_mapping : list CategoryMapping) id :
  id ∈ (categories ≫= (fun category =>
          liferay_id <$>
            List.filter (fun mapping => wordpress_id mapping =? category)
                        category_mapping)) ↔
  ∃ m, m ∈ category_mapping ∧ wordpress_id m ∈ categories ∧ liferay_id m = id.
Proof.
  rewrite list_elem_of_bind. split.
  - intros (c & Hid & Hc). apply list_elem_of_fmap in Hid as (m & -> & Hm).
    apply list_elem_of_In, List.filter_In in Hm as [Hm Heq].
    apply Z.eqb_eq in Heq. exists m. split; [by apply list_elem_of_In|].
    split; [by rewrite Heq|done].
  - intros (m & Hm & Hc & <-). exists (wordpress_id m). split; [|done].
    apply list_elem_of_fmap. exists m. split; [done|].
    apply list_elem_of_In, List.filter_In. split; [by apply list_elem_of_In|].
    apply Z.eqb_refl.
Qed.

End ProcessPost.

(** X10. When the date of a post can be reformatted (or the post has
    none), [process_post] sends exactly one creation request.  The payload
    has the title of the post, its friendly URL, the Liferay ids of all
    mapping entries whose WordPress id is a category of the post, the
    content with the image URLs replaced as first field and the excerpt as
    second field when it is not empty.  The call returns normally, except
    that a reply of status 200 or 201 whose body is a JSON array makes
    [AttributeError] leave it.  The URL-mapping file gets one entry, the
    link of the post with the path the reply reports (the placeholder when
    the JSON object has no such key), exactly when the reply has status
    200 or 201 and a JSON object as body; otherwise the file is
    untouched. *)
Theorem process_post_creates_once {env : Environment} (post : Post)
    (url_mapping : list UrlMapping) (category_mapping : list CategoryMapping)
    (w : world) :
  (∀ d, post_date_gmt post = Some d → ∃ d', reformat_date d = Done d') →
  ∃ payload rep s' w',
    serve (LrCreateContent payload) (server w) = (rep, s') ∧
    process_post post url_mapping category_mapping w
      = (if created_with_array rep then Raised AttributeError else Done tt, w') ∧
    traffic w' = traffic w ++ [(LrCreateContent payload, rep)] ∧
    server w' = s' ∧
    title payload = post_title post ∧
    friendlyUrlPath payload = generate_friendly_url (post_title post) ∧
    contentStructureId payload = content_structure_id ∧
    (∀ id, id ∈ taxonomyCategoryIds payload ↔
           ∃ m, m ∈ category_mapping ∧
                wordpress_id m ∈ post_categories post ∧ liferay_id m = id) ∧
    contentFields payload =
      {| field_name := "TextoMateria";
         field_data := replace_image_urls (post_content post) url_mapping |}
      :: match post_excerpt post with
         | Some excerpt =>
             if decide (excerpt = "") then []
             else [ {| field_name := "Chamada"; field_data := excerpt |} ]
         | None => []
         end ∧
    url_mapping_file w' =
      match created_path rep with
      | Some path =>
          Some (persisted_urls w ++
                [ {| original_url := default url_antiga_nao_encontrada (post_link post);
                     new_url := path |} ])
      | None => url_mapping_file w
      end ∧
    category_mapping_file w' = category_mapping_file w.
Proof.
  intros Hdate. unfold process_post.
  set (ids := post_categories post ≫= _).
  assert (Hd : ∃ od,
    (match post_date_gmt post with
     | Some d => d' <- lift (format_date_for_liferay d) ;; ret (Some d')
     | None => ret None
     end)%py w = (Done od, w)).
  { destruct (post_date_gmt post) as [d|]; [|by eexists].
    destruct (Hdate d eq_refl) as [d' Hd'].
    unfold bind, lift, format_date_for_liferay. rewrite Hd'. by eexists. }
  destruct Hd as [od Hd]. rewrite (bind_done _ _ _ _ _ Hd).
  match goal with |- context [LrCreateContent ?p] => set (payload := p) end.
  destruct (serve (LrCreateContent payload) (server w)) as [rep s'] eqn:Hs.
  exists payload, rep, s'.
  unfold try_except, bind at 1. rewrite (http_serve _ _ _ _ Hs).
  destruct rep as [|r].
  { eexists. split; [done|]. split; [reflexivity|]. simpl.
    repeat split; try done. apply liferay_ids_spec. apply liferay_ids_spec. }
  unfold created_path, created_with_array.
  destruct ((status_code r =? 200) || (status_code r =? 201)).
  2: { eexists. split; [done|]. split; [reflexivity|]. simpl.
       repeat split; try done. apply liferay_ids_spec. apply liferay_ids_spec. }
  unfold bind at 1, lift, json_friendly_url_path, json_error.
  rewrite andb_true_l.
  destruct (resp_body r) as [| |cs|ps|fs|fid|cids|[path|]]; cbn [is_json_array];
    (eexists; split; [done|]; split; [reflexivity|]; simpl;
     repeat split; try done; apply liferay_ids_spec).
Qed.

Lemma process_post_creates_once_witness :
  ∃ w',
    process_post linking_post [] sample_mapping (cms_world linking_store)
      = (Done tt, w') ∧
    length (traffic w') = 1%nat ∧
    category_mapping_file w' = None.
Proof.
  destruct (process_post_creates_once linking_post [] sample_mapping
              (cms_world linking_store))
    as (payload & rep & s' & w' & Hs & Hrun & Htr & _ & _ & _ & _ & _ & _ & _ & Hcat).
  - intros d Hd. discriminate Hd.
  - exists w'. split; [|split; [by rewrite Htr|exact Hcat]].
    rewrite Hrun. f_equal.
    assert (Hrep : created_with_array rep = false); [|by rewrite Hrep].
    cbn in Hs. unfold cms_serve in Hs. cbn in Hs. by injection Hs as <- _.
Defined.

Section MainAbort.

Context {env : Environment}.

Lemma for_each_app {A} (l1 l2 : list A) (f : A → M unit) w :
  for_each (l1 ++ l2) f w = bind (for_each l1 f) (fun _ => for_each l2 f) w.
Proof.
  revert w. induction l1 as [|x l1 IH]; intros w; cbn [for_each app]; [done|].
  unfold bind. destruct (f x w) as [[[]|e|] w1]; [|done|done].
  rewrite IH. reflexivity.
Qed.

Lemma process_post_bad_date post url_mapping category_mapping w d e :
  post_date_gmt post = Some d → reformat_date d = Raised e →
  process_post post url_mapping category_mapping w = (Raised e, w).
Proof.
  intros Hd He. unfold process_post. rewrite Hd.
  unfold bind at 1 2, lift, format_date_for_liferay. by rewrite He.
Qed.

End MainAbort.

(** X11. A post whose [date_gmt] cannot be parsed stops the whole run:
    [process_post] raises before it sends anything, [main] catches the
    exception at the top and ends in the world that the posts before it
    left, so the posts after it are not created and the second pass does
    not run. *)
Theorem main_stops_at_unparsable_date {env : Environment} (fuel : nat) (w : world)
    (pre rest : list Post) (bad : Post) (d : string) (e : exn) (w1 w2 : world) :
  fetch_posts fuel (wordpress_id <$> persisted_categories w) w
    = (Done (pre ++ bad :: rest), w1) →
  for_each pre
    (fun post => process_post post (persisted_urls w1) (persisted_categories w)) w1
    = (Done tt, w2) →
  post_date_gmt bad = Some d →
  reformat_date d = Raised e →
  process_post bad (persisted_urls w1) (persisted_categories w) w2 = (Raised e, w2) ∧
  main fuel w = (Done tt, w2).
Proof.
  intros Hfetch Hpre Hd He.
  pose proof (process_post_bad_date bad (persisted_urls w1) (persisted_categories w)
                w2 d e Hd He) as Hbad.
  split; [exact Hbad|].
  unfold main, try_except, bind at 1, load_categories_mapping.
  unfold persisted_categories in *. unfold bind at 1. rewrite Hfetch.
  unfold bind at 1, load_url_mapping. unfold persisted_urls in *.
  unfold bind at 1. rewrite for_each_app. unfold bind at 1. rewrite Hpre.
  cbn [for_each]. unfold bind at 1. by rewrite Hbad.
Qed.

Lemma main_stops_at_unparsable_date_witness :
  ∃ w2,
    main 3 (site_world posts_with_bad_date) = (Done tt, w2) ∧
    requests w2 =
      [ WpGetPosts 100;
        LrCreateContent
          {| contentStructureId := "NOTICIA"; title := "primeira";
             friendlyUrlPath := "primeira";
             dateCreated := Some "2024-05-01T10:00:00.000Z";
             taxonomyCategoryIds := [];
             contentFields :=
               [ {| field_name := "TextoMateria"; field_data := "<p>texto</p>" |} ] |} ] ∧
    sc_title <$> cms_contents (server w2) = ["primeira"].
Proof.
  eexists. split.
  - eapply (main_stops_at_unparsable_date 3 (site_world posts_with_bad_date)
              [dated_post 1 "primeira" "2024-05-01T10:00:00"]
              [dated_post 3 "terceira" "2024-05-03T10:00:00"]
              (dated_post 2 "segunda" "ontem") "ontem"
              (ValueError "time data does not match format")).
    + vm_compute. reflexivity.
    + vm_compute. reflexivity.
    + reflexivity.
    + reflexivity.
  - split; reflexivity.
Defined.

(** ** The local state only grows *)

Section Growing.

Context {env : Environment}.

Lemma grows_refl w : grows w w.
Proof. unfold grows. split; [done|]. split; [done|]. split; [done|lia]. Qed.

Lemma grows_trans w1 w2 w3 : grows w1 w2 → grows w2 w3 → grows w1 w3.
Proof.
  intros (U1 & C1 & T1 & F1) (U2 & C2 & T2 & F2). unfold grows.
  split; [by etrans|]. split; [congruence|]. split; [by etrans|lia].
Qed.

Lemma growing_ret {A} (a : A) : growing (ret a).
Proof. intros w. apply grows_refl. Qed.

Lemma growing_raise {A} e : growing (@raise _ A e).
Proof. intros w. apply grows_refl. Qed.

Lemma growing_diverge {A} : growing (@diverge _ A).
Proof. intros w. apply grows_refl. Qed.

Lemma growing_lift {A} (o : outcome A) : growing (lift o).
Proof. intros w. apply grows_refl. Qed.

Lemma growing_http req : growing (http req).
Proof.
  intros w. unfold http, grows.
  destruct (serve req (server w)) as [[|r] s']; simpl;
    (split; [done|]; split; [done|]; split; [by apply prefix_app_r|lia]).
Qed.

Lemma growing_bind {A B} (m : M A) (k : A → M B) :
  growing m → (∀ a, growing (k a)) → growing (bind m k).
Proof.
  intros Hm Hk w. unfold bind. pose proof (Hm w) as H1.
  destruct (m w) as [[a|e|] w1]; simpl in *; [|exact H1|exact H1].
  exact (grows_trans _ _ _ H1 (Hk a w1)).
Qed.

Lemma growing_try_except {A} (body : M A) handler :
  growing body → (∀ e h, handler e = Some h → growing h) →
  growing (try_except body handler).
Proof.
  intros Hb Hh w. unfold try_except. pose proof (Hb w) as H1.
  destruct (body w) as [[a|e|] w1]; simpl in *; [exact H1| |exact H1].
  destruct (handler e) as [h|] eqn:He; [|exact H1].
  exact (grows_trans _ _ _ H1 (Hh e h He w1)).
Qed.

Lemma growing_load_url_mapping : growing load_url_mapping.
Proof. intros w. apply grows_refl. Qed.

Lemma growing_save_new_url_mapping o n : growing (save_new_url_mapping o n).
Proof.
  intros w. unfold grows, persisted_urls. simpl.
  split; [by apply prefix_app_r|]. split; [done|]. split; [done|lia].
Qed.

Lemma growing_count_folder_created : growing count_folder_created.
Proof.
  intros w. unfold grows. simpl. split; [done|]. split; [done|]. split; [done|lia].
Qed.

Lemma growing_for_each {A} (l : list A) (f : A → M unit) :
  (∀ x, growing (f x)) → growing (for_each l f).
Proof.
  intros Hf. induction l as [|x l IH]; [apply growing_ret|].
  apply growing_bind; [apply Hf|]. intros _. exact IH.
Qed.

Lemma growing_fetch_category_loop fuel c posts page :
  growing (fetch_category_loop fuel c posts page).
Proof.
  revert posts page. induction fuel as [|fuel IH]; intros posts page;
    [apply growing_diverge|].
  cbn [fetch_category_loop]. apply growing_bind; [apply growing_http|].
  intros r. destruct (status_code r =? 200); [|apply growing_raise].
  apply growing_bind; [apply growing_lift|]. intros data.
  destruct (_ <=? _); [apply growing_ret|apply IH].
Qed.

Lemma growing_fetch_posts fuel cats : growing (fetch_posts fuel cats).
Proof.
  unfold fetch_posts. destruct cats as [|c cats].
  - apply growing_bind; [apply growing_http|]. intros r.
    destruct (status_code r =? 200); [apply growing_lift|apply growing_raise].
  - generalize (@nil Post). induction (c :: cats) as [|c' l IH]; intros posts;
      [apply growing_ret|].
    cbn [fetch_categories]. apply growing_bind;
      [apply growing_fetch_category_loop|]. intros posts'. apply IH.
Qed.

Lemma growing_process_post post url_mapping category_mapping :
  growing (process_post post url_mapping category_mapping).
Proof.
  unfold process_post. apply growing_bind.
  { destruct (post_date_gmt post); [|apply growing_ret].
    apply growing_bind; [apply growing_lift|]. intros. apply growing_ret. }
  intros od. apply growing_try_except.
  - apply growing_bind; [apply growing_http|]. intros r.
    destruct (_ || _); [|apply growing_ret].
    apply growing_bind; [apply growing_lift|]. intros p.
    apply growing_save_new_url_mapping.
  - intros e h. destruct (is_RequestException e); [|done].
    intros [= <-]. apply growing_ret.
Qed.

Lemma growing_relink_post url_mapping post : growing (relink_post url_mapping post).
Proof.
  unfold relink_post. apply growing_bind.
  { apply growing_try_except.
    - apply growing_bind; [apply growing_http|]. intros r.
      destruct (status_code r =? 200); [|apply growing_ret].
      apply growing_bind; [apply growing_lift|]. intros [|id ids]; apply growing_ret.
    - intros e h. destruct (is_RequestException e); [|done].
      intros [= <-]. apply growing_ret. }
  intros o. destruct (truthy_id o); [|apply growing_ret].
  destruct (decide _); [|apply growing_ret].
  apply growing_try_except.
  - apply growing_bind; [apply growing_http|]. intros. apply growing_ret.
  - intros e h. destruct (is_RequestException e); [|done].
    intros [= <-]. apply growing_ret.
Qed.

Lemma growing_main fuel : growing (main fuel).
Proof.
  unfold main. apply growing_try_except.
  - apply growing_bind; [intros w; apply grows_refl|]. intros cm.
    apply growing_bind; [apply growing_fetch_posts|]. intros posts.
    apply growing_bind; [apply growing_load_url_mapping|]. intros um.
    apply growing_bind.
    { apply growing_for_each. intros p. apply growing_process_post. }
    intros _. apply growing_bind; [apply growing_load_url_mapping|]. intros um'.
    apply growing_for_each. intros p. apply growing_relink_post.
  - intros e h [= <-]. apply growing_ret.
Qed.

End Growing.

(** X12. A run of the content migrator only adds to its files, whatever
    the servers answer and whether or not it is cut short: every entry that
    [url_mapping.json] had before [main] is still there afterwards, at the
    same position, and [category_mapping.json] is not written. *)
Theorem main_keeps_url_mapping {env : Environment} (fuel : nat) (w : world) :
  let w' := snd (main fuel w) in
  (∀ i entry, persisted_urls w !! i = Some entry →
              persisted_urls w' !! i = Some entry) ∧
  category_mapping_file w' = category_mapping_file w ∧
  traffic w `prefix_of` traffic w'.
Proof.
  intros w'. destruct (growing_main fuel w) as (Hu & Hc & Ht & _).
  split; [|by split]. intros i entry Hi.
  by apply (prefix_lookup_Some _ _ _ _ Hi).
Qed.

(** ** Category folders *)

Section CategoryFolder.

Context {env : Environment}.

Lemma create_or_get_folder_eq title site w :
  create_or_get_folder_in_liferay title site w =
    match sanitize_folder_title title with
    | Raised e => (Raised e, w)
    | Diverge => (Diverge, w)
    | Done t =>
        let '(rep, s1) := serve (LrListSiteFolders site) (server w) in
        let w1 := log_exchange (LrListSiteFolders site) rep s1 w in
        match rep with
        | NoReply => (Raised ConnectionError, w1)
        | Reply r =>
            match raise_for_status r with
            | Raised e => (Raised e, w1)
            | Diverge => (Diverge, w1)
            | Done _ =>
                match json_folder_items r with
                | Raised e => (Raised e, w1)
                | Diverge => (Diverge, w1)
                | Done folders =>
                    match find_folder t folders with
                    | Some id => (Done id, w1)
                    | None =>
                        let req := LrCreateSiteFolder site t ("Pasta para " +:+ t) in
                        let '(rep2, s2) := serve req (server w1) in
                        let w2 := log_exchange req rep2 s2 w1 in
                        match rep2 with
                        | NoReply => (Raised ConnectionError, w2)
                        | Reply r2 =>
                            match raise_for_status r2 with
                            | Raised e => (Raised e, w2)
                            | Diverge => (Diverge, w2)
                            | Done _ =>
                                match json_id r2 with
                                | Raised e => (Raised e, w2)
                                | Diverge => (Diverge, w2)
                                | Done id => (Done id, counted w2)
                                end
                            end
                        end
                    end
                end
            end
        end
    end.
Proof.
  unfold create_or_get_folder_in_liferay, bind at 1, lift at 1.
  destruct (sanitize_folder_title title) as [t|e|]; [|done|done].
  unfold try_except, bind at 1, http at 1.
  destruct (serve (LrListSiteFolders site) (server w)) as [[|r] s1]; [done|].
  unfold bind at 1, lift at 1. destruct (raise_for_status r); [|done|done].
  unfold bind at 1, lift at 1.
  destruct (json_folder_items r) as [folders|e|]; [|done|done].
  destruct (find_folder t folders); [done|].
  unfold bind at 1, http at 1. cbv zeta.
  destruct (serve _ (server (log_exchange _ _ _ _))) as [[|r2] s2]; [done|].
  unfold bind at 1, lift at 1. destruct (raise_for_status r2); [|done|done].
  unfold bind at 1, lift at 1. by destruct (json_id r2).
Qed.

End CategoryFolder.

(** X13. [create_or_get_folder_in_liferay] passes every failure on: an
    empty title raises [ValueError] before any request, and when the
    listing request fails the call raises after that one request, without
    trying to create the folder. *)
Theorem create_or_get_folder_propagates {env : Environment} (site : string)
    (w : world) :
  (∃ msg, create_or_get_folder_in_liferay "" site w = (Raised (ValueError msg), w)) ∧
  (∀ title rep s1,
     title ≠ "" →
     serve (LrListSiteFolders site) (server w) = (rep, s1) →
     request_failed rep = true →
     ∃ e, create_or_get_folder_in_liferay title site w
            = (Raised e, log_exchange (LrListSiteFolders site) rep s1 w) ∧
          is_RequestException e = true).
Proof.
  split; [by eexists|].
  intros title rep s1 Hne Hs Hfail. rewrite create_or_get_folder_eq.
  unfold sanitize_folder_title. destruct (decide (title = "")); [done|].
  rewrite Hs. destruct rep as [|r]; [by exists ConnectionError|].
  rewrite (raise_for_status_raised _ Hfail). by eexists.
Qed.

Lemma find_folder_app_new name l f :
  find_folder name l = None → folder_name f = name →
  find_folder name (l ++ [f]) = Some (folder_id f).
Proof.
  unfold find_folder. intros Hnone Hname.
  induction l as [|a l IH]; simpl in *.
  - by rewrite bool_decide_eq_true_2.
  - destruct (bool_decide (folder_name a = name)); [done|]. by apply IH.
Qed.

Lemma lr_children_add parent p f s next :
  lr_children parent
    {| lr_folders := lr_folders s ++ [(p, f)]; lr_next_id := next |}
  = lr_children parent s ++ (if p =? parent then [f] else []).
Proof.
  unfold lr_children. simpl. rewrite List.filter_app, fmap_app. simpl.
  by destruct (p =? parent).
Qed.

(** X14. Against the folder model, [create_or_get_folder_in_liferay] is
    idempotent: when a call has returned an id, a second call with the same
    title returns the same id after a single listing request, and neither
    the folders nor the counter of created folders change. *)
Theorem create_or_get_folder_idempotent (title site : string)
    (w : @world liferay_env) (id : Z) (w1 : @world liferay_env) :
  create_or_get_folder_in_liferay title site w = (Done id, w1) →
  ∃ w2,
    create_or_get_folder_in_liferay title site w1 = (Done id, w2) ∧
    server w2 = server w1 ∧
    folders_created w2 = folders_created w1 ∧
    requests w2 = requests w1 ++ [LrListSiteFolders site].
Proof.
  rewrite !create_or_get_folder_eq.
  destruct (sanitize_folder_title title) as [t|e|]; [|done|done].
  simpl.
  destruct (find_folder t (lr_children 0 (server w))) as [id0|] eqn:Hfind.
  - intros [= <- <-]. simpl. rewrite Hfind.
    eexists. split; [reflexivity|]. split; [done|]. split; [done|].
    apply requests_log_exchange.
  - unfold lr_create.
    destruct (decide (t = "")); [done|].
    destruct (decide (t ∈ folder_name <$> lr_children 0 (server w))); [done|].
    simpl. intros [= <- <-]. simpl.
    rewrite lr_children_add. simpl.
    rewrite (find_folder_app_new t _
               {| folder_id := lr_next_id (server w); folder_name := t |}
               Hfind eq_refl).
    eexists. split; [reflexivity|]. split; [done|]. split; [done|].
    apply requests_log_exchange.
Qed.

Lemma create_or_get_folder_idempotent_witness :
  ∃ w2,
    create_or_get_folder_in_liferay "Noticias" "site"
      (snd (create_or_get_folder_in_liferay "Noticias" "site" (liferay_world empty_site)))
      = (Done 1, w2) ∧
    folders_created w2 = 1.
Proof.
  destruct (create_or_get_folder_idempotent "Noticias" "site"
              (liferay_world empty_site) 1
              (snd (create_or_get_folder_in_liferay "Noticias" "site"
                      (liferay_world empty_site))))
    as (w2 & Hrun & _ & Hcount & _).
  - vm_compute. reflexivity.
  - exists w2. split; [exact Hrun|]. rewrite Hcount. reflexivity.
Defined.

(** ** Subfolders against the folder model *)

Lemma candidate_nonempty base k : candidate base k ≠ "".
Proof.
  unfold candidate. intros H. apply (f_equal String.length) in H.
  rewrite PyStrFacts.length_app in H. simpl in H. lia.
Qed.

(** X15. Against the folder model every call of [create_or_get_subfolder]
    with a title that is not emptied by the sanitisation creates a folder:
    it returns the next free id, the new folder is appended to the children
    of the parent under a name that no child had, and the next id moves on,
    so that two calls in a row never return the same id. *)
Theorem create_or_get_subfolder_always_new (parent : Z) (name : string)
    (w : @world liferay_env) (fuel : nat) :
  subfolder_title name ≠ "" →
  (size (folder_names (lr_children parent (server w))) ≤ fuel)%nat →
  ∃ unique w',
    create_or_get_subfolder fuel parent name w = (Done (lr_next_id (server w)), w') ∧
    (unique ∉ folder_name <$> lr_children parent (server w)) ∧
    lr_children parent (server w') =
      lr_children parent (server w)
      ++ [ {| folder_id := lr_next_id (server w); folder_name := unique |} ] ∧
    lr_next_id (server w') = lr_next_id (server w) + 1.
Proof.
  intros Htitle Hfuel.
  destruct (generate_unique_name_done (subfolder_title name)
              (folder_names (lr_children parent (server w))))
    as (unique & Hfree & Hall).
  pose proof (Hall fuel Hfuel) as Hgen.
  assert (Hne : unique ≠ "").
  { unfold generate_unique_name in Hgen.
    destruct (generate_unique_name_loop_shape _ _ _ _ _ _ Hgen)
      as [[-> _]|(_ & k & _ & -> & _)]; [done|apply candidate_nonempty]. }
  assert (Hfree' : unique ∉ folder_name <$> lr_children parent (server w)).
  { intros Hin. apply Hfree. unfold folder_names. by apply elem_of_list_to_set. }
  exists unique. eexists.
  rewrite create_or_get_subfolder_eq, subfolder_attempt_eq. simpl.
  rewrite Hgen, (find_folder_unique_name _ _ _ _ Hgen).
  unfold post_subfolder, bind, http. simpl. unfold lr_create.
  destruct (decide (unique = "")); [done|].
  destruct (decide (unique ∈ folder_name <$> lr_children parent (server w))); [done|].
  simpl. split; [reflexivity|]. split; [done|]. simpl.
  rewrite lr_children_add, Z.eqb_refl. done.
Qed.

Lemma create_or_get_subfolder_always_new_witness :
  ∃ unique w',
    create_or_get_subfolder 1 7 "Foo"
      (snd (create_or_get_subfolder 1 7 "Foo" (liferay_world one_category_folder)))
      = (Done 9, w') ∧
    (unique ∉ [ "Foo" ]) ∧
    lr_children 7 (server w') =
      [ {| folder_id := 8; folder_name := "Foo" |};
        {| folder_id := 9; folder_name := unique |} ] ∧
    lr_next_id (server w') = 10.
Proof.
  apply (create_or_get_subfolder_always_new 7 "Foo"
           (snd (create_or_get_subfolder 1 7 "Foo" (liferay_world one_category_folder)))
           1).
  - vm_compute. discriminate.
  - vm_compute. lia.
Defined.

(** ** The two post fetches against the WordPress model *)

Lemma wordpress_page_served (items : list Post) (k : nat) :
  (k * 100 < length items)%nat ∨ k = 0%nat →
  wordpress_page items 100 (Z.of_nat k + 1) =
    Reply {| status_code := 200;
             total_pages_header := Some (page_count (Z.of_nat (length items)) 100);
             resp_body := JsonPosts (take 100 (drop (k * 100) items)) |}.
Proof.
  intros Hk. unfold wordpress_page, page_slice, page_count.
  replace (Z.to_nat ((Z.of_nat k + 1 - 1) * 100)) with (k * 100)%nat by lia.
  change (Z.to_nat 100) with 100%nat.
  replace ((Z.of_nat k + 1 <? 1) || _) with false; [done|].
  symmetry. apply orb_false_iff. split; [apply Z.ltb_ge; lia|].
  apply andb_false_iff. destruct Hk as [Hk| ->].
  - left. apply Z.ltb_ge. Z.to_euclidean_division_equations. lia.
  - destruct items as [|p l]; [by right|left].
    apply Z.ltb_ge. simpl length. Z.to_euclidean_division_equations. lia.
Qed.

Lemma wordpress_page_past_end (items : list Post) (k : nat) :
  (0 < length items ≤ k * 100)%nat →
  wordpress_page items 100 (Z.of_nat k + 1) = status 400.
Proof.
  intros Hk. unfold wordpress_page, page_count.
  replace ((Z.of_nat k + 1 <? 1) || _) with true; [done|].
  symmetry. apply orb_true_iff. right. apply andb_true_iff. split.
  - apply Z.ltb_lt. Z.to_euclidean_division_equations. lia.
  - apply Z.ltb_lt. lia.
Qed.

Lemma take_drop_short {A} (l : list A) (k : nat) :
  (length l ≤ (k + 1) * 100)%nat → take 100 (drop (k * 100) l) = drop (k * 100) l.
Proof. intros H. apply take_ge. rewrite length_drop. lia. Qed.

Lemma take_drop_next {A} (l : list A) (k : nat) :
  take 100 (drop (k * 100) l) ++ drop ((k + 1) * 100) l = drop (k * 100) l.
Proof.
  replace ((k + 1) * 100)%nat with (k * 100 + 100)%nat by lia.
  rewrite <- drop_drop. apply take_drop.
Qed.

(** The page loop of the image migrator, from page [k + 1] on. *)
Lemma get_posts_by_category_loop_wordpress (all_posts : list Post) (c : Z) :
  ∀ (fuel k : nat) (posts : list Post) (w : @world (wordpress all_posts)),
  (k * 100 ≤ length (category_posts c all_posts) < (k + fuel) * 100)%nat →
  fst (@get_posts_by_category_loop (wordpress all_posts) fuel c posts
         (Z.of_nat k + 1) w)
  = Done (posts ++ drop (k * 100) (category_posts c all_posts)).
Proof.
  set (items := category_posts c all_posts).
  induction fuel as [|fuel IH]; intros k posts w Hk; [lia|].
  destruct (decide (0 < k ∧ length items = k * 100)%nat) as [[Hpos Heq]|Hin].
  - assert (Hs : @serve (wordpress all_posts)
                   (WpGetPostsByCategory c 100 (Z.of_nat k + 1)) (server w)
                 = (status 400, server w)).
    { simpl. unfold category_posts in items. fold items.
      by rewrite wordpress_page_past_end by lia. }
    rewrite (get_posts_by_category_failed fuel c posts _ w _ _ Hs eq_refl).
    cbn [fst]. rewrite drop_ge by lia. by rewrite app_nil_r.
  - assert (Hserved : (k * 100 < length items)%nat ∨ k = 0%nat) by lia.
    pose proof (wordpress_page_served items k Hserved) as Hpage.
    set (r := {| status_code := 200;
                 total_pages_header := Some (page_count (Z.of_nat (length items)) 100);
                 resp_body := JsonPosts (take 100 (drop (k * 100) items)) |}) in Hpage.
    assert (Hs : @serve (wordpress all_posts)
                   (WpGetPostsByCategory c 100 (Z.of_nat k + 1)) (server w)
                 = (Reply r, server w)).
    { simpl. unfold category_posts in items. fold items. by rewrite Hpage. }
    destruct (decide (length items < (k + 1) * 100)%nat) as [Hshort|Hfull].
    + rewrite (get_posts_by_category_short fuel c posts _ w r
                 (take 100 (drop (k * 100) items)) _ Hs eq_refl eq_refl).
      * cbn [fst]. by rewrite take_drop_short by lia.
      * rewrite length_take, length_drop. lia.
    + rewrite (get_posts_by_category_full fuel c posts _ w r
                 (take 100 (drop (k * 100) items)) _ Hs eq_refl eq_refl).
      * replace (Z.of_nat k + 1 + 1) with (Z.of_nat (k + 1) + 1) by lia.
        rewrite IH by lia. by rewrite <- app_assoc, take_drop_next.
      * rewrite length_take, length_drop. lia.
Qed.

(** The page loop of the content migrator, from page [k + 1] on. *)
Lemma fetch_category_loop_wordpress (all_posts : list Post) (c : Z) :
  ∀ (fuel k : nat) (posts : list Post) (w : @world (wordpress all_posts)),
  ((k * 100 < length (category_posts c all_posts))%nat ∨ k = 0%nat) →
  (length (category_posts c all_posts) ≤ (k + fuel) * 100)%nat →
  (0 < fuel)%nat →
  fst (@fetch_category_loop (wordpress all_posts) fuel c posts (Z.of_nat k + 1) w)
  = Done (posts ++ drop (k * 100) (category_posts c all_posts)).
Proof.
  set (items := category_posts c all_posts).
  induction fuel as [|fuel IH]; intros k posts w Hk Hfuel Hpos; [lia|].
  rewrite fetch_category_loop_S. simpl serve.
  unfold category_posts in items. fold items.
  rewrite (wordpress_page_served items k Hk). cbv zeta.
  cbn [status_code resp_body total_pages_header default]. unfold id.
  change (200 =? 200) with true. cbv iota.
  destruct (decide (length items ≤ (k + 1) * 100)%nat) as [Hlast|Hmore].
  - replace (page_count (Z.of_nat (length items)) 100 <=? Z.of_nat k + 1) with true.
    2: { symmetry. apply Z.leb_le. unfold page_count.
         Z.to_euclidean_division_equations. lia. }
    cbn [fst]. by rewrite take_drop_short.
  - replace (page_count (Z.of_nat (length items)) 100 <=? Z.of_nat k + 1) with false.
    2: { symmetry. apply Z.leb_gt. unfold page_count.
         Z.to_euclidean_division_equations. lia. }
    replace (Z.of_nat k + 1 + 1) with (Z.of_nat (k + 1) + 1) by lia.
    rewrite IH by lia. by rewrite <- app_assoc, take_drop_next.
Qed.

Lemma fetch_categories_wordpress (all_posts : list Post) (fuel : nat) :
  ∀ (cats : list Z) (posts : list Post) (w : @world (wordpress all_posts)),
  (∀ c, c ∈ cats → (length (category_posts c all_posts) < fuel * 100)%nat) →
  fst (@fetch_categories (wordpress all_posts) fuel cats posts w)
  = Done (posts ++ (cats ≫= fun c => category_posts c all_posts)).
Proof.
  induction cats as [|c cats IH]; intros posts w Hlen.
  - simpl. by rewrite app_nil_r.
  - cbn [fetch_categories]. unfold bind.
    pose proof (fetch_category_loop_wordpress all_posts c fuel 0 posts w) as Hloop.
    assert (Hc : (length (category_posts c all_posts) < fuel * 100)%nat)
      by (apply Hlen; by left).
    change (Z.of_nat 0 + 1) with 1 in Hloop.
    destruct (fetch_category_loop fuel c posts 1 w) as [res w1].
    cbn [fst] in Hloop. rewrite Hloop by lia.
    rewrite IH by (intros c' Hc'; apply Hlen; by right).
    rewrite drop_0, <- app_assoc. reflexivity.
Qed.

(** X16. Against the WordPress model both post fetches return exactly the
    posts of the category, in the order of the source, for every number of
    posts: [get_posts_by_category], which stops at a page with fewer than
    100 posts or at the failed request after a last full page, and
    [fetch_posts] for that one category, which follows the page count of
    the header. *)
Theorem post_fetches_complete (all_posts : list Post) (category_id : Z)
    (fuel : nat) (w : @world (wordpress all_posts)) :
  (length (category_posts category_id all_posts) < fuel * 100)%nat →
  fst (get_posts_by_category fuel category_id w)
    = Done (category_posts category_id all_posts) ∧
  fst (fetch_posts fuel [category_id] w)
    = Done (category_posts category_id all_posts).
Proof.
  intros Hfuel. split.
  - unfold get_posts_by_category.
    pose proof (get_posts_by_category_loop_wordpress all_posts category_id
                  fuel 0 [] w) as Hloop.
    change (Z.of_nat 0 + 1) with 1 in Hloop.
    rewrite Hloop by lia. by rewrite drop_0.
  - unfold fetch_posts. rewrite fetch_categories_wordpress.
    + simpl. by rewrite app_nil_r.
    + intros c Hc. apply list_elem_of_singleton in Hc. by subst c.
Qed.

Lemma post_fetches_complete_witness :
  fst (get_posts_by_category 3 7 (wordpress_world (sample_posts 0 200)))
    = Done (category_posts 7 (sample_posts 0 200)) ∧
  fst (fetch_posts 3 [7] (wordpress_world (sample_posts 0 200)))
    = Done (category_posts 7 (sample_posts 0 200)).
Proof.
  apply (post_fetches_complete (sample_posts 0 200) 7 3
           (wordpress_world (sample_posts 0 200))).
  vm_compute. lia.
Defined.

(** X17. With mapped categories [fetch_posts] returns, against the
    WordPress model, the posts of the first category followed by those of
    the second and so on; nothing removes a post that has been fetched for
    an earlier category, so a post of several mapped categories is in the
    result once for each of them. *)
Theorem fetch_posts_per_category (all_posts : list Post) (cats : list Z)
    (fuel : nat) (w : @world (wordpress all_posts)) :
  cats ≠ [] →
  (∀ c, c ∈ cats → (length (category_posts c all_posts) < fuel * 100)%nat) →
  fst (fetch_posts fuel cats w)
    = Done (cats ≫= fun c => category_posts c all_posts).
Proof.
  intros Hne Hlen. unfold fetch_posts. destruct cats as [|c cats]; [done|].
  by rewrite fetch_categories_wordpress.
Qed.

Lemma fetch_posts_per_category_witness :
  fst (fetch_posts 1 [7; 8] (wordpress_world [shared_post]))
    = Done [shared_post; shared_post].
Proof.
  apply (fetch_posts_per_category [shared_post] [7; 8] 1
           (wordpress_world [shared_post])).
  - done.
  - intros c Hc. rewrite !elem_of_cons in Hc.
    destruct Hc as [->|[->|Hc]]; [vm_compute; lia|vm_compute; lia|].
    by apply elem_of_nil in Hc.
Defined.

(** ** Categories against the WordPress model *)

Lemma get_all_categories_loop_wordpress (all_categories : list Category) :
  ∀ (fuel k : nat) (cats : list Category)
    (w : @world (wordpress_categories all_categories)),
  (k = 0 ∨ (k - 1) * 100 < length all_categories)%nat →
  (length all_categories + 100 ≤ (k + fuel) * 100)%nat →
  ∃ w',
    @get_all_categories_loop (wordpress_categories all_categories) fuel cats
      (Z.of_nat k + 1) w
    = (Done (cats ++ drop (k * 100) all_categories), w') ∧
    length (traffic w') =
      (length (traffic w) + (length all_categories + 99) / 100 + 1 - k)%nat.
Proof.
  induction fuel as [|fuel IH]; intros k cats w Hk Hfuel; [lia|].
  set (data := take 100 (drop (k * 100) all_categories)).
  assert (Hs : @serve (wordpress_categories all_categories)
                 (WpGetCategories (Z.of_nat k + 1) 100) (server w)
               = (ok (JsonCategories data), server w)).
  { simpl. replace (Z.of_nat k + 1 <? 1) with false by (symmetry; apply Z.ltb_ge; lia).
    unfold page_slice. change (Z.to_nat 100) with 100%nat.
    by replace (Z.to_nat ((Z.of_nat k + 1 - 1) * 100)) with (k * 100)%nat by lia. }
  destruct (decide (length all_categories ≤ k * 100)%nat) as [Hend|Hmore].
  - assert (Hdata : data = []).
    { unfold data. by rewrite drop_ge. }
    rewrite Hdata in Hs.
    rewrite (get_all_categories_empty _ _ _ _ _ _ Hs eq_refl eq_refl).
    eexists. split.
    + by rewrite drop_ge, app_nil_r.
    + assert (Hdiv : ((length all_categories + 99) / 100 = k)%nat).
      { symmetry.
        apply Nat.div_unique with (r := (length all_categories + 99 - k * 100)%nat); lia. }
      rewrite Hdiv. cbn [traffic log_exchange]. rewrite length_app.
      cbn [length]. lia.
  - assert (Hne : data ≠ []).
    { unfold data. intros H. apply (f_equal length) in H.
      rewrite length_take, length_drop in H. cbn [length] in H. lia. }
    change (ok (JsonCategories data))
      with (Reply {| status_code := 200; total_pages_header := None;
                     resp_body := JsonCategories data |}) in Hs.
    rewrite (get_all_categories_more _ _ _ _ _ _ _ Hs eq_refl eq_refl Hne).
    replace (Z.of_nat k + 1 + 1) with (Z.of_nat (k + 1) + 1) by lia.
    edestruct (IH (k + 1)%nat (cats ++ data)) as (w' & Hrun & Hlen).
    + right. lia.
    + lia.
    + exists w'. split.
      * rewrite Hrun. unfold data. by rewrite <- app_assoc, take_drop_next.
      * rewrite Hlen. cbn [traffic log_exchange]. rewrite length_app.
        cbn [length].
        assert (Hdiv : (k + 1 ≤ (length all_categories + 99) / 100)%nat)
          by (apply Nat.div_le_lower_bound; lia).
        revert Hdiv. generalize ((length all_categories + 99) / 100)%nat.
        intros q Hq. lia.
Qed.

(** X18. Against the WordPress model [get_all_categories] returns all the
    categories of the source in their order, and it sends one request more
    than there are pages of 100: the request that is answered with the
    empty page. *)
Theorem get_all_categories_complete (all_categories : list Category) (fuel : nat)
    (w : @world (wordpress_categories all_categories)) :
  (length all_categories + 100 ≤ fuel * 100)%nat →
  ∃ w',
    get_all_categories fuel w = (Done all_categories, w') ∧
    length (traffic w') =
      (length (traffic w) + (length all_categories + 99) / 100 + 1)%nat.
Proof.
  intros Hfuel.
  destruct (get_all_categories_loop_wordpress all_categories fuel 0 [] w)
    as (w' & Hrun & Hlen); [by left|lia|].
  exists w'. split; [|lia].
  unfold get_all_categories. change (Z.of_nat 0 + 1) with 1 in Hrun.
  rewrite Hrun. by rewrite drop_0.
Qed.

Lemma get_all_categories_complete_witness :
  ∃ w',
    get_all_categories 2
      (@initial_world (wordpress_categories [sample_category 1; sample_category 2]) tt)
      = (Done [sample_category 1; sample_category 2], w') ∧
    length (traffic w') = 2%nat.
Proof.
  apply (get_all_categories_complete [sample_category 1; sample_category 2] 2
           (@initial_world (wordpress_categories [sample_category 1; sample_category 2]) tt)).
  simpl. lia.
Defined.

(** * The taxonomy script *)

Section TaxonomyFacts.

Context {env : Environment} {tx : TaxonomyServer}.

Local Open Scope tx_scope.

Lemma tx_http_reply (req : taxonomy_request) (w : script_world)
    (r : taxonomy_response) (s' : TxState) :
  tx_serve req (taxonomy w) = (TxReply r, s') →
  tx_http req w = (Done r, tx_log_exchange req (TxReply r) s' w).
Proof. intros H. unfold tx_http. by rewrite H. Qed.

Lemma tx_http_no_reply (req : taxonomy_request) (w : script_world) (s' : TxState) :
  tx_serve req (taxonomy w) = (TxNoReply, s') →
  tx_http req w = (Raised ConnectionError, tx_log_exchange req TxNoReply s' w).
Proof. intros H. unfold tx_http. by rewrite H. Qed.

(** An exchange leaves everything but the server and the log alone. *)
Lemma tx_http_frame (req : taxonomy_request) (w : script_world) :
  ∃ rep s',
    snd (tx_http req w) = tx_log_exchange req rep s' w ∧
    tx_serve req (taxonomy w) = (rep, s') ∧
    match rep with
    | TxReply r => fst (tx_http req w) = Done r
    | TxNoReply => fst (tx_http req w) = Raised ConnectionError
    end.
Proof.
  unfold tx_http. destruct (tx_serve req (taxonomy w)) as [rep s'] eqn:E.
  exists rep, s'. by destruct rep.
Qed.

(** ** The dictionary of names *)

Lemma name_index_snoc (l : list TaxonomyCategory) (c : TaxonomyCategory) :
  name_index (l ++ [c]) = <[normalized_name (tc_name c) := tc_id c]> (name_index l).
Proof. unfold name_index. by rewrite foldl_app. Qed.

Lemma name_index_lookup_Some (l : list TaxonomyCategory) (k : string) (id : Z) :
  name_index l !! k = Some id →
  ∃ c, c ∈ l ∧ normalized_name (tc_name c) = k ∧ tc_id c = id.
Proof.
  induction l as [|c l IH] using rev_ind; [unfold name_index; simpl; by rewrite lookup_empty|].
  rewrite name_index_snoc. intros H.
  destruct (decide (normalized_name (tc_name c) = k)) as [<-|Hne].
  - rewrite lookup_insert_eq in H. injection H as <-.
    exists c. split; [|done]. apply elem_of_app. right. by apply list_elem_of_singleton.
  - rewrite lookup_insert_ne in H by done.
    destruct (IH H) as (c' & Hin & Hk & Hid).
    exists c'. split; [|done]. apply elem_of_app. by left.
Qed.

Lemma name_index_lookup_None (l : list TaxonomyCategory) (k : string) :
  name_index l !! k = None ↔ ∀ c, c ∈ l → normalized_name (tc_name c) ≠ k.
Proof.
  induction l as [|c l IH] using rev_ind.
  - split; [intros _ c Hc; by apply not_elem_of_nil in Hc|by intros _].
  - rewrite name_index_snoc. split.
    + intros H c' Hc'.
      destruct (decide (normalized_name (tc_name c) = k)) as [<-|Hne].
      * by rewrite lookup_insert_eq in H.
      * rewrite lookup_insert_ne in H by done.
        apply elem_of_app in Hc' as [Hc'|Hc'].
        -- by apply IH.
        -- apply list_elem_of_singleton in Hc'. by subst c'.
    + intros H.
      rewrite lookup_insert_ne.
      * apply IH. intros c' Hc'. apply H. apply elem_of_app. by left.
      * apply H. apply elem_of_app. right. by apply list_elem_of_singleton.
Qed.

(** Of the categories with one key the last one is recorded. *)
Lemma name_index_last (l1 l2 : list TaxonomyCategory) (c : TaxonomyCategory) :
  (∀ c', c' ∈ l2 → normalized_name (tc_name c') ≠ normalized_name (tc_name c)) →
  name_index (l1 ++ c :: l2) !! normalized_name (tc_name c) = Some (tc_id c).
Proof.
  induction l2 as [|c2 l2 IH] using rev_ind; intros H.
  - rewrite name_index_snoc. by rewrite lookup_insert_eq.
  - replace (l1 ++ c :: l2 ++ [c2]) with ((l1 ++ c :: l2) ++ [c2])
      by (by rewrite <- app_assoc).
    rewrite name_index_snoc, lookup_insert_ne.
    + apply IH. intros c' Hc'. apply H. apply elem_of_app. by left.
    + apply H. apply elem_of_app. right. by apply list_elem_of_singleton.
Qed.

Lemma create_liferay_category_frame (vid : Z) (name : string) (w : script_world) :
  ∃ rep s',
    snd (create_liferay_category vid name w)
      = tx_log_exchange (TxCreateCategory vid name) rep s' w.
Proof.
  unfold create_liferay_category, tx_bind, tx_http.
  destruct (tx_serve _ _) as [rep s'].
  exists rep, s'. destruct rep as [|r]; [done|].
  destruct (tx_status_code r =? 201); [|done].
  unfold tx_lift. by destruct (json_created_id r).
Qed.

Lemma map_categories_loop_run (index : gmap string Z) (vid : Z) :
  ∀ (cs : list Category) (acc : list CategoryMapping) (w : script_world)
    (mapping : list CategoryMapping) (w' : script_world),
  map_categories_loop index vid cs acc w = (Done mapping, w') →
  ∃ added,
    mapping = acc ++ added ∧
    wordpress_id <$> added `sublist_of` cat_id <$> cs ∧
    Forall (fun e => ∃ c, c ∈ cs ∧ e = mapping_entry c (liferay_id e) ∧
              match index !! normalized_name (cat_name c) with
              | Some id => liferay_id e = id
              | None => liferay_id e ≠ 0
              end) added ∧
    (∀ c id, c ∈ cs → index !! normalized_name (cat_name c) = Some id →
             mapping_entry c id ∈ added) ∧
    taxonomy_requests w' =
      taxonomy_requests w
      ++ (creation_request vid <$> List.filter (absent_from index) cs) ∧
    wordpress_side w' = wordpress_side w ∧ slept w' = slept w.
Proof.
  induction cs as [|c cs IH]; intros acc w mapping w' Hrun.
  - injection Hrun as <- <-. exists []. rewrite !app_nil_r.
    repeat split; try done. intros c id Hc. by apply not_elem_of_nil in Hc.
  - cbn [map_categories_loop] in Hrun. cbn [List.filter]. unfold absent_from at 1.
    destruct (index !! normalized_name (cat_name c)) as [id0|] eqn:Hidx.
    + apply IH in Hrun as (added & -> & Hsub & Hall & Hin & Hreq & Hws & Hsl).
      exists (mapping_entry c id0 :: added). rewrite <- app_assoc.
      rewrite bool_decide_eq_false_2 by done.
      repeat split; try done.
      * cbn. by apply sublist_skip.
      * constructor.
        -- exists c. split; [apply elem_of_cons; by left|]. split; [done|].
           by rewrite Hidx.
        -- eapply Forall_impl; [exact Hall|]. intros e (c' & Hc' & He & Hm).
           exists c'. split; [apply elem_of_cons; by right|done].
      * intros c' id Hc' Hid. apply elem_of_cons in Hc' as [->|Hc'].
        -- rewrite Hidx in Hid. injection Hid as <-. apply elem_of_cons. by left.
        -- apply elem_of_cons. right. by apply Hin.
    + rewrite bool_decide_eq_true_2 by done.
      unfold tx_bind at 1 in Hrun.
      destruct (create_liferay_category_frame vid (cat_name c) w) as (rep & s' & Hw1).
      destruct (create_liferay_category vid (cat_name c) w) as [[lid| |] w1] eqn:Hc;
        try discriminate.
      cbn [snd] in Hw1. subst w1.
      assert (Hreq1 : taxonomy_requests (tx_log_exchange (TxCreateCategory vid (cat_name c)) rep s' w)
                      = taxonomy_requests w ++ [creation_request vid c]).
      { unfold taxonomy_requests. cbn. by rewrite fmap_app. }
      destruct (truthy_id lid) as [new_id|] eqn:Htruthy.
      * apply IH in Hrun as (added & -> & Hsub & Hall & Hin & Hreq & Hws & Hsl).
        exists (mapping_entry c new_id :: added). rewrite <- app_assoc.
        repeat split; try done.
        -- cbn. by apply sublist_skip.
        -- constructor.
           ++ exists c. split; [apply elem_of_cons; by left|]. split; [done|].
              rewrite Hidx. cbn. destruct lid as [z|]; [|done]. cbn in Htruthy.
              destruct (z =? 0) eqn:Hz; [done|]. injection Htruthy as <-.
              by apply Z.eqb_neq.
           ++ eapply Forall_impl; [exact Hall|]. intros e (c' & Hc' & He & Hm).
              exists c'. split; [apply elem_of_cons; by right|done].
        -- intros c' id Hc' Hid. apply elem_of_cons in Hc' as [->|Hc'].
           ++ by rewrite Hidx in Hid.
           ++ apply elem_of_cons. right. by apply Hin.
        -- rewrite Hreq, Hreq1. cbn [fmap list_fmap]. by rewrite <- app_assoc.
      * apply IH in Hrun as (added & -> & Hsub & Hall & Hin & Hreq & Hws & Hsl).
        exists added.
        repeat split; try done.
        -- cbn. by apply sublist_cons.
        -- eapply Forall_impl; [exact Hall|]. intros e (c' & Hc' & He & Hm).
           exists c'. split; [apply elem_of_cons; by right|done].
        -- intros c' id Hc' Hid. apply elem_of_cons in Hc' as [->|Hc'].
           ++ by rewrite Hidx in Hid.
           ++ by apply Hin.
        -- rewrite Hreq, Hreq1. cbn [fmap list_fmap]. by rewrite <- app_assoc.
Qed.

Lemma map_and_create_categories_eq (fuel : nat) (cs : list Category) (vid : Z)
    (w : script_world) (index : gmap string Z) :
  fst (get_liferay_categories fuel vid w) = Done index →
  map_and_create_categories fuel cs vid w
  = map_categories_loop index vid cs [] (snd (get_liferay_categories fuel vid w)).
Proof.
  intros H. unfold map_and_create_categories, tx_bind at 1.
  destruct (get_liferay_categories fuel vid w) as [o w1]. cbn in H. by subst o.
Qed.

(** X19. The mapping [map_and_create_categories] returns follows the
    WordPress categories in their order, with at most one entry for each:
    an entry carries the id and, under both names, the name of its
    WordPress category; a category whose normalised name is in the
    dictionary read at the start is always mapped, to the id recorded
    there, and any other entry has the non-zero id of a creation. *)
Theorem map_and_create_categories_entries (fuel : nat) (cs : list Category)
    (vid : Z) (w : script_world) (index : gmap string Z)
    (mapping : list CategoryMapping) :
  fst (get_liferay_categories fuel vid w) = Done index →
  fst (map_and_create_categories fuel cs vid w) = Done mapping →
  wordpress_id <$> mapping `sublist_of` cat_id <$> cs ∧
  Forall (fun e => ∃ c, c ∈ cs ∧ e = mapping_entry c (liferay_id e) ∧
            match index !! normalized_name (cat_name c) with
            | Some id => liferay_id e = id
            | None => liferay_id e ≠ 0
            end) mapping ∧
  (∀ c id, c ∈ cs → index !! normalized_name (cat_name c) = Some id →
           mapping_entry c id ∈ mapping).
Proof.
  intros Hindex Hrun.
  rewrite (map_and_create_categories_eq _ _ _ _ _ Hindex) in Hrun.
  destruct (map_categories_loop index vid cs []
              (snd (get_liferay_categories fuel vid w))) as [o w'] eqn:Hloop.
  cbn in Hrun. subst o.
  apply map_categories_loop_run in Hloop
    as (added & -> & Hsub & Hall & Hin & _).
  by rewrite app_nil_l.
Qed.

(** X20. The creation requests of [map_and_create_categories] are one for
    each WordPress category whose normalised name is not in the dictionary
    read at the start, in the order of the categories.  The dictionary is
    not updated in between, so a name that occurs twice among them is
    created twice. *)
Theorem map_and_create_categories_creations (fuel : nat) (cs : list Category)
    (vid : Z) (w : script_world) (index : gmap string Z)
    (mapping : list CategoryMapping) :
  fst (get_liferay_categories fuel vid w) = Done index →
  fst (map_and_create_categories fuel cs vid w) = Done mapping →
  taxonomy_requests (snd (map_and_create_categories fuel cs vid w)) =
    taxonomy_requests (snd (get_liferay_categories fuel vid w))
    ++ (creation_request vid <$> List.filter (absent_from index) cs).
Proof.
  intros Hindex Hrun.
  rewrite (map_and_create_categories_eq _ _ _ _ _ Hindex) in Hrun |- *.
  destruct (map_categories_loop index vid cs []
              (snd (get_liferay_categories fuel vid w))) as [o w'] eqn:Hloop.
  cbn in Hrun. subst o.
  by apply map_categories_loop_run in Hloop as (added & _ & _ & _ & _ & Hreq & _).
Qed.

(** X21. When the vocabulary is not listed and the server answers its
    creation with a status other than 200 ([201 Created] included), the
    script ends there: it does not look for the vocabulary again, does
    not sleep, asks nothing about categories and leaves
    [category_mapping.json] as [get_all_categories] left it. *)
Theorem get_categories_wordpress_creation_not_200 (fuel : nat) (w : script_world)
    (cats : list Category) (ws : world) (r1 r2 : taxonomy_response)
    (st1 st2 : TxState) (vocabularies : list Vocabulary) :
  get_all_categories fuel (wordpress_side w) = (Done cats, ws) →
  tx_serve TxListVocabularies (taxonomy w) = (TxReply r1, st1) →
  tx_status_code r1 = 200 →
  tx_body r1 = TxVocabularies vocabularies →
  find_vocabulary vocabularies = None →
  tx_serve (TxCreateVocabulary taxonomy_vocabulary_name) st1 = (TxReply r2, st2) →
  tx_status_code r2 ≠ 200 →
  get_categories_wordpress fuel w
  = (Done tt,
     {| wordpress_side := ws; taxonomy := st2;
        taxonomy_traffic :=
          taxonomy_traffic w
          ++ [(TxListVocabularies, TxReply r1);
              (TxCreateVocabulary taxonomy_vocabulary_name, TxReply r2)];
        slept := slept w |}).
Proof.
  intros Hcats Hs1 Hst1 Hb1 Hfind Hs2 Hst2.
  unfold get_categories_wordpress, tx_bind at 1, on_wordpress_side. rewrite Hcats.
  unfold tx_bind at 1, get_taxonomy_vocabulary, tx_bind at 1, tx_http.
  cbn [taxonomy]. rewrite Hs1, Hst1. change (200 =? 200) with true. cbv iota.
  unfold tx_bind at 1, tx_lift, json_vocabularies. rewrite Hb1, Hfind.
  unfold create_taxonomy_vocabulary, tx_bind at 1, tx_http.
  cbn [taxonomy tx_log_exchange]. rewrite Hs2.
  apply Z.eqb_neq in Hst2. rewrite Hst2. unfold tx_ret. cbn [truthy_id].
  unfold tx_log_exchange. cbn [wordpress_side taxonomy taxonomy_traffic slept].
  by rewrite <- app_assoc.
Qed.

End TaxonomyFacts.

Lemma map_and_create_categories_entries_witness :
  wordpress_id <$> sample_category_mapping `sublist_of` cat_id <$> sample_wp_categories ∧
  Forall (fun e => ∃ c, c ∈ sample_wp_categories ∧ e = mapping_entry c (liferay_id e) ∧
            match sample_index !! normalized_name (cat_name c) with
            | Some id => liferay_id e = id
            | None => liferay_id e ≠ 0
            end) sample_category_mapping ∧
  (∀ c id, c ∈ sample_wp_categories →
           sample_index !! normalized_name (cat_name c) = Some id →
           mapping_entry c id ∈ sample_category_mapping).
Proof.
  apply (map_and_create_categories_entries 2 sample_wp_categories 1
           (script_start [] sample_taxonomy)).
  - vm_compute. reflexivity.
  - vm_compute. reflexivity.
Defined.

Lemma map_and_create_categories_creations_witness :
  taxonomy_requests
    (snd (map_and_create_categories 2 sample_wp_categories 1
            (script_start [] sample_taxonomy))) =
  taxonomy_requests (snd (get_liferay_categories 2 1 (script_start [] sample_taxonomy)))
  ++ (creation_request 1 <$> List.filter (absent_from sample_index) sample_wp_categories).
Proof.
  apply (map_and_create_categories_creations 2 sample_wp_categories 1
           (script_start [] sample_taxonomy) sample_index sample_category_mapping).
  - vm_compute. reflexivity.
  - vm_compute. reflexivity.
Defined.

(** ** The script against the taxonomy model *)

Section TaxonomySite.

Context {env : Environment}.

Local Existing Instance taxonomy_site_server.

Local Open Scope tx_scope.

(** A request is a page of the category listing of [vid]. *)
Lemma get_liferay_categories_loop_site (vid : Z) :
  ∀ (fuel k : nat) (cats : list TaxonomyCategory) (w : script_world),
  (k = 0 ∨ (k - 1) * 100 < length (categories_of vid (taxonomy w)))%nat →
  (length (categories_of vid (taxonomy w)) + 100 ≤ (k + fuel) * 100)%nat →
  ∃ w' listings,
    get_liferay_categories_loop fuel vid cats (Z.of_nat k + 1) w
    = (Done (cats ++ drop (k * 100) (categories_of vid (taxonomy w))), w') ∧
    taxonomy w' = taxonomy w ∧
    wordpress_side w' = wordpress_side w ∧
    slept w' = slept w ∧
    taxonomy_requests w' = taxonomy_requests w ++ listings ∧
    Forall (fun req => ∃ page, req = TxListCategories vid page 100) listings ∧
    length listings =
      ((length (categories_of vid (taxonomy w)) + 99) / 100 + 1 - k)%nat.
Proof.
  induction fuel as [|fuel IH]; intros k cats w Hk Hfuel; [lia|].
  set (all := categories_of vid (taxonomy w)) in *.
  set (data := take 100 (drop (k * 100) all)).
  assert (Hs : taxonomy_site_serve (TxListCategories vid (Z.of_nat k + 1) 100) (taxonomy w)
               = (tx_ok (TxCategories data), taxonomy w)).
  { cbn [taxonomy_site_serve].
    replace (Z.of_nat k + 1 <? 1) with false by (symmetry; apply Z.ltb_ge; lia).
    unfold page_slice. change (Z.to_nat 100) with 100%nat.
    by replace (Z.to_nat ((Z.of_nat k + 1 - 1) * 100)) with (k * 100)%nat by lia. }
  unfold tx_ok in Hs.
  cbn [get_liferay_categories_loop]. unfold tx_bind at 1.
  rewrite (@tx_http_reply env taxonomy_site_server _ _ _ _ Hs).
  cbn [tx_status_code]. change (200 =? 200) with true. cbv iota.
  unfold tx_bind at 1, tx_lift, json_taxonomy_categories. cbn [tx_body].
  destruct (decide (length all ≤ k * 100)%nat) as [Hend|Hmore].
  - assert (Hdata : data = []) by (unfold data; by rewrite drop_ge).
    rewrite Hdata. cbn [length Z.of_nat Z.eqb]. cbv iota.
    exists (tx_log_exchange (TxListCategories vid (Z.of_nat k + 1) 100)
              (tx_ok (TxCategories [])) (taxonomy w) w),
           [TxListCategories vid (Z.of_nat k + 1) 100].
    split; [unfold tx_ret; by rewrite drop_ge, !app_nil_r|].
    repeat split; try done.
    + unfold taxonomy_requests. cbn [taxonomy_traffic tx_log_exchange].
      by rewrite fmap_app.
    + repeat constructor. by eexists.
    + assert (Hdiv : ((length all + 99) / 100 = k)%nat).
      { symmetry. apply Nat.div_unique with (r := (length all + 99 - k * 100)%nat); lia. }
      rewrite Hdiv. cbn [length]. lia.
  - assert (Hne : (Z.of_nat (length data) =? 0) = false).
    { apply Z.eqb_neq. unfold data. rewrite length_take, length_drop. lia. }
    rewrite Hne.
    replace (Z.of_nat k + 1 + 1) with (Z.of_nat (k + 1) + 1) by lia.
    edestruct (IH (k + 1)%nat (cats ++ data)
                 (tx_log_exchange (TxListCategories vid (Z.of_nat k + 1) 100)
                    (TxReply {| tx_status_code := 200; tx_body := TxCategories data |})
                    (taxonomy w) w))
      as (w' & listings & Hrun & Hst & Hws & Hsl & Hreq & Hall & Hlen).
    + right. cbn [taxonomy tx_log_exchange]. fold all. lia.
    + cbn [taxonomy tx_log_exchange]. fold all. lia.
    + exists w', (TxListCategories vid (Z.of_nat k + 1) 100 :: listings).
      cbn [taxonomy tx_log_exchange] in Hrun, Hst, Hlen. fold all in Hrun, Hlen.
      split; [rewrite Hrun; unfold data; by rewrite <- app_assoc, take_drop_next|].
      repeat split; try done.
      * rewrite Hreq. unfold taxonomy_requests. cbn [taxonomy_traffic tx_log_exchange].
        rewrite fmap_app. cbn. by rewrite <- app_assoc.
      * constructor; [by eexists|done].
      * cbn [length]. rewrite Hlen.
        assert (Hdiv : (k + 1 ≤ (length all + 99) / 100)%nat)
          by (apply Nat.div_le_lower_bound; lia).
        revert Hdiv. generalize ((length all + 99) / 100)%nat. intros q Hq. lia.
Qed.


Lemma map_categories_loop_site (index : gmap string Z) (vid : Z) :
  ∀ (cs : list Category) (acc : list CategoryMapping) (w : script_world),
  0 < site_next_id (taxonomy w) →
  ∃ w',
    map_categories_loop index vid cs acc w
    = (Done (acc ++ assigned index (site_next_id (taxonomy w)) cs), w') ∧
    taxonomy w' =
      add_categories vid (cat_name <$> List.filter (absent_from index) cs) (taxonomy w).
Proof.
  induction cs as [|c cs IH]; intros acc w Hnext.
  - exists w. by rewrite app_nil_r.
  - cbn [map_categories_loop assigned List.filter]. unfold absent_from at 1.
    destruct (index !! normalized_name (cat_name c)) as [id0|] eqn:Hidx.
    + rewrite bool_decide_eq_false_2 by done.
      destruct (IH (acc ++ [mapping_entry c id0]) w Hnext) as (w' & Hrun & Hst).
      exists w'. by rewrite Hrun, <- app_assoc.
    + rewrite bool_decide_eq_true_2 by done.
      unfold tx_bind at 1, create_liferay_category, tx_bind at 1, tx_http.
      cbn [tx_serve taxonomy_site_server taxonomy_site_serve tx_status_code].
      change (201 =? 201) with true. cbv iota.
      unfold tx_bind at 1, tx_lift, json_created_id. cbn [tx_body]. unfold tx_ret at 1.
      cbn [truthy_id].
      replace (site_next_id (taxonomy w) =? 0) with false
        by (symmetry; apply Z.eqb_neq; lia).
      match goal with |- context [map_categories_loop _ _ _ _ ?w1] =>
        destruct (IH (acc ++ [mapping_entry c (site_next_id (taxonomy w))]) w1)
          as (w' & Hrun & Hst) end.
      * cbn. lia.
      * exists w'. split.
        -- rewrite Hrun. cbn [taxonomy tx_log_exchange site_next_id].
           by rewrite <- app_assoc.
        -- rewrite Hst. done.
Qed.

End TaxonomySite.

(** ** The taxonomy model: what creations change *)

Lemma add_categories_cons (vid : Z) (name : string) (names : list string)
    (s : taxonomy_site) :
  add_categories vid (name :: names) s
  = add_categories vid names (snd (taxonomy_site_serve (TxCreateCategory vid name) s)).
Proof. done. Qed.

Lemma add_categories_vocabularies (vid : Z) (names : list string) :
  ∀ s, site_vocabularies (add_categories vid names s) = site_vocabularies s.
Proof.
  induction names as [|name names IH]; intros s; [done|].
  by rewrite add_categories_cons, IH.
Qed.

Lemma add_categories_next_id (vid : Z) (names : list string) :
  ∀ s, site_next_id (add_categories vid names s)
       = site_next_id s + Z.of_nat (length names).
Proof.
  induction names as [|name names IH]; intros s; [cbn; lia|].
  rewrite add_categories_cons, IH. cbn. lia.
Qed.

Lemma add_categories_keeps (vid : Z) (names : list string) :
  ∀ s, site_categories s `prefix_of` site_categories (add_categories vid names s).
Proof.
  induction names as [|name names IH]; intros s; [done|].
  rewrite add_categories_cons.
  etrans; [|apply IH]. cbn. by apply prefix_app_r.
Qed.

(** The categories added to the vocabulary carry the names, in order, and
    nothing is added to another vocabulary. *)
Lemma add_categories_names (vid : Z) (names : list string) :
  ∀ s, ∃ new,
    site_categories (add_categories vid names s)
      = site_categories s ++ ((fun c => (vid, c)) <$> new) ∧
    tc_name <$> new = names.
Proof.
  induction names as [|name names IH]; intros s.
  - exists []. by rewrite app_nil_r.
  - rewrite add_categories_cons.
    destruct (IH (snd (taxonomy_site_serve (TxCreateCategory vid name) s)))
      as (new & Hcats & Hnames).
    exists ({| tc_id := site_next_id s; tc_name := name |} :: new).
    split; [|cbn; by rewrite Hnames].
    rewrite Hcats. cbn. by rewrite <- app_assoc.
Qed.

Lemma assigned_wordpress_ids (index : gmap string Z) (cs : list Category) :
  ∀ next, wordpress_id <$> assigned index next cs = cat_id <$> cs.
Proof.
  induction cs as [|c cs IH]; intros next; [done|].
  cbn [assigned]. destruct (index !! _); cbn; by rewrite IH.
Qed.

Lemma assigned_wordpress_names (index : gmap string Z) (cs : list Category) :
  ∀ next, wordpress_name <$> assigned index next cs = cat_name <$> cs.
Proof.
  induction cs as [|c cs IH]; intros next; [done|].
  cbn [assigned]. destruct (index !! _); cbn; by rewrite IH.
Qed.

(** Every entry of [assigned] points to a category of the vocabulary with
    the same normalised name, once the absent ones are created. *)
Lemma assigned_sound (index : gmap string Z) (vid : Z) (cs : list Category) :
  ∀ s,
  (∀ k id, index !! k = Some id →
     ∃ tc, (vid, tc) ∈ site_categories s ∧
           normalized_name (tc_name tc) = k ∧ tc_id tc = id) →
  ∀ e, e ∈ assigned index (site_next_id s) cs →
    ∃ tc,
      (vid, tc) ∈ site_categories
                    (add_categories vid (cat_name <$> List.filter (absent_from index) cs) s) ∧
      tc_id tc = liferay_id e ∧
      normalized_name (tc_name tc) = normalized_name (wordpress_name e).
Proof.
  induction cs as [|c cs IH]; intros s Hindex e He; [by apply not_elem_of_nil in He|].
  cbn [assigned List.filter] in He |- *. unfold absent_from at 1.
  destruct (index !! normalized_name (cat_name c)) as [id0|] eqn:Hidx.
  - rewrite bool_decide_eq_false_2 by done.
    apply elem_of_cons in He as [->|He]; [|by apply IH].
    destruct (Hindex _ _ Hidx) as (tc & Hin & Hname & Hid).
    exists tc. split; [|done].
    eapply elem_of_prefix; [exact Hin|apply add_categories_keeps].
  - rewrite bool_decide_eq_true_2 by done.
    cbn [fmap list_fmap]. rewrite add_categories_cons.
    set (s1 := snd (taxonomy_site_serve (TxCreateCategory vid (cat_name c)) s)).
    assert (Hnew : (vid, {| tc_id := site_next_id s; tc_name := cat_name c |})
                   ∈ site_categories s1).
    { cbn. apply elem_of_app. right. by apply list_elem_of_singleton. }
    apply elem_of_cons in He as [->|He].
    + exists {| tc_id := site_next_id s; tc_name := cat_name c |}. split; [|done].
      eapply elem_of_prefix; [exact Hnew|apply add_categories_keeps].
    + apply IH; [|exact He].
      intros k id Hk. destruct (Hindex _ _ Hk) as (tc & Hin & Hname & Hid).
      exists tc. split; [|done]. cbn. apply elem_of_app. by left.
Qed.

Lemma find_vocabulary_Some (vs : list Vocabulary) (v : Vocabulary) :
  find_vocabulary vs = Some v → v ∈ vs ∧ vocab_name v = taxonomy_vocabulary_name.
Proof.
  intros H. apply List.find_some in H as [Hin Hname].
  split; [by apply list_elem_of_In|]. by apply bool_decide_eq_true_1 in Hname.
Qed.

Lemma find_vocabulary_snoc (vs : list Vocabulary) (id : Z) :
  find_vocabulary vs = None →
  find_vocabulary (vs ++ [{| vocab_id := id; vocab_name := taxonomy_vocabulary_name |}])
  = Some {| vocab_id := id; vocab_name := taxonomy_vocabulary_name |}.
Proof.
  unfold find_vocabulary. induction vs as [|v vs IH]; intros H; [done|].
  cbn [List.find app] in H |- *.
  destruct (bool_decide (vocab_name v = taxonomy_vocabulary_name)); [done|by apply IH].
Qed.

Section TaxonomySiteRun.

Context {env : Environment}.

Local Existing Instance taxonomy_site_server.

Local Open Scope tx_scope.

Lemma get_taxonomy_vocabulary_found (w : script_world) (v : Vocabulary) :
  find_vocabulary (site_vocabularies (taxonomy w)) = Some v →
  get_taxonomy_vocabulary w
  = (Done (Some (vocab_id v)),
     tx_log_exchange TxListVocabularies
       (tx_ok (TxVocabularies (site_vocabularies (taxonomy w)))) (taxonomy w) w).
Proof.
  intros H. unfold get_taxonomy_vocabulary, tx_bind at 1, tx_http.
  cbn [tx_serve taxonomy_site_server taxonomy_site_serve tx_ok tx_status_code].
  change (200 =? 200) with true. cbv iota.
  unfold tx_bind, tx_lift, json_vocabularies. cbn [tx_body]. by rewrite H.
Qed.

(** The taxonomy after the creation of the vocabulary. *)
Lemma get_taxonomy_vocabulary_created (w : script_world) :
  find_vocabulary (site_vocabularies (taxonomy w)) = None →
  ∃ w',
    get_taxonomy_vocabulary w = (Done (Some (site_next_id (taxonomy w))), w') ∧
    taxonomy w' = snd (taxonomy_site_serve (TxCreateVocabulary taxonomy_vocabulary_name)
                         (taxonomy w)) ∧
    wordpress_side w' = wordpress_side w ∧
    slept w' = slept w ∧
    taxonomy_requests w' =
      taxonomy_requests w
      ++ [TxListVocabularies; TxCreateVocabulary taxonomy_vocabulary_name].
Proof.
  intros H. unfold get_taxonomy_vocabulary, tx_bind at 1, tx_http.
  cbn [tx_serve taxonomy_site_server taxonomy_site_serve tx_ok tx_status_code].
  change (200 =? 200) with true. cbv iota.
  unfold tx_bind at 1, tx_lift, json_vocabularies. cbn [tx_body]. rewrite H.
  unfold create_taxonomy_vocabulary, tx_bind at 1, tx_http.
  cbn [tx_serve taxonomy_site_server taxonomy_site_serve tx_ok tx_status_code
       taxonomy tx_log_exchange].
  change (200 =? 200) with true. cbv iota.
  unfold tx_bind, tx_lift, json_created_id, tx_ret. cbn [tx_body].
  eexists. split; [reflexivity|].
  repeat split; try done.
  unfold taxonomy_requests. cbn [taxonomy_traffic tx_log_exchange].
  rewrite !fmap_app. cbn. by rewrite <- app_assoc.
Qed.

End TaxonomySiteRun.

Lemma categories_of_elem (vid : Z) (s : taxonomy_site) (tc : TaxonomyCategory) :
  tc ∈ categories_of vid s ↔ (vid, tc) ∈ site_categories s.
Proof.
  unfold categories_of. rewrite list_elem_of_fmap. split.
  - intros ([v tc'] & -> & Hin). apply list_elem_of_In, List.filter_In in Hin as [Hin Hv].
    cbn in Hv. apply Z.eqb_eq in Hv. subst v. by apply list_elem_of_In.
  - intros Hin. exists (vid, tc). split; [done|].
    apply list_elem_of_In, List.filter_In. split; [by apply list_elem_of_In|].
    cbn. apply Z.eqb_refl.
Qed.

Lemma categories_of_length (vid : Z) (s : taxonomy_site) :
  (length (categories_of vid s) ≤ length (site_categories s))%nat.
Proof.
  unfold categories_of. rewrite length_fmap.
  induction (site_categories s) as [|vc l IH]; [done|].
  cbn [List.filter]. destruct (fst vc =? vid); cbn [length]; lia.
Qed.

Lemma no_vocabulary_creation_among_creations (vid : Z) (cs : list Category) :
  List.filter is_vocabulary_creation (creation_request vid <$> cs) = [].
Proof. induction cs as [|c cs IH]; [done|]. cbn. exact IH. Qed.

Lemma all_category_creations (vid : Z) (cs : list Category) :
  List.filter is_category_creation (creation_request vid <$> cs)
  = creation_request vid <$> cs.
Proof. induction cs as [|c cs IH]; [done|]. cbn. by rewrite IH. Qed.

Lemma no_vocabulary_creation_among_listings (vid : Z) (listings : list taxonomy_request) :
  Forall (fun req => ∃ page, req = TxListCategories vid page 100) listings →
  List.filter is_vocabulary_creation listings = [].
Proof.
  induction 1 as [|req l [page ->] _ IH]; [done|]. cbn. exact IH.
Qed.

Lemma no_category_creation_among_listings (vid : Z) (listings : list taxonomy_request) :
  Forall (fun req => ∃ page, req = TxListCategories vid page 100) listings →
  List.filter is_category_creation listings = [].
Proof.
  induction 1 as [|req l [page ->] _ IH]; [done|]. cbn. exact IH.
Qed.

Section MappingStage.

Context {env : Environment}.

Local Existing Instance taxonomy_site_server.

Local Open Scope tx_scope.

(** [get_liferay_categories] against the model: the whole vocabulary. *)
Lemma get_liferay_categories_site (fuel : nat) (vid : Z) (w : script_world) :
  (length (site_categories (taxonomy w)) + 100 ≤ fuel * 100)%nat →
  ∃ w' listings,
    get_liferay_categories fuel vid w
    = (Done (name_index (categories_of vid (taxonomy w))), w') ∧
    taxonomy w' = taxonomy w ∧
    wordpress_side w' = wordpress_side w ∧
    slept w' = slept w ∧
    taxonomy_requests w' = taxonomy_requests w ++ listings ∧
    Forall (fun req => ∃ page, req = TxListCategories vid page 100) listings ∧
    length listings = ((length (categories_of vid (taxonomy w)) + 99) / 100 + 1)%nat.
Proof.
  intros Hfuel.
  destruct (get_liferay_categories_loop_site vid fuel 0 [] w)
    as (w' & listings & Hrun & Hst & Hws & Hsl & Hreq & Hall & Hlen).
  { by left. }
  { pose proof (categories_of_length vid (taxonomy w)). lia. }
  exists w', listings.
  unfold get_liferay_categories, tx_bind. change (Z.of_nat 0 + 1) with 1 in Hrun.
  rewrite Hrun. rewrite drop_0, app_nil_l. unfold tx_ret.
  repeat split; try done. lia.
Qed.

(** The script from the second look at the vocabulary on, when the
    vocabulary is there. *)
Lemma mapping_stage_site (fuel : nat) (cs : list Category) (w : script_world)
    (v : Vocabulary) :
  find_vocabulary (site_vocabularies (taxonomy w)) = Some v →
  vocab_id v ≠ 0 →
  0 < site_next_id (taxonomy w) →
  (length (site_categories (taxonomy w)) + 100 ≤ fuel * 100)%nat →
  ∃ w',
    (vocabulary_id <- get_taxonomy_vocabulary ;;
     match truthy_id vocabulary_id with
     | Some vocabulary_id =>
         category_mapping <- map_and_create_categories fuel cs vocabulary_id ;;
         save_mapping_to_json category_mapping
     | None => tx_ret tt
     end) w = (Done tt, w') ∧
    category_mapping_file (wordpress_side w')
      = Some (assigned (name_index (categories_of (vocab_id v) (taxonomy w)))
                (site_next_id (taxonomy w)) cs) ∧
    taxonomy w'
      = add_categories (vocab_id v)
          (cat_name <$> List.filter
             (absent_from (name_index (categories_of (vocab_id v) (taxonomy w)))) cs)
          (taxonomy w) ∧
    slept w' = slept w ∧
    List.filter is_vocabulary_creation (taxonomy_requests w')
      = List.filter is_vocabulary_creation (taxonomy_requests w) ∧
    List.filter is_category_creation (taxonomy_requests w')
      = List.filter is_category_creation (taxonomy_requests w)
        ++ (creation_request (vocab_id v) <$>
            List.filter
              (absent_from (name_index (categories_of (vocab_id v) (taxonomy w)))) cs).
Proof.
  intros Hfind Hid Hnext Hfuel.
  unfold tx_bind at 1. rewrite (get_taxonomy_vocabulary_found w v Hfind).
  cbn [truthy_id]. replace (vocab_id v =? 0) with false by (symmetry; by apply Z.eqb_neq).
  set (w1 := tx_log_exchange _ _ _ w).
  destruct (get_liferay_categories_site fuel (vocab_id v) w1)
    as (w2 & listings & Hget & Hst2 & Hws2 & Hsl2 & Hreq2 & Hall2 & _); [done|].
  destruct (map_categories_loop_site
              (name_index (categories_of (vocab_id v) (taxonomy w1))) (vocab_id v) cs [] w2)
    as (w3 & Hloop & Hst3); [by rewrite Hst2|].
  pose proof (map_categories_loop_run _ _ _ _ _ _ _ Hloop)
    as (added & _ & _ & _ & _ & Hreq3 & Hws3 & Hsl3).
  unfold tx_bind at 1, map_and_create_categories, tx_bind at 1.
  rewrite Hget, Hloop. rewrite app_nil_l.
  unfold save_mapping_to_json, on_wordpress_side.
  eexists. split; [reflexivity|].
  cbn [wordpress_side category_mapping_file taxonomy slept taxonomy_traffic].
  rewrite Hst2 in *. change (taxonomy w1) with (taxonomy w) in *.
  repeat split; try done.
  - by rewrite Hsl3, Hsl2.
  - change (List.filter is_vocabulary_creation (taxonomy_requests w3)
            = List.filter is_vocabulary_creation (taxonomy_requests w)).
    rewrite Hreq3, Hreq2.
    rewrite !List.filter_app, no_vocabulary_creation_among_creations,
      (no_vocabulary_creation_among_listings _ _ Hall2), !app_nil_r.
    unfold w1, taxonomy_requests. cbn [taxonomy_traffic tx_log_exchange].
    rewrite fmap_app, List.filter_app. cbn. by rewrite app_nil_r.
  - change (List.filter is_category_creation (taxonomy_requests w3)
            = List.filter is_category_creation (taxonomy_requests w)
              ++ (creation_request (vocab_id v) <$>
                  List.filter
                    (absent_from (name_index (categories_of (vocab_id v) (taxonomy w))))
                    cs)).
    rewrite Hreq3, Hreq2.
    rewrite !List.filter_app, all_category_creations,
      (no_category_creation_among_listings _ _ Hall2), !app_nil_r.
    unfold w1, taxonomy_requests. cbn [taxonomy_traffic tx_log_exchange].
    rewrite fmap_app, List.filter_app. cbn. by rewrite app_nil_r.
Qed.

End MappingStage.

(** A run of the script against the models, step by step: [s1] is the
    taxonomy once the vocabulary [v] is there. *)
Lemma get_categories_wordpress_site (all_categories : list Category)
    (s : taxonomy_site) (fuel : nat) :
  0 < site_next_id s →
  Forall (fun v => vocab_id v ≠ 0) (site_vocabularies s) →
  (length all_categories + 100 ≤ fuel * 100)%nat →
  (length (site_categories s) + 100 ≤ fuel * 100)%nat →
  ∃ w' v s1,
    get_categories_wordpress fuel (script_start all_categories s) = (Done tt, w') ∧
    find_vocabulary (site_vocabularies s1) = Some v ∧
    site_categories s1 = site_categories s ∧
    0 < site_next_id s1 ∧
    Forall (fun v => vocab_id v ≠ 0) (site_vocabularies s1) ∧
    (∀ v0, find_vocabulary (site_vocabularies s) = Some v0 → s1 = s) ∧
    category_mapping_file (wordpress_side w')
      = Some (assigned (name_index (categories_of (vocab_id v) s1))
                (site_next_id s1) all_categories) ∧
    taxonomy w'
      = add_categories (vocab_id v)
          (cat_name <$> List.filter
             (absent_from (name_index (categories_of (vocab_id v) s1))) all_categories)
          s1 ∧
    slept w' = 5 ∧
    (length (List.filter is_vocabulary_creation (taxonomy_requests w')) ≤ 1)%nat ∧
    (∀ v0, find_vocabulary (site_vocabularies s) = Some v0 →
           List.filter is_vocabulary_creation (taxonomy_requests w') = []) ∧
    List.filter is_category_creation (taxonomy_requests w')
      = creation_request (vocab_id v) <$>
        List.filter (absent_from (name_index (categories_of (vocab_id v) s1)))
          all_categories.
Proof.
  intros Hnext Hids Hfuel1 Hfuel2.
  destruct (get_all_categories_loop_wordpress all_categories fuel 0 []
              (@initial_world (wordpress_categories all_categories) tt))
    as (ws & Hcats & _); [by left|lia|].
  change (Z.of_nat 0 + 1) with 1 in Hcats. rewrite drop_0, app_nil_l in Hcats.
  unfold get_categories_wordpress, tx_bind at 1, on_wordpress_side.
  cbn [wordpress_side script_start]. unfold get_all_categories. rewrite Hcats.
  match goal with |- context [tx_bind get_taxonomy_vocabulary _ ?w] => set (w0 := w) end.
  destruct (find_vocabulary (site_vocabularies s)) as [v|] eqn:Hfind.
  - (* the vocabulary is there *)
    assert (Hv : vocab_id v ≠ 0).
    { apply find_vocabulary_Some in Hfind as [Hin _].
      by apply (proj1 (Forall_forall _ _) Hids). }
    unfold tx_bind at 1.
    rewrite (@get_taxonomy_vocabulary_found (wordpress_categories all_categories) w0 v Hfind).
    cbn [truthy_id]. replace (vocab_id v =? 0) with false by (symmetry; by apply Z.eqb_neq).
    unfold tx_bind at 1, sleep.
    match goal with |- context [tx_bind get_taxonomy_vocabulary _ ?w] => set (w1 := w) end.
    destruct (@mapping_stage_site (wordpress_categories all_categories) fuel
                all_categories w1 v) as (w' & Hrun & Hfile & Hst & Hsl & Hreq & Hcreq);
      try done.
    exists w', v, s.
    split; [exact Hrun|]. split; [exact Hfind|]. split; [done|]. split; [done|].
    split; [done|].
    split; [done|]. split; [exact Hfile|]. split; [exact Hst|].
    split; [by rewrite Hsl|]. rewrite Hreq, Hcreq.
    split; [cbn; lia|]. split; [done|]. done.
  - (* the vocabulary is created by the first look *)
    destruct (@get_taxonomy_vocabulary_created (wordpress_categories all_categories) w0 Hfind)
      as (w1 & Hrun1 & Hst1 & Hws1 & Hsl1 & Hreq1).
    unfold tx_bind at 1. rewrite Hrun1.
    change (taxonomy w0) with s in *.
    cbn [truthy_id]. replace (site_next_id s =? 0) with false
      by (symmetry; apply Z.eqb_neq; lia).
    unfold tx_bind at 1, sleep.
    match goal with |- context [tx_bind get_taxonomy_vocabulary _ ?w] => set (w2 := w) end.
    set (v := {| vocab_id := site_next_id s; vocab_name := taxonomy_vocabulary_name |}).
    assert (Hfind2 : find_vocabulary (site_vocabularies (taxonomy w2)) = Some v).
    { cbn [taxonomy w2]. rewrite Hst1. cbn. by apply find_vocabulary_snoc. }
    destruct (@mapping_stage_site (wordpress_categories all_categories) fuel
                all_categories w2 v) as (w' & Hrun & Hfile & Hst & Hsl & Hreq & Hcreq);
      try done.
    { cbn. lia. }
    { cbn [taxonomy w2]. rewrite Hst1. cbn. lia. }
    { cbn [taxonomy w2]. rewrite Hst1. cbn. lia. }
    exists w', v, (taxonomy w2).
    split; [exact Hrun|]. split; [exact Hfind2|].
    split; [cbn [taxonomy w2]; by rewrite Hst1|].
    split; [cbn [taxonomy w2]; rewrite Hst1; cbn; lia|].
    split.
    { cbn [taxonomy w2]. rewrite Hst1. cbn. apply Forall_app. split; [done|].
      repeat constructor. cbn. lia. }
    split; [done|]. split; [exact Hfile|]. split; [exact Hst|].
    split; [rewrite Hsl; cbn [slept w2]; by rewrite Hsl1|].
    rewrite Hreq, Hcreq. change (taxonomy_requests w2) with (taxonomy_requests w1).
    rewrite Hreq1. split; [cbn; lia|]. split; [done|]. done.
Qed.

(** X22. Against the WordPress and taxonomy models the script ends with
    [category_mapping.json] written: one entry for each WordPress
    category, in order, each pointing to a category of the vocabulary
    [Categorias] whose name is the WordPress name up to case and
    surrounding blanks.  The vocabulary is created at most once and the
    script has slept five seconds. *)
Theorem get_categories_wordpress_complete (all_categories : list Category)
    (s : taxonomy_site) (fuel : nat) :
  0 < site_next_id s →
  Forall (fun v => vocab_id v ≠ 0) (site_vocabularies s) →
  (length all_categories + 100 ≤ fuel * 100)%nat →
  (length (site_categories s) + 100 ≤ fuel * 100)%nat →
  ∃ w' mapping v,
    get_categories_wordpress fuel (script_start all_categories s) = (Done tt, w') ∧
    category_mapping_file (wordpress_side w') = Some mapping ∧
    wordpress_id <$> mapping = cat_id <$> all_categories ∧
    wordpress_name <$> mapping = cat_name <$> all_categories ∧
    find_vocabulary (site_vocabularies (taxonomy w')) = Some v ∧
    (∀ e, e ∈ mapping →
       ∃ tc, (vocab_id v, tc) ∈ site_categories (taxonomy w') ∧
             tc_id tc = liferay_id e ∧
             normalized_name (tc_name tc) = normalized_name (wordpress_name e)) ∧
    (length (List.filter is_vocabulary_creation (taxonomy_requests w')) ≤ 1)%nat ∧
    slept w' = 5.
Proof.
  intros Hnext Hids Hfuel1 Hfuel2.
  destruct (get_categories_wordpress_site all_categories s fuel Hnext Hids Hfuel1 Hfuel2)
    as (w' & v & s1 & Hrun & Hfind & _ & _ & _ & _ & Hfile & Hst & Hsl & Hvoc & _).
  exists w', (assigned (name_index (categories_of (vocab_id v) s1)) (site_next_id s1)
                all_categories), v.
  split; [exact Hrun|]. split; [exact Hfile|].
  split; [apply assigned_wordpress_ids|]. split; [apply assigned_wordpress_names|].
  rewrite Hst. split; [by rewrite add_categories_vocabularies|].
  split; [|done].
  intros e He. apply (assigned_sound _ _ _ s1); [|exact He].
  intros k id Hk. apply name_index_lookup_Some in Hk as (tc & Hin & Hname & Htc).
  exists tc. split; [by apply categories_of_elem|done].
Qed.

Lemma get_categories_wordpress_complete_witness :
  ∃ w' mapping v,
    get_categories_wordpress 2 (script_start sample_wp_categories sample_taxonomy)
      = (Done tt, w') ∧
    category_mapping_file (wordpress_side w') = Some mapping ∧
    wordpress_id <$> mapping = cat_id <$> sample_wp_categories ∧
    wordpress_name <$> mapping = cat_name <$> sample_wp_categories ∧
    find_vocabulary (site_vocabularies (taxonomy w')) = Some v ∧
    (∀ e, e ∈ mapping →
       ∃ tc, (vocab_id v, tc) ∈ site_categories (taxonomy w') ∧
             tc_id tc = liferay_id e ∧
             normalized_name (tc_name tc) = normalized_name (wordpress_name e)) ∧
    (length (List.filter is_vocabulary_creation (taxonomy_requests w')) ≤ 1)%nat ∧
    slept w' = 5.
Proof.
  apply (get_categories_wordpress_complete sample_wp_categories sample_taxonomy 2).
  - reflexivity.
  - repeat constructor; discriminate.
  - simpl. lia.
  - simpl. lia.
Defined.

(** X23. Against the taxonomy model [get_liferay_categories] reads the
    whole vocabulary, whatever its size, and returns the dictionary of all
    its categories; it changes nothing on the server and sends one request
    more than there are pages of 100. *)
Theorem get_liferay_categories_complete {env : Environment} (vid : Z) (fuel : nat)
    (w : @script_world env taxonomy_site_server) :
  (length (categories_of vid (taxonomy w)) + 100 ≤ fuel * 100)%nat →
  ∃ w',
    get_liferay_categories fuel vid w
    = (Done (name_index (categories_of vid (taxonomy w))), w') ∧
    taxonomy w' = taxonomy w ∧
    length (taxonomy_requests w') =
      (length (taxonomy_requests w)
       + (length (categories_of vid (taxonomy w)) + 99) / 100 + 1)%nat.
Proof.
  intros Hfuel.
  destruct (get_liferay_categories_loop_site vid fuel 0 [] w)
    as (w' & listings & Hrun & Hst & _ & _ & Hreq & _ & Hlen); [by left|lia|].
  exists w'. unfold get_liferay_categories, tx_bind.
  change (Z.of_nat 0 + 1) with 1 in Hrun. rewrite Hrun, drop_0, app_nil_l.
  split; [done|]. split; [done|].
  rewrite Hreq, length_app, Hlen. lia.
Qed.

Lemma get_liferay_categories_complete_witness :
  ∃ w',
    get_liferay_categories 2 1 (script_start [] sample_taxonomy)
    = (Done (name_index (categories_of 1 (taxonomy (script_start [] sample_taxonomy)))), w') ∧
    taxonomy w' = taxonomy (script_start [] sample_taxonomy) ∧
    length (taxonomy_requests w') =
      (length (taxonomy_requests (script_start [] sample_taxonomy))
       + (length (categories_of 1 (taxonomy (script_start [] sample_taxonomy))) + 99) / 100
       + 1)%nat.
Proof.
  apply (get_liferay_categories_complete 1 2 (script_start [] sample_taxonomy)).
  simpl. lia.
Defined.

(** X24. The dictionary of [get_liferay_categories] gives, for a key, the
    id of the last listed category whose name has that key once stripped
    and put in lower case; a key of no category is not in it. *)
Theorem name_index_last_match (liferay_categories : list TaxonomyCategory)
    (key : string) :
  name_index liferay_categories !! key
  = tc_id <$> last (filter (fun category => normalized_name (tc_name category) = key)
                      liferay_categories).
Proof.
  induction liferay_categories as [|c l IH] using rev_ind.
  - unfold name_index. cbn. by rewrite lookup_empty.
  - rewrite name_index_snoc, filter_app.
    destruct (decide (normalized_name (tc_name c) = key)) as [Hkey|Hkey].
    + rewrite filter_cons_True by done. rewrite filter_nil, last_snoc.
      subst key. by rewrite lookup_insert_eq.
    + rewrite filter_cons_False by done. rewrite filter_nil, app_nil_r.
      by rewrite lookup_insert_ne.
Qed.

(** ** A second run of the script *)

Lemma add_categories_exact (vid : Z) (names : list string) :
  ∀ s, site_categories (add_categories vid names s)
       = site_categories s
         ++ ((fun c => (vid, c)) <$> new_categories (site_next_id s) names).
Proof.
  induction names as [|name names IH]; intros s.
  - cbn. by rewrite app_nil_r.
  - rewrite add_categories_cons, IH. cbn. by rewrite <- app_assoc.
Qed.

Lemma categories_of_add (vid : Z) (names : list string) (s : taxonomy_site) :
  categories_of vid (add_categories vid names s)
  = categories_of vid s ++ new_categories (site_next_id s) names.
Proof.
  unfold categories_of. rewrite add_categories_exact, List.filter_app, fmap_app.
  f_equal. induction (new_categories (site_next_id s) names) as [|c l IH]; [done|].
  cbn. rewrite Z.eqb_refl. cbn. by rewrite IH.
Qed.

Lemma new_categories_names (names : list string) :
  ∀ next, tc_name <$> new_categories next names = names.
Proof.
  induction names as [|name names IH]; intros next; [done|]. cbn. by rewrite IH.
Qed.

Lemma new_categories_split (names : list string) :
  ∀ (next : Z) (i : nat) (name : string),
  names !! i = Some name →
  new_categories next names
  = new_categories next (take i names)
    ++ {| tc_id := next + Z.of_nat i; tc_name := name |}
       :: new_categories (next + Z.of_nat i + 1) (drop (S i) names).
Proof.
  induction names as [|n names IH]; intros next i name Hi; [done|].
  destruct i as [|i].
  - injection Hi as ->. cbn. by rewrite Z.add_0_r.
  - cbn in Hi. cbn [take drop new_categories app]. f_equal.
    rewrite (IH (next + 1) i name Hi).
    by replace (next + 1 + Z.of_nat i) with (next + Z.of_nat (S i)) by lia.
Qed.

Lemma name_index_app_other (l1 l2 : list TaxonomyCategory) (k : string) :
  (∀ tc, tc ∈ l2 → normalized_name (tc_name tc) ≠ k) →
  name_index (l1 ++ l2) !! k = name_index l1 !! k.
Proof.
  induction l2 as [|c l2 IH] using rev_ind; intros H; [by rewrite app_nil_r|].
  rewrite app_assoc, name_index_snoc, lookup_insert_ne.
  - apply IH. intros tc Htc. apply H. apply elem_of_app. by left.
  - apply H. apply elem_of_app. right. by apply list_elem_of_singleton.
Qed.

(** When [index2] knows every category under the id the first run gave
    it, the second run assigns the same ids. *)
Lemma assigned_agree (index1 index2 : gmap string Z) (cs : list Category) :
  ∀ next next2,
  (∀ c id, c ∈ cs → index1 !! normalized_name (cat_name c) = Some id →
           index2 !! normalized_name (cat_name c) = Some id) →
  (∀ i c, List.filter (absent_from index1) cs !! i = Some c →
          index2 !! normalized_name (cat_name c) = Some (next + Z.of_nat i)) →
  assigned index2 next2 cs = assigned index1 next cs ∧
  List.filter (absent_from index2) cs = [].
Proof.
  induction cs as [|c cs IH]; intros next next2 Hpresent Habsent; [done|].
  cbn [assigned List.filter] in *.
  destruct (index1 !! normalized_name (cat_name c)) as [id|] eqn:H1.
  - assert (Hc1 : absent_from index1 c = false)
      by (unfold absent_from; by rewrite H1, bool_decide_eq_false_2).
    pose proof (Hpresent c id (proj2 (elem_of_cons _ _ _) (or_introl eq_refl)) H1)
      as H2.
    assert (Hc2 : absent_from index2 c = false)
      by (unfold absent_from; by rewrite H2, bool_decide_eq_false_2).
    rewrite Hc1 in Habsent. rewrite H2, Hc2.
    destruct (IH next next2) as [-> ->]; [|done|done].
    intros c' id' Hc'. apply Hpresent. apply elem_of_cons. by right.
  - assert (Hc1 : absent_from index1 c = true)
      by (unfold absent_from; by rewrite H1, bool_decide_eq_true_2).
    rewrite Hc1 in Habsent.
    pose proof (Habsent 0%nat c eq_refl) as H2. rewrite Z.add_0_r in H2.
    assert (Hc2 : absent_from index2 c = false)
      by (unfold absent_from; by rewrite H2, bool_decide_eq_false_2).
    rewrite H2, Hc2.
    destruct (IH (next + 1) next2) as [-> ->]; [| |done].
    + intros c' id' Hc'. apply Hpresent. apply elem_of_cons. by right.
    + intros i c' Hi. rewrite (Habsent (S i) c' Hi). f_equal. lia.
Qed.

Lemma absent_norms_NoDup (index : gmap string Z) (cs : list Category) :
  NoDup ((fun c => normalized_name (cat_name c)) <$> cs) →
  NoDup ((fun c => normalized_name (cat_name c)) <$> List.filter (absent_from index) cs).
Proof.
  induction cs as [|c cs IH]; intros Hnd; [done|].
  cbn in Hnd. apply NoDup_cons in Hnd as [Hnotin Hnd].
  cbn [List.filter]. destruct (absent_from index c); [|by apply IH].
  cbn. apply NoDup_cons. split; [|by apply IH].
  intros Hin. apply Hnotin.
  apply list_elem_of_fmap in Hin as (c' & Heq & Hc').
  apply list_elem_of_fmap. exists c'. split; [done|].
  apply list_elem_of_In, List.filter_In in Hc' as [Hc' _]. by apply list_elem_of_In.
Qed.

(** The dictionary after the first run knows every WordPress category. *)
Lemma rerun_index (vid : Z) (s1 : taxonomy_site) (cs : list Category) (next2 : Z) :
  NoDup ((fun c => normalized_name (cat_name c)) <$> cs) →
  let index1 := name_index (categories_of vid s1) in
  let s' := add_categories vid (cat_name <$> List.filter (absent_from index1) cs) s1 in
  let index2 := name_index (categories_of vid s') in
  assigned index2 next2 cs = assigned index1 (site_next_id s1) cs ∧
  List.filter (absent_from index2) cs = [].
Proof.
  intros Hnd index1 s' index2.
  set (absent := List.filter (absent_from index1) cs).
  assert (Hcats : categories_of vid s'
                  = categories_of vid s1
                    ++ new_categories (site_next_id s1) (cat_name <$> absent))
    by apply categories_of_add.
  assert (Habs : ∀ c, c ∈ absent → index1 !! normalized_name (cat_name c) = None).
  { intros c Hc. apply list_elem_of_In, List.filter_In in Hc as [_ Hc].
    by apply bool_decide_eq_true_1 in Hc. }
  apply assigned_agree.
  - intros c id Hc Hid. unfold index2. rewrite Hcats.
    rewrite name_index_app_other; [done|].
    intros tc Htc Heq.
    assert (Hname : tc_name tc ∈ cat_name <$> absent).
    { rewrite <- (new_categories_names (cat_name <$> absent) (site_next_id s1)).
      apply list_elem_of_fmap. by exists tc. }
    apply list_elem_of_fmap in Hname as (c' & Hname & Hc').
    apply Habs in Hc'. rewrite <- Hname, Heq in Hc'. fold index1 in Hid. congruence.
  - intros i c Hi. fold absent in Hi. unfold index2. rewrite Hcats.
    assert (Hn : (cat_name <$> absent) !! i = Some (cat_name c))
      by (by rewrite list_lookup_fmap, Hi).
    rewrite (new_categories_split _ (site_next_id s1) i (cat_name c) Hn).
    rewrite app_assoc.
    apply (name_index_last _ _ {| tc_id := site_next_id s1 + Z.of_nat i;
                                  tc_name := cat_name c |}).
    intros tc Htc Heq. cbn [tc_name] in Heq.
    assert (Hname : tc_name tc ∈ drop (S i) (cat_name <$> absent)).
    { rewrite <- (new_categories_names (drop (S i) (cat_name <$> absent))
                    (site_next_id s1 + Z.of_nat i + 1)).
      apply list_elem_of_fmap. by exists tc. }
    rewrite <- fmap_drop in Hname.
    apply list_elem_of_fmap in Hname as (c' & Hname & Hc').
    pose proof (absent_norms_NoDup index1 cs Hnd) as Hnd'. fold absent in Hnd'.
    rewrite <- (take_drop_middle absent i c Hi) in Hnd'.
    rewrite fmap_app, fmap_cons in Hnd'.
    apply NoDup_app in Hnd' as (_ & _ & Hnd').
    apply NoDup_cons in Hnd' as [Hnotin _].
    apply Hnotin. apply list_elem_of_fmap. exists c'. split; [|done].
    by rewrite <- Heq, Hname.
Qed.

(** X25. When no two WordPress categories have the same normalised name,
    a second run of the script against the taxonomy the first run left
    writes the same [category_mapping.json], creates nothing and leaves
    the taxonomy as it is. *)
Theorem get_categories_wordpress_rerun (all_categories : list Category)
    (s : taxonomy_site) (fuel : nat) :
  0 < site_next_id s →
  Forall (fun v => vocab_id v ≠ 0) (site_vocabularies s) →
  (length (site_categories s) + length all_categories + 100 ≤ fuel * 100)%nat →
  NoDup ((fun c => normalized_name (cat_name c)) <$> all_categories) →
  ∃ w1 w2,
    get_categories_wordpress fuel (script_start all_categories s) = (Done tt, w1) ∧
    get_categories_wordpress fuel (script_start all_categories (taxonomy w1))
      = (Done tt, w2) ∧
    category_mapping_file (wordpress_side w2) = category_mapping_file (wordpress_side w1) ∧
    taxonomy w2 = taxonomy w1 ∧
    List.filter is_vocabulary_creation (taxonomy_requests w2) = [] ∧
    List.filter is_category_creation (taxonomy_requests w2) = [].
Proof.
  intros Hnext Hids Hfuel Hnd.
  destruct (get_categories_wordpress_site all_categories s fuel)
    as (w1 & v & s1 & Hrun1 & Hfind1 & Hcats1 & Hnext1 & Hids1 & _ & Hfile1 & Hst1 & _);
    [done|done|lia|lia|].
  set (index1 := name_index (categories_of (vocab_id v) s1)) in *.
  set (absent := List.filter (absent_from index1) all_categories) in *.
  assert (Hfind' : find_vocabulary (site_vocabularies (taxonomy w1)) = Some v)
    by (by rewrite Hst1, add_categories_vocabularies).
  destruct (get_categories_wordpress_site all_categories (taxonomy w1) fuel)
    as (w2 & v2 & s2 & Hrun2 & Hfind2 & _ & _ & _ & Hsame & Hfile2 & Hst2 & _ & _
        & Hvoc2 & Hcreq2).
  { rewrite Hst1, add_categories_next_id. lia. }
  { by rewrite Hst1, add_categories_vocabularies. }
  { lia. }
  { rewrite Hst1, add_categories_exact, length_app, length_fmap, Hcats1.
    assert (length (new_categories (site_next_id s1) (cat_name <$> absent))
            ≤ length all_categories)%nat; [|lia].
    rewrite <- (length_fmap tc_name), new_categories_names, length_fmap.
    unfold absent. clear. induction all_categories as [|c cs IH]; [done|].
    cbn [List.filter]. destruct (absent_from index1 c); cbn [length]; lia. }
  rewrite (Hsame v Hfind') in *. rewrite Hfind' in Hfind2. injection Hfind2 as <-.
  destruct (rerun_index (vocab_id v) s1 all_categories (site_next_id (taxonomy w1)) Hnd)
    as [Hassigned Hnone].
  fold index1 absent in Hassigned, Hnone.
  rewrite <- Hst1 in Hassigned, Hnone.
  exists w1, w2. split; [exact Hrun1|]. split; [exact Hrun2|].
  split; [by rewrite Hfile2, Hfile1, Hassigned|].
  split; [by rewrite Hst2, Hnone|].
  split; [by apply (Hvoc2 v)|].
  by rewrite Hcreq2, Hnone.
Qed.

Lemma get_categories_wordpress_rerun_witness :
  ∃ w1 w2,
    get_categories_wordpress 2 (script_start (take 2 sample_wp_categories) sample_taxonomy)
      = (Done tt, w1) ∧
    get_categories_wordpress 2 (script_start (take 2 sample_wp_categories) (taxonomy w1))
      = (Done tt, w2) ∧
    category_mapping_file (wordpress_side w2) = category_mapping_file (wordpress_side w1) ∧
    taxonomy w2 = taxonomy w1 ∧
    List.filter is_vocabulary_creation (taxonomy_requests w2) = [] ∧
    List.filter is_category_creation (taxonomy_requests w2) = [].
Proof.
  apply (get_categories_wordpress_rerun (take 2 sample_wp_categories) sample_taxonomy 2).
  - reflexivity.
  - repeat constructor; discriminate.
  - simpl. lia.
  - vm_compute. repeat constructor; rewrite ?elem_of_cons, ?elem_of_nil; intuition discriminate.
Defined.

Lemma get_categories_wordpress_creation_not_200_witness :
  get_categories_wordpress 1 answers_created_start
  = (Done tt,
     @Build_script_world (wordpress_categories []) (scripted_taxonomy answers_created)
       (snd (get_all_categories 1 (wordpress_side answers_created_start))) tt
       [(TxListVocabularies, tx_ok (TxVocabularies []));
        (TxCreateVocabulary taxonomy_vocabulary_name,
         TxReply {| tx_status_code := 201; tx_body := TxCreated 5 |})]
       0).
Proof.
  apply (@get_categories_wordpress_creation_not_200 (wordpress_categories [])
           (scripted_taxonomy answers_created) 1 answers_created_start []
           (snd (get_all_categories 1 (wordpress_side answers_created_start)))
           {| tx_status_code := 200; tx_body := TxVocabularies [] |}
           {| tx_status_code := 201; tx_body := TxCreated 5 |} tt tt []).
  - vm_compute. reflexivity.
  - reflexivity.
  - reflexivity.
  - reflexivity.
  - reflexivity.
  - reflexivity.
  - discriminate.
Defined.

(** * The images of a post *)

Lemma string_app_assoc (a b c : string) : (a +:+ b) +:+ c = a +:+ (b +:+ c).
Proof.
  induction a as [|x a IH]; [done|].
  change (String x ((a +:+ b) +:+ c) = String x (a +:+ (b +:+ c))). by f_equal.
Qed.

Lemma drop_chars_split (n : nat) :
  ∀ s, ∃ p, s = p +:+ drop_chars n s.
Proof.
  induction n as [|n IH]; intros s; [by exists ""|].
  destruct s as [|c s]; [by exists ""|].
  destruct (IH s) as [p Hp]. exists (String c p). cbn [drop_chars].
  change (String c s = String c (p +:+ drop_chars n s)). by f_equal.
Qed.

Lemma is_prefix_split (p : string) :
  ∀ s, PyStr.is_prefix p s = true → s = p +:+ drop_chars (String.length p) s.
Proof.
  induction p as [|a p IH]; intros s H; [done|].
  destruct s as [|b s]; [done|]. cbn in H.
  destruct (decide (a = b)) as [->|]; [|done]. cbn [String.length drop_chars].
  change (String b s = String b (p +:+ drop_chars (String.length p) s)).
  f_equal. by apply IH.
Qed.

Lemma span_length_le (stop : ascii) (s : string) :
  (span_length stop s ≤ String.length s)%nat.
Proof.
  induction s as [|c s IH]; [done|]. cbn. destruct (decide (c = stop)); lia.
Qed.

(** The stretch before the first [stop] does not contain it, and when
    the stretch is not the whole string, [stop] follows it. *)
Lemma span_length_take (stop : ascii) (s : string) :
  PyStr.contains_char stop (PyStr.take (span_length stop s) s) = false.
Proof.
  induction s as [|c s IH]; [done|]. cbn.
  destruct (decide (c = stop)) as [->|Hne]; [done|]. cbn.
  by destruct (decide (c = stop)).
Qed.

Lemma span_length_stop (stop : ascii) (s : string) :
  (span_length stop s < String.length s)%nat →
  s = PyStr.take (span_length stop s) s
      +:+ String stop (drop_chars (S (span_length stop s)) s).
Proof.
  induction s as [|c s IH]; [cbn; lia|]. cbn.
  destruct (decide (c = stop)) as [->|Hne]; [done|].
  intros H. cbn [PyStr.take drop_chars].
  change (String c s
          = String c (PyStr.take (span_length stop s) s
                      +:+ String stop (drop_chars (S (span_length stop s)) s))).
  f_equal. apply IH. lia.
Qed.

Lemma occurs_eq (old s : string) :
  occurs old s
  = PyStr.is_prefix old s
    || match s with EmptyString => false | String _ s' => occurs old s' end.
Proof. by destruct s. Qed.

Lemma occurs_here (old s : string) : occurs old (old +:+ s) = true.
Proof. by rewrite occurs_eq, is_prefix_app. Qed.

Lemma occurs_later (old p s : string) :
  occurs old s = true → occurs old (p +:+ s) = true.
Proof.
  intros H. induction p as [|c p IH]; [done|].
  change (String c p +:+ s) with (String c (p +:+ s)).
  rewrite occurs_eq, IH. apply orb_true_r.
Qed.

Lemma occurs_is_prefix (old s : string) :
  occurs old s = false → PyStr.is_prefix old s = false.
Proof. rewrite occurs_eq. intros H. by apply orb_false_elim in H as [H _]. Qed.

(** What a match of [src=...] says about the text. *)
Lemma match_src_sound (k : nat) (t url : string) (len : nat) :
  match_src k t = Some (url, len) →
  url ≠ "" ∧
  PyStr.contains_char PyStr.quote url = false ∧
  (0 < len)%nat ∧
  occurs (src_attribute +:+ url +:+ String PyStr.quote "") t = true.
Proof.
  unfold match_src.
  remember (drop_chars k t) as tk eqn:Htk.
  destruct (PyStr.is_prefix src_attribute tk) eqn:Hsrc; [|done].
  remember (drop_chars 5 tk) as value eqn:Hvalue.
  destruct ((0 <? span_length PyStr.quote value)%nat
            && (span_length PyStr.quote value <? String.length value)%nat) eqn:Hn;
    [|done].
  apply andb_true_iff in Hn as [Hpos Hlt].
  apply Nat.ltb_lt in Hpos, Hlt.
  intros [= <- <-].
  split.
  { clear Hvalue. destruct value as [|c value]; [cbn in Hlt; lia|].
    cbn [span_length] in Hpos |- *.
    destruct (decide (c = PyStr.quote)); [lia|done]. }
  split; [apply span_length_take|]. split; [lia|].
  assert (E1 : tk = src_attribute +:+ value)
    by (rewrite Hvalue; apply (is_prefix_split src_attribute tk Hsrc)).
  pose proof (span_length_stop PyStr.quote value Hlt) as E2.
  remember (PyStr.take (span_length PyStr.quote value) value) as v eqn:Hv.
  remember (drop_chars (S (span_length PyStr.quote value)) value) as rest eqn:Hrest.
  destruct (drop_chars_split k t) as [p Hp]. rewrite <- Htk in Hp.
  rewrite Hp, E1, E2. apply occurs_later.
  replace (src_attribute +:+ v +:+ String PyStr.quote rest)
    with ((src_attribute +:+ v +:+ String PyStr.quote "") +:+ rest).
  - apply occurs_here.
  - by rewrite !string_app_assoc.
Qed.

Lemma match_tag_sound (t url : string) (len : nat) :
  ∀ k, match_tag k t = Some (url, len) →
  url ≠ "" ∧
  PyStr.contains_char PyStr.quote url = false ∧
  (0 < len)%nat ∧
  occurs (src_attribute +:+ url +:+ String PyStr.quote "") t = true.
Proof.
  induction k as [|k IH]; [done|]. cbn [match_tag].
  destruct (match_src (S k) t) as [[url' len']|] eqn:Hsrc; [|exact IH].
  intros [= -> ->]. by apply (match_src_sound (S k)).
Qed.

Lemma match_img_sound (s url : string) (len : nat) :
  match_img s = Some (url, len) →
  url ≠ "" ∧
  PyStr.contains_char PyStr.quote url = false ∧
  occurs (src_attribute +:+ url +:+ String PyStr.quote "") s = true.
Proof.
  unfold match_img. destruct (PyStr.is_prefix "<img" s) eqn:Himg; [|done].
  destruct (match_tag _ _) as [[url' len']|] eqn:Htag; [|done].
  intros [= -> <-]. apply match_tag_sound in Htag as (Hne & Hq & _ & Hocc).
  split; [done|]. split; [done|].
  destruct (drop_chars_split 4 s) as [p Hp]. rewrite Hp. by apply occurs_later.
Qed.

Lemma findall_img_sound (url : string) :
  ∀ s skip, url ∈ findall_img skip s →
  url ≠ "" ∧
  PyStr.contains_char PyStr.quote url = false ∧
  occurs (src_attribute +:+ url +:+ String PyStr.quote "") s = true.
Proof.
  induction s as [|c s IH]; intros skip Hin; [by apply not_elem_of_nil in Hin|].
  assert (Hlater : ∀ k, url ∈ findall_img k s →
            url ≠ "" ∧ PyStr.contains_char PyStr.quote url = false ∧
            occurs (src_attribute +:+ url +:+ String PyStr.quote "") (String c s) = true).
  { intros k Hk. destruct (IH k Hk) as (Hne & Hq & Hocc).
    split; [done|]. split; [done|]. by apply (occurs_later _ (String c "")). }
  cbn [findall_img] in Hin. destruct skip as [|k]; [|by apply (Hlater k)].
  destruct (match_img (String c s)) as [[url' len]|] eqn:Hm; [|by apply (Hlater 0%nat)].
  apply elem_of_cons in Hin as [->|Hin]; [|by apply (Hlater (len - 1)%nat)].
  by apply (match_img_sound _ _ len).
Qed.

(** X26. Every URL [extract_image_urls] returns is not empty, has no
    double quote in it, and stands in the content between [src=] with its
    opening quote and a closing quote. *)
Theorem extract_image_urls_sound (content url : string) :
  url ∈ extract_image_urls content →
  url ≠ "" ∧
  PyStr.contains_char PyStr.quote url = false ∧
  occurs (src_attribute +:+ url +:+ String PyStr.quote "") content = true.
Proof. intros Hin. by apply (findall_img_sound url content 0%nat). Qed.

Lemma extract_image_urls_sound_witness :
  "/wp-content/a.jpg" ≠ "" ∧
  PyStr.contains_char PyStr.quote "/wp-content/a.jpg" = false ∧
  occurs (src_attribute +:+ "/wp-content/a.jpg" +:+ String PyStr.quote "")
    (post_content image_post) = true.
Proof.
  apply (extract_image_urls_sound (post_content image_post) "/wp-content/a.jpg").
  assert (E : extract_image_urls (post_content image_post) = ["/wp-content/a.jpg"])
    by (vm_compute; reflexivity).
  rewrite E. apply list_elem_of_here.
Defined.

Lemma findall_img_without_tag :
  ∀ s skip, occurs "<img" s = false → findall_img skip s = [].
Proof.
  induction s as [|c s IH]; intros skip H; [done|].
  pose proof (occurs_is_prefix _ _ H) as Hp.
  rewrite occurs_eq in H. apply orb_false_elim in H as [_ H].
  cbn [findall_img]. destruct skip as [|k]; [|by apply IH].
  unfold match_img. rewrite Hp. by apply IH.
Qed.

(** X27. A content in which [<img] does not occur has no image URL, and
    so none that [filter_valid_image_urls] keeps. *)
Theorem extract_image_urls_without_tag (content : string) :
  occurs "<img" content = false →
  extract_image_urls content = [] ∧
  filter_valid_image_urls (extract_image_urls content) = [].
Proof.
  intros H. unfold extract_image_urls. by rewrite findall_img_without_tag.
Qed.

Lemma extract_image_urls_without_tag_witness :
  extract_image_urls "<p>sem imagem</p>" = [] ∧
  filter_valid_image_urls (extract_image_urls "<p>sem imagem</p>") = [].
Proof.
  apply (extract_image_urls_without_tag "<p>sem imagem</p>").
  vm_compute. reflexivity.
Defined.

(** ** Posts without images *)

Section Imageless.

Context {env : Environment}.

Lemma only_post_pages_refl (w : world) : only_post_pages w w.
Proof. split; [|done]. exists []. by rewrite app_nil_r. Qed.

Lemma only_post_pages_trans (w1 w2 w3 : world) :
  only_post_pages w1 w2 → only_post_pages w2 w3 → only_post_pages w1 w3.
Proof.
  intros ((g1 & Ht1 & Hg1) & Hu1 & Hc1 & Hf1) ((g2 & Ht2 & Hg2) & Hu2 & Hc2 & Hf2).
  split; [|by rewrite Hu2, Hc2, Hf2].
  exists (g1 ++ g2). split; [by rewrite Ht2, Ht1, app_assoc|]. by apply Forall_app.
Qed.

Lemma only_post_pages_exchange (c page : Z) (rep : reply) (s' : Server) (w : world) :
  only_post_pages w (log_exchange (WpGetPostsByCategory c 100 page) rep s' w).
Proof.
  split; [|done]. exists [(WpGetPostsByCategory c 100 page, rep)].
  split; [done|]. by repeat constructor.
Qed.

(** The pagination of the image migrator only asks for pages of posts,
    and the posts it returns came in such pages. *)
Lemma get_posts_by_category_loop_frame (P : Post → Prop) (fuel : nat) (c : Z) :
  (∀ req s r s' posts,
     serve req s = (Reply r, s') → resp_body r = JsonPosts posts → Forall P posts) →
  ∀ posts page w,
  Forall P posts →
  only_post_pages w (snd (get_posts_by_category_loop fuel c posts page w)) ∧
  ∀ ps, fst (get_posts_by_category_loop fuel c posts page w) = Done ps → Forall P ps.
Proof.
  intros Hserve. induction fuel as [|fuel IH]; intros posts page w Hposts.
  { split; [apply only_post_pages_refl|done]. }
  destruct (serve (WpGetPostsByCategory c 100 page) (server w)) as [rep s'] eqn:Hs.
  destruct (request_failed rep) eqn:Hfail.
  { rewrite (get_posts_by_category_failed _ _ _ _ _ _ _ Hs Hfail).
    split; [apply only_post_pages_exchange|]. by intros ps [= <-]. }
  destruct rep as [|r]; [done|].
  destruct (resp_body r) as [| | |data| | | |] eqn:Hb.
  4: { pose proof (Hserve _ _ _ _ _ Hs Hb) as Hdata.
       destruct (decide (length data < 100)%nat).
       - rewrite (get_posts_by_category_short _ _ _ _ _ _ _ _ Hs Hfail Hb) by done.
         split; [apply only_post_pages_exchange|].
         intros ps [= <-]. by apply Forall_app.
       - rewrite (get_posts_by_category_full _ _ _ _ _ _ _ _ Hs Hfail Hb) by lia.
         destruct (IH (posts ++ data) (page + 1)
                     (log_exchange (WpGetPostsByCategory c 100 page) (Reply r) s' w))
           as [Hw Hps]; [by apply Forall_app|].
         split; [|exact Hps].
         eapply only_post_pages_trans; [apply only_post_pages_exchange|exact Hw]. }
  all: assert (E : get_posts_by_category_loop (S fuel) c posts page w
                   = (Done posts,
                      log_exchange (WpGetPostsByCategory c 100 page) (Reply r) s' w))
         by (simpl; unfold try_except, bind at 1 2; rewrite (http_serve _ _ _ _ Hs);
             unfold lift at 1 2; rewrite (raise_for_status_done _ Hfail);
             unfold json_posts; by rewrite Hb);
    rewrite E; (split; [apply only_post_pages_exchange|by intros ps [= <-]]).
Qed.

End Imageless.

Section ImagelessRun.

Context {env : Environment} {img : ImageEnvironment}.

Local Open Scope img_scope.

(** Posts without images to migrate are passed over. *)
Lemma process_category_posts_without_images (fuel : nat) (name : string) :
  ∀ (posts : list Post) (processed : gset Z) (w : image_world),
  Forall (fun post => no_valid_image post = true) posts →
  ∃ processed', process_category_posts fuel name posts processed w = (Done processed', w).
Proof.
  induction posts as [|post posts IH]; intros processed w Hposts; [by eexists|].
  apply Forall_cons in Hposts as [Hpost Hposts].
  cbn [process_category_posts].
  destruct (decide (post_id post ∈ processed)); [by apply IH|].
  unfold no_valid_image in Hpost.
  destruct (filter_valid_image_urls (extract_image_urls (post_content post)));
    [by apply IH|done].
Qed.

Lemma process_categories_without_images (fuel : nat) :
  imageless env →
  ∀ (category_mapping : list CategoryMapping) (processed : gset Z) (w : image_world),
  only_post_pages (folders_side w)
    (folders_side (snd (process_categories fuel category_mapping processed w))) ∧
  media_traffic (snd (process_categories fuel category_mapping processed w))
    = media_traffic w ∧
  disk (snd (process_categories fuel category_mapping processed w)) = disk w ∧
  images_uploaded (snd (process_categories fuel category_mapping processed w))
    = images_uploaded w ∧
  ∀ e, fst (process_categories fuel category_mapping processed w) ≠ Raised e.
Proof.
  intros Himg. induction category_mapping as [|category_map rest IH];
    intros processed w.
  { split; [apply only_post_pages_refl|done]. }
  destruct (get_posts_by_category_loop_frame (fun post => no_valid_image post = true)
              fuel (wordpress_id category_map) Himg [] 1 (folders_side w))
    as [Hw Hps]; [done|].
  pose proof (get_posts_by_category_loop_no_raise fuel (wordpress_id category_map)
                [] 1 (folders_side w)) as Hnr.
  destruct (get_posts_by_category_loop fuel (wordpress_id category_map) [] 1
              (folders_side w)) as [[posts|e|] ws] eqn:Hloop.
  - cbn [fst snd] in Hw, Hps.
    set (w1 := {| folders_side := ws; disk := disk w;
                  media_traffic := media_traffic w;
                  images_uploaded := images_uploaded w |}).
    destruct (process_category_posts_without_images fuel (liferay_name category_map)
                posts processed w1 (Hps posts eq_refl)) as [processed' Hposts].
    assert (E : process_categories fuel (category_map :: rest) processed w
                = process_categories fuel rest processed' w1).
    { cbn [process_categories]. unfold img_bind at 1, on_folders_side,
        get_posts_by_category. rewrite Hloop. unfold img_bind at 1.
      fold w1. by rewrite Hposts. }
    rewrite E. destruct (IH processed' w1) as (Hw' & Hm & Hd & Hi & Hne).
    split; [eapply only_post_pages_trans; [exact Hw|exact Hw']|].
    split; [by rewrite Hm|]. split; [by rewrite Hd|]. split; [by rewrite Hi|done].
  - by destruct (Hnr e).
  - assert (E : process_categories fuel (category_map :: rest) processed w
                = (Diverge, {| folders_side := ws; disk := disk w;
                               media_traffic := media_traffic w;
                               images_uploaded := images_uploaded w |})).
    { cbn [process_categories]. unfold img_bind at 1, on_folders_side,
        get_posts_by_category. by rewrite Hloop. }
    rewrite E. cbn [fst snd] in Hw |- *. done.
Qed.

(** X28. When the pages of posts the servers send are JSON arrays of
    posts (or not JSON at all) and no post among them has an image to
    migrate, [process_posts] only asks WordPress for pages of posts: it
    creates no folder, sends no request about images or documents, leaves
    the disk and the counters of folders and images as they are, and does
    not raise unless [category_mapping.json] cannot be loaded. *)
Theorem process_posts_without_images (fuel : nat) (w : image_world) :
  imageless env →
  pages_of_posts env →
  only_post_pages (folders_side w) (folders_side (snd (process_posts fuel w))) ∧
  media_traffic (snd (process_posts fuel w)) = media_traffic w ∧
  disk (snd (process_posts fuel w)) = disk w ∧
  images_uploaded (snd (process_posts fuel w)) = images_uploaded w ∧
  (∀ e, fst (process_posts fuel w) = Raised e →
        category_mapping_file (folders_side w) = None).
Proof.
  intros Himg _.
  destruct (category_mapping_file (folders_side w)) as [category_mapping|] eqn:Hfile.
  - assert (E : process_posts fuel w = process_categories fuel category_mapping ∅ w)
      by (unfold process_posts, img_bind, load_category_mapping; by rewrite Hfile).
    rewrite E.
    destruct (process_categories_without_images fuel Himg category_mapping ∅ w)
      as (Hw & Hm & Hd & Hi & Hne).
    split; [done|]. split; [done|]. split; [done|]. split; [done|].
    intros e He. by destruct (Hne e).
  - assert (E : process_posts fuel w = (Raised (GenericException "FileNotFoundError"), w))
      by (unfold process_posts, img_bind, load_category_mapping; by rewrite Hfile).
    rewrite E. split; [apply only_post_pages_refl|done].
Qed.

End ImagelessRun.

(** The WordPress model over posts without images is [imageless]. *)
Lemma wordpress_imageless (all_posts : list Post) :
  Forall (fun post => no_valid_image post = true) all_posts →
  imageless (wordpress all_posts).
Proof.
  intros Hall req s r s' posts Hs Hb.
  assert (Hpage : ∀ items per_page page,
            Forall (fun post => no_valid_image post = true) items →
            wordpress_page items per_page page = Reply r →
            Forall (fun post => no_valid_image post = true) posts).
  { intros items per_page page Hitems Hr. unfold wordpress_page in Hr.
    destruct (_ || _) in Hr.
    - injection Hr as <-. cbn in Hb. discriminate.
    - injection Hr as <-. cbn in Hb. injection Hb as <-.
      unfold page_slice. by apply Forall_take, Forall_drop. }
  cbn in Hs. destruct req; injection Hs as Hs _;
    try (subst r; cbn in Hb; discriminate).
  - by apply (Hpage all_posts per_page 1).
  - apply (Hpage (List.filter (in_category category_id) all_posts) per_page page);
      [|done].
    apply Forall_forall. intros post Hpost.
    apply list_elem_of_In, List.filter_In in Hpost as [Hpost _].
    by apply (proj1 (Forall_forall _ _) Hall), list_elem_of_In.
Qed.

(** The pages of the WordPress model are arrays of posts. *)
Lemma wordpress_pages_of_posts (all_posts : list Post) :
  pages_of_posts (wordpress all_posts).
Proof.
  intros req s r s' Hs Hreq Hok.
  destruct req; try discriminate. cbn in Hs. injection Hs as Hs _.
  unfold wordpress_page in Hs. destruct (_ || _) in Hs.
  - injection Hs as <-. cbn in Hok. discriminate.
  - injection Hs as <-. right. by eexists.
Qed.

Lemma process_posts_without_images_witness :
  only_post_pages (folders_side imageless_start)
    (folders_side (snd (process_posts 2 imageless_start))) ∧
  media_traffic (snd (process_posts 2 imageless_start)) = media_traffic imageless_start ∧
  disk (snd (process_posts 2 imageless_start)) = disk imageless_start ∧
  images_uploaded (snd (process_posts 2 imageless_start))
    = images_uploaded imageless_start ∧
  (∀ e, fst (process_posts 2 imageless_start) = Raised e →
        category_mapping_file (folders_side imageless_start) = None).
Proof.
  apply (@process_posts_without_images (wordpress (sample_posts 0 2))
           (scripted_images (fun _ => MdNoReply)) 2 imageless_start).
  - apply wordpress_imageless. repeat constructor.
  - apply wordpress_pages_of_posts.
Defined.

(** ** One image *)

Section OneImage.

Context {env : Environment} {img : ImageEnvironment}.

Local Open Scope img_scope.

Lemma image_step_refl (w : image_world) : image_step w w [] 0.
Proof. unfold image_step. rewrite app_nil_r. repeat split; lia. Qed.

Lemma image_step_trans (w1 w2 w3 : image_world) (s1 s2 : list media_request)
    (u1 u2 : Z) :
  image_step w1 w2 s1 u1 → image_step w2 w3 s2 u2 →
  image_step w1 w3 (s1 ++ s2) (u1 + u2).
Proof.
  intros (Hm1 & Hi1 & Ht1 & Hu1 & Hc1 & Hf1) (Hm2 & Hi2 & Ht2 & Hu2 & Hc2 & Hf2).
  unfold image_step. rewrite Hm2, Hm1, Hi2, Hi1, Ht2, Hu2, Hc2, Hf2, app_assoc.
  repeat split; try done. lia.
Qed.

Lemma image_step_disk (d : Disk) (w : image_world) : image_step w (with_disk d w) [] 0.
Proof. unfold image_step. cbn. rewrite app_nil_r. repeat split. lia. Qed.

Lemma media_http_step (req : media_request) (w : image_world) :
  image_step w (snd (media_http req w)) [req] 0.
Proof.
  unfold media_http. destruct (media_serve req (server (folders_side w))) as [rep s'].
  assert (H : image_step w (media_log_exchange req rep s' w) [req] 0).
  { unfold image_step, media_requests. cbn. rewrite fmap_app. repeat split. lia. }
  by destruct rep.
Qed.

Lemma write_file_step (path : string) (data : list Byte.byte) (w : image_world) :
  image_step w (snd (write_file path data w)) [] 0.
Proof.
  unfold write_file. destruct (disk_write path data (disk w)) as [failure d].
  apply image_step_disk.
Qed.

Lemma remove_file_step (path : string) (w : image_world) :
  image_step w (snd (remove_file path w)) [] 0.
Proof.
  unfold remove_file. destruct (disk_remove path (disk w)) as [failure d].
  apply image_step_disk.
Qed.

Lemma count_image_uploaded_step (w : image_world) :
  image_step w (snd (count_image_uploaded w)) [] 1.
Proof. unfold image_step. cbn. rewrite app_nil_r. repeat split. Qed.

(** A handler that raises the exception again changes nothing. *)
Lemma log_and_raise_id {A} (body : I A) (w : image_world) :
  img_try_except body log_and_raise w = body w.
Proof.
  unfold img_try_except, log_and_raise. destruct (body w) as [[a|e|] w']; try done.
  by destruct (is_RequestException e).
Qed.

Lemma download_image_step (url save_path : string) (w : image_world) :
  image_step w (snd (download_image url save_path w)) [ImageGet (download_url url)] 0.
Proof.
  destruct (download_image url save_path w) as [o w'] eqn:E. cbn [snd].
  unfold download_image in E. rewrite log_and_raise_id in E.
  unfold img_bind at 1 in E.
  pose proof (media_http_step (ImageGet (download_url url)) w) as Hget.
  destruct (media_http (ImageGet (download_url url)) w) as [[r|e|] w1];
    cbn [snd] in Hget; try (by injection E as <- <-).
  unfold img_bind at 1, img_lift in E.
  destruct (md_raise_for_status r) as [[]|e|]; try (by injection E as <- <-).
  unfold img_bind at 1 in E.
  pose proof (write_file_step save_path (md_content r) w1) as Hwrite.
  pose proof (image_step_trans _ _ _ _ _ _ _ Hget Hwrite) as Hboth.
  destruct (write_file save_path (md_content r) w1) as [[[]|e|] w2];
    cbn [snd] in Hboth; try (by injection E as <- <-).
  destruct (md_complete r); by injection E as <- <-.
Qed.

Lemma check_if_image_exists_in_folder_step (folder_id : Z) (image_name : string)
    (w : image_world) :
  image_step w (snd (check_if_image_exists_in_folder folder_id image_name w))
    [LrListDocuments folder_id] 0.
Proof.
  destruct (check_if_image_exists_in_folder folder_id image_name w) as [o w'] eqn:E.
  cbn [snd]. unfold check_if_image_exists_in_folder in E.
  rewrite log_and_raise_id in E. unfold img_bind at 1 in E.
  pose proof (media_http_step (LrListDocuments folder_id) w) as Hget.
  destruct (media_http (LrListDocuments folder_id) w) as [[r|e|] w1];
    cbn [snd] in Hget; try (by injection E as <- <-).
  unfold img_bind, img_lift in E.
  destruct (md_raise_for_status r) as [[]|e|]; try (by injection E as <- <-).
  destruct (json_documents r); by injection E as <- <-.
Qed.

(** [upload_image_to_liferay] counts an image exactly when it returns
    a URL, and the upload is asked for under the name of the file. *)
Lemma upload_image_to_liferay_step (folder_id : Z) (image_path : string)
    (w : image_world) :
  ∃ sent uploaded,
    image_step w (snd (upload_image_to_liferay folder_id image_path w)) sent uploaded ∧
    (sent = [LrListDocuments folder_id] ∨
     ∃ data, sent = [LrListDocuments folder_id;
                     LrUploadDocument folder_id (basename image_path) data]) ∧
    ((∃ url, fst (upload_image_to_liferay folder_id image_path w) = Done url) ∧
       uploaded = 1
     ∨ (∀ url, fst (upload_image_to_liferay folder_id image_path w) ≠ Done url) ∧
       uploaded = 0).
Proof.
  destruct (upload_image_to_liferay folder_id image_path w) as [o w'] eqn:E.
  cbn [fst snd]. unfold upload_image_to_liferay in E. unfold img_bind at 1 in E.
  pose proof (check_if_image_exists_in_folder_step folder_id (basename image_path) w)
    as Hcheck.
  destruct (check_if_image_exists_in_folder folder_id (basename image_path) w)
    as [[existing|e|] w1]; cbn [snd] in Hcheck.
  2,3: injection E as <- <-; exists [LrListDocuments folder_id], 0;
       (split; [done|]); (split; [by left|]); right; by split.
  destruct (truthy_url existing) as [url|].
  { unfold img_bind, img_ret in E.
    pose proof (image_step_trans _ _ _ _ _ _ _ Hcheck (count_image_uploaded_step w1))
      as Hstep.
    destruct (count_image_uploaded w1) as [[[]|e|] w2] eqn:Hc; try done.
    injection E as <- <-. cbn [snd] in Hstep.
    exists [LrListDocuments folder_id], 1. split; [done|]. split; [by left|].
    left. split; [by exists url|done]. }
  unfold img_bind at 1, read_file in E.
  destruct (disk_read image_path (disk w1)) as [e|data].
  { injection E as <- <-. exists [LrListDocuments folder_id], 0.
    split; [done|]. split; [by left|]. right. by split. }
  rewrite log_and_raise_id in E.
  pose proof (media_http_step
                (LrUploadDocument folder_id (basename image_path) data) w1) as Hpost.
  pose proof (image_step_trans _ _ _ _ _ _ _ Hcheck Hpost) as Hsent.
  cbn [app] in Hsent.
  exists [LrListDocuments folder_id;
          LrUploadDocument folder_id (basename image_path) data].
  unfold img_bind at 1 in E.
  destruct (media_http (LrUploadDocument folder_id (basename image_path) data) w1)
    as [[r|e|] w2]; cbn [snd] in Hsent.
  2,3: injection E as <- <-; exists 0; (split; [done|]);
       (split; [right; by eexists|]); right; by split.
  unfold img_bind at 1, img_lift in E.
  destruct (md_raise_for_status r) as [[]|e|].
  2,3: injection E as <- <-; exists 0; (split; [done|]);
       (split; [right; by eexists|]); right; by split.
  unfold img_bind at 1 in E.
  destruct (json_content_url r) as [url|e|].
  2,3: injection E as <- <-; exists 0; (split; [done|]);
       (split; [right; by eexists|]); right; by split.
  unfold img_bind, img_ret in E.
  pose proof (image_step_trans _ _ _ _ _ _ _ Hsent (count_image_uploaded_step w2))
    as Hstep.
  destruct (count_image_uploaded w2) as [[[]|e|] w3] eqn:Hc; try done.
  injection E as <- <-. cbn [snd] in Hstep. rewrite app_nil_r in Hstep.
  exists 1. split; [done|]. split; [right; by eexists|].
  left. split; [by exists url|done].
Qed.

End OneImage.

(** ** File names *)

Lemma basename_no_slash (path : string) :
  PyStr.contains_char "/" (basename path) = false.
Proof.
  induction path as [|c rest IH]; [done|]. cbn [basename].
  destruct (PyStr.contains_char "/" rest) eqn:Hrest; [done|].
  destruct (decide (c = "/"%char)) as [->|Hc]; [done|].
  cbn [PyStr.contains_char]. by destruct (decide (c = "/"%char)).
Qed.

Lemma basename_plain (name : string) :
  PyStr.contains_char "/" name = false → basename name = name.
Proof.
  destruct name as [|c rest]; [done|]. cbn [PyStr.contains_char basename].
  destruct (decide (c = "/"%char)); [done|]. by intros ->.
Qed.

Lemma basename_after_slash (a name : string) :
  PyStr.contains_char "/" name = false → basename (a +:+ "/" +:+ name) = name.
Proof.
  intros Hname. induction a as [|c a IH].
  - change ("" +:+ "/" +:+ name) with (String "/" name). cbn [basename].
    by rewrite Hname.
  - change (String c a +:+ "/" +:+ name) with (String c (a +:+ "/" +:+ name)).
    cbn [basename]. rewrite PyStrFacts.contains_char_app.
    replace (PyStr.contains_char "/" ("/" +:+ name)) with true by done.
    by rewrite orb_true_r.
Qed.

Lemma chars_inj (s t : string) : PyStr.chars s = PyStr.chars t → s = t.
Proof.
  revert t. induction s as [|c s IH]; intros [|d t] H; try done.
  injection H as -> H. f_equal. by apply IH.
Qed.

Lemma chars_string_app (s t : string) :
  PyStr.chars (s +:+ t) = PyStr.chars s ++ PyStr.chars t.
Proof.
  induction s as [|c s IH]; [done|].
  change (String c s +:+ t) with (String c (s +:+ t)). cbn. by rewrite IH.
Qed.

Lemma chars_string_of_list (l : list ascii) :
  PyStr.chars (String.string_of_list_ascii l) = l.
Proof. induction l as [|c l IH]; [done|]. cbn. by rewrite IH. Qed.

Lemma endswith_slash (a : string) :
  PyStr.endswith "/" a = true → ∃ a', a = a' +:+ "/".
Proof.
  unfold PyStr.endswith. change (String.rev "/") with "/".
  destruct (String.rev a) as [|c r] eqn:Hrev; [done|]. cbn.
  destruct (decide ("/"%char = c)) as [<-|]; [|done]. intros _.
  apply (f_equal PyStr.chars) in Hrev. rewrite chars_rev in Hrev. cbn in Hrev.
  apply (f_equal reverse) in Hrev. rewrite reverse_involutive, reverse_cons in Hrev.
  exists (String.string_of_list_ascii (reverse (PyStr.chars r))).
  apply chars_inj. by rewrite chars_string_app, chars_string_of_list.
Qed.

(** The temporary file of an image has the file name of its URL. *)
Lemma basename_path_join (folder url : string) :
  basename (path_join folder (basename url)) = basename url.
Proof.
  pose proof (basename_no_slash url) as Hname.
  unfold path_join, PyStr.startswith.
  destruct (PyStr.is_prefix "/" (basename url)) eqn:Hp.
  { by apply basename_plain. }
  destruct (decide (folder = "")); [by apply basename_plain|].
  destruct (PyStr.endswith "/" folder) eqn:Hend.
  - apply endswith_slash in Hend as [a' ->].
    rewrite string_app_assoc. by apply basename_after_slash.
  - by apply basename_after_slash.
Qed.

Section NoDiverge.

Context {env : Environment} {img : ImageEnvironment}.

Local Open Scope img_scope.

Lemma md_raise_for_status_no_diverge (r : media_response) :
  md_raise_for_status r ≠ Diverge.
Proof.
  unfold md_raise_for_status.
  by destruct ((400 <=? md_status_code r) && (md_status_code r <? 600)).
Qed.

Lemma media_http_no_diverge (req : media_request) (w : image_world) :
  fst (media_http req w) ≠ Diverge.
Proof.
  unfold media_http. destruct (media_serve req (server (folders_side w))) as [[|r] s'];
    done.
Qed.

Lemma download_image_no_diverge (url save_path : string) (w : image_world) :
  fst (download_image url save_path w) ≠ Diverge.
Proof.
  unfold download_image. rewrite log_and_raise_id. unfold img_bind at 1.
  pose proof (media_http_no_diverge (ImageGet (download_url url)) w) as Hget.
  destruct (media_http (ImageGet (download_url url)) w) as [[r|e|] w1]; try done.
  unfold img_bind at 1, img_lift.
  pose proof (md_raise_for_status_no_diverge r) as Hst.
  destruct (md_raise_for_status r) as [[]|e|]; try done.
  unfold img_bind at 1, write_file.
  destruct (disk_write save_path (md_content r) (disk w1)) as [[e|] d]; [done|].
  by destruct (md_complete r).
Qed.

Lemma check_if_image_exists_in_folder_no_diverge (folder_id : Z) (image_name : string)
    (w : image_world) :
  fst (check_if_image_exists_in_folder folder_id image_name w) ≠ Diverge.
Proof.
  unfold check_if_image_exists_in_folder. rewrite log_and_raise_id.
  unfold img_bind at 1.
  pose proof (media_http_no_diverge (LrListDocuments folder_id) w) as Hget.
  destruct (media_http (LrListDocuments folder_id) w) as [[r|e|] w1]; try done.
  unfold img_bind, img_lift.
  pose proof (md_raise_for_status_no_diverge r) as Hst.
  destruct (md_raise_for_status r) as [[]|e|]; try done.
  unfold json_documents, json_error. by destruct (md_json r).
Qed.

Lemma upload_image_to_liferay_no_diverge (folder_id : Z) (image_path : string)
    (w : image_world) :
  fst (upload_image_to_liferay folder_id image_path w) ≠ Diverge.
Proof.
  unfold upload_image_to_liferay. unfold img_bind at 1.
  pose proof (check_if_image_exists_in_folder_no_diverge folder_id
                (basename image_path) w) as Hcheck.
  destruct (check_if_image_exists_in_folder folder_id (basename image_path) w)
    as [[existing|e|] w1]; try done.
  destruct (truthy_url existing) as [url|]; [done|].
  unfold img_bind at 1, read_file.
  destruct (disk_read image_path (disk w1)) as [e|data]; [done|].
  rewrite log_and_raise_id. unfold img_bind at 1.
  pose proof (media_http_no_diverge
                (LrUploadDocument folder_id (basename image_path) data) w1) as Hpost.
  destruct (media_http (LrUploadDocument folder_id (basename image_path) data) w1)
    as [[r|e|] w2]; try done.
  unfold img_bind at 1, img_lift.
  pose proof (md_raise_for_status_no_diverge r) as Hst.
  destruct (md_raise_for_status r) as [[]|e|]; try done.
  unfold img_bind at 1, json_content_url, json_error. by destruct (md_json r).
Qed.

Lemma remove_file_no_diverge (path : string) (w : image_world) :
  fst (remove_file path w) ≠ Diverge.
Proof.
  unfold remove_file. by destruct (disk_remove path (disk w)) as [[e|] d].
Qed.

End NoDiverge.

Section ImageNeverAborts.

Context {env : Environment} {img : ImageEnvironment}.

Local Open Scope img_scope.

(** One image, step by step. *)
Lemma process_image_step (subfolder_id : Z) (image_url : string)
    (w : image_world) :
  ∃ sent uploaded,
    fst (process_image subfolder_id image_url w) = Done tt ∧
    image_step w (snd (process_image subfolder_id image_url w)) sent uploaded ∧
    (sent = [ImageGet (download_url image_url)] ∧ uploaded = 0
     ∨ sent = [ImageGet (download_url image_url); LrListDocuments subfolder_id] ∧
       (uploaded = 0 ∨ uploaded = 1)
     ∨ ∃ data,
         sent = [ImageGet (download_url image_url); LrListDocuments subfolder_id;
                 LrUploadDocument subfolder_id (basename image_url) data] ∧
         (uploaded = 0 ∨ uploaded = 1)).
Proof.
  destruct (process_image subfolder_id image_url w) as [o w'] eqn:E. cbn [fst snd].
  unfold process_image, img_try_except in E.
  set (image_path := path_join TEMP_FOLDER (basename image_url)) in E.
  unfold img_bind at 1 in E.
  pose proof (download_image_step image_url image_path w) as Hdown.
  pose proof (download_image_no_diverge image_url image_path w) as Hnd1.
  destruct (download_image image_url image_path w) as [[[]|e|] w1];
    cbn [fst snd] in Hdown, Hnd1; [| |done].
  2: { injection E as <- <-. exists [ImageGet (download_url image_url)], 0.
       split; [done|]. split; [done|]. by left. }
  unfold img_bind at 1 in E.
  destruct (upload_image_to_liferay_step subfolder_id image_path w1)
    as (sent & uploaded & Hup & Hsent & Hcount).
  unfold image_path in Hsent. rewrite basename_path_join in Hsent. fold image_path in Hsent.
  pose proof (image_step_trans _ _ _ _ _ _ _ Hdown Hup) as Hboth.
  rewrite Z.add_0_l in Hboth.
  assert (Huploaded : uploaded = 0 ∨ uploaded = 1)
    by (destruct Hcount as [[_ ->]|[_ ->]]; [by right|by left]).
  assert (Hshape :
    [ImageGet (download_url image_url)] ++ sent
      = [ImageGet (download_url image_url); LrListDocuments subfolder_id] ∧
    (uploaded = 0 ∨ uploaded = 1)
    ∨ ∃ data,
        [ImageGet (download_url image_url)] ++ sent
          = [ImageGet (download_url image_url); LrListDocuments subfolder_id;
             LrUploadDocument subfolder_id (basename image_url) data] ∧
        (uploaded = 0 ∨ uploaded = 1)).
  { destruct Hsent as [->|[data ->]]; [by left|right; by exists data]. }
  pose proof (upload_image_to_liferay_no_diverge subfolder_id image_path w1) as Hnd2.
  exists ([ImageGet (download_url image_url)] ++ sent), uploaded.
  destruct (upload_image_to_liferay subfolder_id image_path w1) as [[url|e|] w2];
    cbn [fst snd] in Hboth, Hnd2; [| |done].
  2: { injection E as <- <-. split; [done|]. split; [done|]. by right. }
  pose proof (remove_file_step image_path w2) as Hrm.
  pose proof (image_step_trans _ _ _ _ _ _ _ Hboth Hrm) as Hall.
  rewrite app_nil_r, Z.add_0_r in Hall.
  pose proof (remove_file_no_diverge image_path w2) as Hnd3.
  destruct (remove_file image_path w2) as [[[]|e|] w3]; cbn [fst snd] in Hall, Hnd3;
    [| |done]; injection E as <- <-; (split; [done|]); (split; [done|]); by right.
Qed.

(** X29. Whatever the servers and the disk do, the handling of one image
    ends normally.  It sends the download request, then at most the
    listing of the subfolder and the upload under the file name of the
    URL, in this order; it counts at most one image, and only after the
    listing was made; it sends nothing about folders or posts and leaves
    the two JSON files and the folder counter alone. *)
Theorem process_image_never_aborts (subfolder_id : Z) (image_url : string)
    (w : image_world) :
  ∃ sent uploaded,
    fst (process_image subfolder_id image_url w) = Done tt ∧
    image_step w (snd (process_image subfolder_id image_url w)) sent uploaded ∧
    (sent = [ImageGet (download_url image_url)] ∧ uploaded = 0
     ∨ sent = [ImageGet (download_url image_url); LrListDocuments subfolder_id] ∧
       (uploaded = 0 ∨ uploaded = 1)
     ∨ ∃ data,
         sent = [ImageGet (download_url image_url); LrListDocuments subfolder_id;
                 LrUploadDocument subfolder_id (basename image_url) data] ∧
         (uploaded = 0 ∨ uploaded = 1)).
Proof. exact (process_image_step subfolder_id image_url w). Qed.

(** Images are handled one after the other, whatever happens to each. *)
Lemma process_images_never_aborts (subfolder_id : Z) (valid_image_urls : list string) :
  ∀ w, fst (process_images subfolder_id valid_image_urls w) = Done tt.
Proof.
  induction valid_image_urls as [|image_url urls IH]; intros w; [done|].
  cbn [process_images]. unfold img_bind.
  destruct (process_image_step subfolder_id image_url w) as (_ & _ & Hdone & _).
  destruct (process_image subfolder_id image_url w) as [o w1]. cbn in Hdone. subst o.
  apply IH.
Qed.

End ImageNeverAborts.

(** * The second pass of [main] *)

Section SecondPassOfMain.

Context {env : Environment}.

Lemma relink_post_no_diverge (url_mapping : list UrlMapping) (post : Post) (w : world) :
  fst (relink_post url_mapping post w) ≠ Diverge.
Proof.
  destruct (get_content_id_by_friendly_url_run
              (generate_friendly_url (post_title post)) w)
    as (o & rep & s' & _ & Hget & _ & _ & Hnd).
  unfold relink_post, bind. rewrite Hget.
  destruct o as [found|e|]; [|done|done].
  destruct (truthy_id found) as [id|]; [|done].
  destruct (decide _); [|done].
  rewrite update_content_in_liferay_run. by destruct (serve _ _).
Qed.

Lemma for_each_relink_no_diverge (url_mapping : list UrlMapping) (posts : list Post) :
  ∀ w, fst (for_each posts (relink_post url_mapping) w) ≠ Diverge.
Proof.
  induction posts as [|post posts IH]; intros w; [done|].
  cbn [for_each]. unfold bind.
  pose proof (relink_post_no_diverge url_mapping post w) as Hnd.
  destruct (relink_post url_mapping post w) as [[[]|e|] w1]; [apply IH|done|done].
Qed.

(** [main] up to its second loop: the posts are fetched, the first loop
    has run, and the mapping file is read again. *)
Lemma main_second_pass (fuel : nat) (w : world) (posts : list Post) (w0 w1 : world) :
  fetch_posts fuel (wordpress_id <$> persisted_categories w) w = (Done posts, w0) →
  for_each posts
    (fun post => process_post post (persisted_urls w0) (persisted_categories w)) w0
    = (Done tt, w1) →
  main fuel w
  = (Done tt, snd (for_each posts (relink_post (persisted_urls w1)) w1)).
Proof.
  intros Hfetch Hfirst.
  unfold main, try_except, bind at 1, load_categories_mapping.
  unfold persisted_categories in Hfetch, Hfirst.
  unfold bind at 1. rewrite Hfetch.
  unfold bind at 1, load_url_mapping. unfold persisted_urls in Hfirst.
  unfold bind at 1. rewrite Hfirst.
  unfold bind at 1.
  pose proof (for_each_relink_no_diverge (persisted_urls w1) posts w1) as Hnd.
  unfold persisted_urls in *.
  by destruct (for_each posts (relink_post (default [] (url_mapping_file w1))) w1)
    as [[[]|e|] w2].
Qed.

(** The run of the second loop from the post it has reached. *)
Lemma for_each_reaches {A} (f : A → M unit) (before : list A) (x : A) (after : list A)
    (w wi wi' : world) :
  for_each before f w = (Done tt, wi) →
  f x wi = (Done tt, wi') →
  for_each (before ++ x :: after) f w = for_each after f wi'.
Proof.
  intros Hbefore Hx. rewrite for_each_app. unfold bind. rewrite Hbefore.
  cbn [for_each]. unfold bind. by rewrite Hx.
Qed.

End SecondPassOfMain.

(** In the content model the whole second loop changes nothing of a
    stored content but its [TextoMateria] field. *)
Lemma for_each_relink_frame (url_mapping : list UrlMapping) (posts : list Post) :
  ∀ w : @world cms_env,
  ∃ w',
    for_each posts (relink_post url_mapping) w = (Done tt, w') ∧
    outside_body <$> cms_contents (server w')
      = outside_body <$> cms_contents (server w).
Proof.
  induction posts as [|post posts IH]; intros w; [by exists w|].
  destruct (relink_post_frame url_mapping post w) as (w1 & Hrun & Hframe).
  destruct (IH w1) as (w' & Hrest & Hframe').
  exists w'. split; [|by rewrite Hframe', Hframe].
  cbn [for_each]. unfold bind. by rewrite Hrun.
Qed.

(** C7. The second pass as [main] runs it.  Once the posts are fetched
    and the first loop is through, [main] reads [url_mapping.json] again,
    so with the entries the first loop has added, and runs the second loop
    over all the posts with that mapping; whatever happens in it, [main]
    ends normally in the world it leaves.  When the loop reaches a post
    whose content is found by its friendly URL (the lookup returns an id,
    and the id is not 0, which [if content_id] would take for absent), the
    only request after the lookup is a [PATCH] when the original content
    with the internal links replaced differs from the original, and there
    is none when it does not; the payload of the [PATCH] has the single
    field [TextoMateria] with the rewritten content, the local files are
    untouched, and the loop goes on with the posts that follow.  In the
    content model every other member and field of every stored content
    keeps its value through the whole loop. *)
Theorem second_pass_updates_body_only :
  (∀ (env : Environment) (fuel : nat) (w : world) (posts : list Post)
     (w0 w1 : world),
     fetch_posts fuel (wordpress_id <$> persisted_categories w) w = (Done posts, w0) →
     for_each posts
       (fun post => process_post post (persisted_urls w0) (persisted_categories w)) w0
       = (Done tt, w1) →
     let url_mapping := persisted_urls w1 in
     persisted_urls w `prefix_of` url_mapping ∧
     main fuel w = (Done tt, snd (for_each posts (relink_post url_mapping) w1)) ∧
     ∀ (before : list Post) (post : Post) (after : list Post) (wi : world)
       (id : Z) (wi1 : world),
       posts = before ++ post :: after →
       for_each before (relink_post url_mapping) w1 = (Done tt, wi) →
       get_content_id_by_friendly_url (generate_friendly_url (post_title post)) wi
         = (Done (Some id), wi1) →
       id ≠ 0 →
       let content_html := post_content post in
       let updated_html := replace_internal_links content_html url_mapping in
       ∃ wi',
         relink_post url_mapping post wi = (Done tt, wi') ∧
         requests wi' =
           requests wi1 ++
           (if decide (updated_html ≠ content_html)
            then [ LrPatchContent id
                     [ {| field_name := "TextoMateria"; field_data := updated_html |} ] ]
            else []) ∧
         url_mapping_file wi' = url_mapping_file wi1 ∧
         category_mapping_file wi' = category_mapping_file wi1 ∧
         folders_created wi' = folders_created wi1 ∧
         for_each posts (relink_post url_mapping) w1
           = for_each after (relink_post url_mapping) wi') ∧
  (∀ (url_mapping : list UrlMapping) (posts : list Post) (w : @world cms_env),
     ∃ w',
       for_each posts (relink_post url_mapping) w = (Done tt, w') ∧
       outside_body <$> cms_contents (server w')
         = outside_body <$> cms_contents (server w)).
Proof.
  split; [|apply for_each_relink_frame].
  intros env fuel w posts w0 w1 Hfetch Hfirst url_mapping.
  split; [|split].
  - pose proof (growing_fetch_posts fuel (wordpress_id <$> persisted_categories w) w)
      as (Hu0 & _).
    rewrite Hfetch in Hu0. cbn [snd] in Hu0.
    pose proof (growing_for_each posts
                  (fun post => process_post post (persisted_urls w0)
                                 (persisted_categories w))
                  (fun post => growing_process_post post _ _) w0) as (Hu1 & _).
    rewrite Hfirst in Hu1. cbn [snd] in Hu1.
    by etrans.
  - exact (main_second_pass fuel w posts w0 w1 Hfetch Hfirst).
  - intros before post after wi id wi1 -> Hbefore Hfound Hid content_html updated_html.
    pose proof (relink_post_found url_mapping post wi id wi1 Hfound Hid) as Hstep.
    fold content_html updated_html in Hstep.
    destruct (decide (updated_html ≠ content_html)) as [Hne|Heq].
    + rewrite update_content_in_liferay_run in Hstep.
      destruct (serve (LrPatchContent id (update_payload updated_html)) (server wi1))
        as [rep s'].
      eexists. split; [exact Hstep|]. split; [apply requests_log_exchange|].
      split; [done|]. split; [done|]. split; [done|].
      exact (for_each_reaches _ _ _ _ _ _ _ Hbefore Hstep).
    + exists wi1. split; [exact Hstep|]. split; [by rewrite app_nil_r|].
      split; [done|]. split; [done|]. split; [done|].
      exact (for_each_reaches _ _ _ _ _ _ _ Hbefore Hstep).
Qed.

(** * The uploads of a post *)

Section UploadsOfAPost.

Context {env : Environment} {img : ImageEnvironment}.

Local Open Scope img_scope.

(** The requests of [process_images], image by image. *)
Lemma process_images_requests (folder_id : Z) (urls : list string) :
  ∀ w : image_world,
  ∃ sents,
    Forall2 (image_requests folder_id) urls sents ∧
    media_requests (snd (process_images folder_id urls w))
      = media_requests w ++ concat sents.
Proof.
  induction urls as [|url urls IH]; intros w.
  { exists []. split; [constructor|]. cbn. by rewrite app_nil_r. }
  destruct (process_image_step folder_id url w)
    as (sent & uploaded & Hdone & (Hsent & _) & Hshape).
  cbn [process_images]. unfold img_bind.
  destruct (process_image folder_id url w) as [o w1]. cbn [fst snd] in Hdone, Hsent.
  subst o. destruct (IH w1) as (sents & Hall & Hrest).
  exists (sent :: sents). split.
  - constructor; [|done]. unfold image_requests.
    destruct Hshape as [[-> _]|[[-> _]|(data & -> & _)]];
      [by left|right; by left|right; right; by exists data].
  - rewrite Hrest, Hsent. cbn [concat]. by rewrite app_assoc.
Qed.

Lemma media_http_reply (req : media_request) (w : image_world)
    (r : media_response) (s' : Server) :
  media_serve req (server (folders_side w)) = (MdReply r, s') →
  media_http req w = (Done r, media_log_exchange req (MdReply r) s' w).
Proof. intros H. unfold media_http. by rewrite H. Qed.

Lemma check_if_image_exists_in_folder_listed (folder_id : Z) (image_name : string)
    (w : image_world) (r : media_response) (s' : Server) (items : list Document) :
  media_serve (LrListDocuments folder_id) (server (folders_side w)) = (MdReply r, s') →
  md_raise_for_status r = Done tt →
  json_documents r = Done items →
  check_if_image_exists_in_folder folder_id image_name w
  = (Done (doc_content_url
             <$> List.find (fun document => bool_decide (doc_title document = image_name))
                   items),
     media_log_exchange (LrListDocuments folder_id) (MdReply r) s' w).
Proof.
  intros Hlist Hst Hitems. unfold check_if_image_exists_in_folder.
  rewrite log_and_raise_id. unfold img_bind at 1.
  rewrite (media_http_reply _ _ _ _ Hlist).
  unfold img_bind at 1, img_lift. rewrite Hst.
  unfold img_bind at 1. by rewrite Hitems.
Qed.

(** The upload request is the last one of [upload_image_to_liferay]. *)
Lemma upload_request_last (folder_id : Z) (image_name : string) (data : list Byte.byte)
    (w : image_world) :
  media_requests
    (snd (img_try_except
            (response <- media_http (LrUploadDocument folder_id image_name data) ;;
             img_lift (md_raise_for_status response) ;;;
             new_url <- img_lift (json_content_url response) ;;
             count_image_uploaded ;;;
             img_ret new_url)
            log_and_raise w))
  = media_requests w ++ [LrUploadDocument folder_id image_name data].
Proof.
  rewrite log_and_raise_id. unfold img_bind at 1.
  pose proof (media_http_step (LrUploadDocument folder_id image_name data) w)
    as (Hreq & _).
  destruct (media_http (LrUploadDocument folder_id image_name data) w)
    as [[r|e|] w2]; cbn [snd] in Hreq; [|done|done].
  unfold img_bind at 1, img_lift.
  destruct (md_raise_for_status r) as [[]|e|]; [|done|done].
  unfold img_bind at 1.
  destruct (json_content_url r) as [url|e|]; [|done|done].
  unfold img_bind, img_ret, count_image_uploaded. cbn [snd]. exact Hreq.
Qed.

(** An image that arrives whole, is written to the disk and is not yet
    among the documents of the folder is uploaded into the folder. *)
Lemma process_image_uploads (folder_id : Z) (image_url : string) (w : image_world)
    (r1 r2 : media_response) (s1 s2 : Server) (d1 : Disk) (items : list Document)
    (data : list Byte.byte) :
  media_serve (ImageGet (download_url image_url)) (server (folders_side w))
    = (MdReply r1, s1) →
  md_raise_for_status r1 = Done tt →
  md_complete r1 = true →
  disk_write (path_join TEMP_FOLDER (basename image_url)) (md_content r1) (disk w)
    = (None, d1) →
  media_serve (LrListDocuments folder_id) s1 = (MdReply r2, s2) →
  md_raise_for_status r2 = Done tt →
  json_documents r2 = Done items →
  truthy_url (doc_content_url
                <$> List.find (fun document =>
                                 bool_decide (doc_title document = basename image_url))
                      items) = None →
  disk_read (path_join TEMP_FOLDER (basename image_url)) d1 = inr data →
  media_requests (snd (process_image folder_id image_url w))
  = media_requests w
    ++ [ImageGet (download_url image_url); LrListDocuments folder_id;
        LrUploadDocument folder_id (basename image_url) data].
Proof.
  intros Hget Hst1 Hcomplete Hwrite Hlist Hst2 Hitems Hnew Hread.
  pose proof (basename_path_join TEMP_FOLDER image_url) as Hname.
  remember (path_join TEMP_FOLDER (basename image_url)) as path eqn:Hpath.
  set (w1 := with_disk d1
               (media_log_exchange (ImageGet (download_url image_url))
                  (MdReply r1) s1 w)).
  assert (Hdown : download_image image_url path w = (Done tt, w1)).
  { unfold download_image. rewrite log_and_raise_id.
    unfold img_bind at 1. rewrite (media_http_reply _ _ _ _ Hget).
    unfold img_bind at 1, img_lift. rewrite Hst1.
    unfold img_bind at 1, write_file. cbn [disk media_log_exchange].
    by rewrite Hwrite, Hcomplete. }
  assert (Hreq1 : media_requests w1
                  = media_requests w ++ [ImageGet (download_url image_url)]).
  { unfold w1, media_requests. cbn. by rewrite fmap_app. }
  set (w2 := media_log_exchange (LrListDocuments folder_id) (MdReply r2) s2 w1).
  assert (Hreq2 : media_requests w2 = media_requests w1 ++ [LrListDocuments folder_id]).
  { unfold w2, media_requests. cbn. by rewrite fmap_app. }
  assert (Hupload :
    media_requests (snd (upload_image_to_liferay folder_id path w1))
    = media_requests w2 ++ [LrUploadDocument folder_id (basename image_url) data]).
  { unfold upload_image_to_liferay. rewrite Hname. unfold img_bind at 1.
    rewrite (check_if_image_exists_in_folder_listed folder_id (basename image_url)
               w1 r2 s2 items Hlist Hst2 Hitems).
    fold w2. rewrite Hnew. unfold img_bind at 1, read_file.
    change (disk w2) with d1. rewrite Hread.
    apply upload_request_last. }
  unfold process_image, img_try_except. rewrite <- Hpath.
  unfold img_bind at 1. rewrite Hdown. unfold img_bind at 1.
  destruct (upload_image_to_liferay folder_id path w1) as [[url|e|] w3];
    cbn [snd] in Hupload |- *.
  - pose proof (remove_file_step path w3) as (Hrm & _).
    rewrite app_nil_r in Hrm.
    destruct (remove_file path w3) as [[[]|e|] w4]; unfold img_ret;
      cbn [snd] in Hrm |- *;
      rewrite Hrm, Hupload, Hreq2, Hreq1, <- !app_assoc; done.
  - unfold img_ret. cbn [snd]. rewrite Hupload, Hreq2, Hreq1, <- !app_assoc. done.
  - rewrite Hupload, Hreq2, Hreq1, <- !app_assoc. done.
Qed.

(** A post with images that has not been handled yet: the folders are
    asked for, and the images go to the folder whose id
    [create_or_get_subfolder] returned. *)
Lemma process_category_posts_with_images (fuel : nat) (category : string)
    (post : Post) (posts : list Post) (processed : gset Z) (w : image_world)
    (folder_id subfolder_id : Z) (ws1 ws2 : world) (url : string) (urls : list string) :
  post_id post ∉ processed →
  filter_valid_image_urls (extract_image_urls (post_content post)) = url :: urls →
  create_or_get_folder_in_liferay category LIFERAY_SITE_ID (folders_side w)
    = (Done folder_id, ws1) →
  create_or_get_subfolder fuel folder_id (post_title post) ws1
    = (Done subfolder_id, ws2) →
  process_category_posts fuel category (post :: posts) processed w
  = (process_images subfolder_id (url :: urls) ;;;
     process_category_posts fuel category posts (processed ∪ {[post_id post]}))
      (with_folders_side ws2 w).
Proof.
  intros Hnew Hvalid Hfolder Hsub. cbn [process_category_posts].
  destruct (decide (post_id post ∈ processed)); [done|].
  rewrite Hvalid. unfold img_bind at 1, on_folders_side. rewrite Hfolder.
  unfold img_bind at 1. cbn [folders_side]. by rewrite Hsub.
Qed.

End UploadsOfAPost.

Lemma second_pass_updates_body_only_witness :
  persisted_urls linked_created
  = [ {| original_url := "https://www2.tc.df.gov.br/noticia-3"; new_url := "noticia-3" |};
      {| original_url := "https://www2.tc.df.gov.br/noticia-12"; new_url := "noticia-12" |} ] ∧
  fst (main 3 linked_start) = Done tt ∧
  requests (snd (main 3 linked_start))
  = requests linked_created
    ++ [ LrSearchContent "noticia-3"; LrSearchContent "noticia-12";
         LrPatchContent 2
           [ {| field_name := "TextoMateria";
                field_data := "<a href='noticia-3'>ver</a>" |} ] ] ∧
  (let wi := snd (for_each [older_post] (relink_post (persisted_urls linked_created))
                    linked_created) in
   ∃ wi',
     relink_post (persisted_urls linked_created) linking_post wi = (Done tt, wi') ∧
     requests wi'
     = requests wi
       ++ [ LrSearchContent "noticia-12";
            LrPatchContent 2
              [ {| field_name := "TextoMateria";
                   field_data := "<a href='noticia-3'>ver</a>" |} ] ]).
Proof.
  destruct second_pass_updates_body_only as [Hmain _].
  destruct (Hmain (site_env linked_posts) 3%nat linked_start linked_posts
              linked_fetched linked_created) as (_ & Hrun & Hpost).
  - vm_compute. reflexivity.
  - vm_compute. reflexivity.
  - split; [vm_compute; reflexivity|].
    split; [rewrite Hrun; reflexivity|].
    split; [rewrite Hrun; vm_compute; reflexivity|].
    intros wi.
    destruct (Hpost [older_post] linking_post [] wi 2
                (snd (@get_content_id_by_friendly_url (site_env linked_posts)
                        "noticia-12" wi)))
      as (wi' & Hstep & Hreq & _).
    + reflexivity.
    + vm_compute. reflexivity.
    + vm_compute. reflexivity.
    + done.
    + exists wi'. split; [exact Hstep|]. rewrite Hreq. vm_compute. reflexivity.
Defined.

(** C9. [create_or_get_subfolder] never propagates an exception: for no
    fuel is its outcome an exception, with enough fuel it returns an id,
    and when the first attempt fails with an [HTTPError] and the retry
    fails too (or the first attempt fails with another exception, in which
    case there is no retry) the id returned is the parent folder's.
    [process_posts] then hands that id to the upload of the images of the
    post: every image of the post is asked for, and every listing of
    documents and every upload that follows is addressed to the parent
    folder; an image that arrives whole, is written to the disk and is
    not among the documents of the parent folder yet is uploaded into
    it. *)
Theorem create_or_get_subfolder_never_raises {env : Environment}
    (parent : Z) (name : string) (w : world) :
  (∀ fuel e, fst (create_or_get_subfolder fuel parent name w) ≠ Raised e) ∧
  (∃ fuel0, ∀ fuel, (fuel0 ≤ fuel)%nat →
     ∃ id w', create_or_get_subfolder fuel parent name w = (Done id, w')) ∧
  (∀ fuel e w1 e' w2,
     subfolder_attempt fuel parent (subfolder_title name) w = (Raised e, w1) →
     is_HTTPError e = true →
     subfolder_retry fuel parent (subfolder_title name) w1 = (Raised e', w2) →
     create_or_get_subfolder fuel parent name w = (Done parent, w2)) ∧
  (∀ fuel e w1,
     subfolder_attempt fuel parent (subfolder_title name) w = (Raised e, w1) →
     is_HTTPError e = false →
     create_or_get_subfolder fuel parent name w = (Done parent, w1)) ∧
  (∀ (img : ImageEnvironment) (fuel : nat) (category : string) (post : Post)
     (posts : list Post) (processed : gset Z) (wi : image_world) (w' : world)
     (url : string) (urls : list string),
     post_title post = name →
     post_id post ∉ processed →
     filter_valid_image_urls (extract_image_urls (post_content post)) = url :: urls →
     create_or_get_folder_in_liferay category LIFERAY_SITE_ID (folders_side wi)
       = (Done parent, w) →
     create_or_get_subfolder fuel parent name w = (Done parent, w') →
     process_category_posts fuel category (post :: posts) processed wi
     = img_bind (process_images parent (url :: urls))
         (fun _ => process_category_posts fuel category posts
                     (processed ∪ {[post_id post]}))
         (with_folders_side w' wi) ∧
     ∃ sents,
       Forall2 (image_requests parent) (url :: urls) sents ∧
       media_requests
         (snd (process_images parent (url :: urls) (with_folders_side w' wi)))
       = media_requests wi ++ concat sents) ∧
  (∀ (img : ImageEnvironment) (image_url : string) (wi : image_world)
     (r1 r2 : media_response) (s1 s2 : Server) (d1 : Disk) (items : list Document)
     (data : list Byte.byte),
     media_serve (ImageGet (download_url image_url)) (server (folders_side wi))
       = (MdReply r1, s1) →
     md_raise_for_status r1 = Done tt →
     md_complete r1 = true →
     disk_write (path_join TEMP_FOLDER (basename image_url)) (md_content r1) (disk wi)
       = (None, d1) →
     media_serve (LrListDocuments parent) s1 = (MdReply r2, s2) →
     md_raise_for_status r2 = Done tt →
     json_documents r2 = Done items →
     truthy_url (doc_content_url
                   <$> List.find (fun document =>
                                    bool_decide (doc_title document = basename image_url))
                         items) = None →
     disk_read (path_join TEMP_FOLDER (basename image_url)) d1 = inr data →
     media_requests (snd (process_image parent image_url wi))
     = media_requests wi
       ++ [ImageGet (download_url image_url); LrListDocuments parent;
           LrUploadDocument parent (basename image_url) data]).
Proof.
  split; [|split; [|split; [|split; [|split]]]].
  - intros fuel e. rewrite create_or_get_subfolder_eq.
    destruct (subfolder_attempt fuel parent (subfolder_title name) w)
      as [[id|e1|] w1]; try done.
    destruct (is_HTTPError e1); [|done].
    by destruct (subfolder_retry fuel parent (subfolder_title name) w1)
      as [[id|e2|] w2].
  - set (n1 := listing_size (fst (serve (LrListSubfolders parent) (server w)))).
    set (w1 := snd (subfolder_attempt n1 parent (subfolder_title name) w)).
    set (n2 := listing_size (fst (serve (LrListSubfolders parent) (server w1)))).
    exists (max n1 n2). intros fuel Hfuel.
    rewrite create_or_get_subfolder_eq.
    destruct (subfolder_attempt_stable parent (subfolder_title name) w fuel)
      as [Hsame Hnd]; [fold n1; lia|].
    fold n1 in Hsame. rewrite Hsame in *. subst w1.
    destruct (subfolder_attempt n1 parent (subfolder_title name) w)
      as [[id|e1|] w1]; simpl in *; [by eauto| |done].
    destruct (is_HTTPError e1); [|by eauto].
    destruct (subfolder_retry_stable parent (subfolder_title name) w1 fuel)
      as [_ Hnd2]; [fold n2; lia|].
    destruct (subfolder_retry fuel parent (subfolder_title name) w1)
      as [[id|e2|] w2]; simpl in *; [by eauto|by eauto|done].
  - intros fuel e w1 e' w2 Hattempt Hhttp Hretry.
    by rewrite create_or_get_subfolder_eq, Hattempt, Hhttp, Hretry.
  - intros fuel e w1 Hattempt Hhttp.
    by rewrite create_or_get_subfolder_eq, Hattempt, Hhttp.
  - intros img fuel category post posts processed wi w' url urls
      Hname Hnew Hvalid Hfolder Hsub.
    split.
    + rewrite <- Hname in Hsub.
      exact (process_category_posts_with_images fuel category post posts processed wi
               parent parent w w' url urls Hnew Hvalid Hfolder Hsub).
    + apply (process_images_requests parent (url :: urls) (with_folders_side w' wi)).
  - intros img image_url wi r1 r2 s1 s2 d1 items data.
    apply process_image_uploads.
Qed.

Lemma create_or_get_subfolder_never_raises_witness :
  (∃ w',
     create_or_get_subfolder 3 42 "Relatorio 2024" (scripted_world creation_refused)
       = (Done 42, w') ∧
     requests w' =
       [ LrListSubfolders 42;
         LrCreateSubfolder 42 "Relatorio 2024" "Subpasta para Relatorio 2024";
         LrListSubfolders 42;
         LrCreateSubfolder 42 "Relatorio 2024" "Subpasta para Relatorio 2024" ]) ∧
  media_requests (snd (process_category_posts 3 "Noticias" [image_post] ∅ refused_start))
  = [ ImageGet "https://www2.tc.df.gov.br/wp-content/a.jpg";
      LrListDocuments 42;
      LrUploadDocument 42 "a.jpg" [Byte.x89; Byte.x50] ] ∧
  media_requests (snd (process_image 42 "/wp-content/a.jpg" refused_start))
  = media_requests refused_start
    ++ [ ImageGet "https://www2.tc.df.gov.br/wp-content/a.jpg";
         LrListDocuments 42;
         LrUploadDocument 42 "a.jpg" [Byte.x89; Byte.x50] ].
Proof.
  split; [|split].
  - destruct (create_or_get_subfolder_never_raises 42 "Relatorio 2024"
                (scripted_world creation_refused)) as (_ & _ & Hboth & _).
    eexists. split.
    + eapply (Hboth 3%nat (HTTPError 500) _ (HTTPError 500));
        [vm_compute; reflexivity|reflexivity|vm_compute; reflexivity].
    + reflexivity.
  - destruct (@create_or_get_subfolder_never_raises (scripted subfolders_refused)
                42 "Relatorio 2024"
                (snd (@create_or_get_folder_in_liferay (scripted subfolders_refused)
                        "Noticias" "20117" (folders_side refused_start))))
      as (_ & _ & _ & _ & Hposts & _).
    destruct (Hposts (scripted_images uploads_accepted) 3%nat "Noticias" image_post []
                ∅ refused_start
                (snd (@create_or_get_subfolder (scripted subfolders_refused) 3 42
                        "Relatorio 2024"
                        (snd (@create_or_get_folder_in_liferay
                                (scripted subfolders_refused)
                                "Noticias" "20117" (folders_side refused_start)))))
                "/wp-content/a.jpg" []) as [Hrun _].
    + reflexivity.
    + apply not_elem_of_empty.
    + vm_compute. reflexivity.
    + vm_compute. reflexivity.
    + vm_compute. reflexivity.
    + rewrite Hrun. vm_compute. reflexivity.
  - destruct (@create_or_get_subfolder_never_raises (scripted subfolders_refused)
                42 "Relatorio 2024" (scripted_world subfolders_refused))
      as (_ & _ & _ & _ & _ & Hupload).
    eapply (Hupload (scripted_images uploads_accepted) "/wp-content/a.jpg" refused_start);
      reflexivity.
Defined.
